(** * The task orchestrator of [app/main.py]

    A shallow embedding of the driver that selects benchmark tasks, groups
    them by environment, dispatches the groups and runs every task with its
    bookkeeping ([run_one_task], [run_task_group], [entry_swe_bench_mode]).

    Pure parts of the driver are Rocq functions.  The effectful parts run in
    a small monad with exceptions: a computation reads the chronological
    trace of the operations performed so far and yields the operations it
    performs itself.  The collaborators the driver calls (file system,
    logger, [ProjectApiManager], [inference], the process pool, the clock)
    answer through an environment record and may raise. *)

From Stdlib Require Import ZArith QArith List String Ascii Bool Lia.
From Stdlib Require Import Permutation Sorted OrderedTypeEx.
From stdpp Require Import base gmap strings list pretty.
Import ListNotations.

Local Open Scope string_scope.
Local Open Scope list_scope.

(* ================================================================== *)
(** * Data model *)
(* ================================================================== *)

(** [setup_info]: the entry of the setup map for one task id; the keys are
    the ones [run_one_task] reads. *)
Record SetupInfo := {
  repo_path : string;
  env_name : string;
  pre_install : list string;
  install : string;
  test_cmd : string
}.

(** [task_info]: the entry of the tasks map for one task id. *)
Record TaskInfo := {
  base_commit : string;
  problem_statement : string;
  repo : string;
  test_patch : string;
  PASS_TO_PASS : list string;
  FAIL_TO_PASS : list string;
  patch : string
}.

(** [class Task]. *)
Record Task := {
  task_counter : string;
  task_id : string;
  setup_info : SetupInfo;
  task_info : TaskInfo
}.

(** The object [datetime.datetime.now()] returns: broken-down local time. *)
Record datetime := {
  year : N;
  month : N;
  day : N;
  hour : N;
  minute : N;
  second : N;
  microsecond : N
}.

(** Python exceptions, all of them subclasses of [Exception]; [str_of_exn]
    is what an f-string prints for them. *)
Inductive exn :=
| ValueError (msg : string)
| KeyError (key : string)
| OSError (msg : string)
| RuntimeError (msg : string).

Definition str_of_exn (e : exn) : string :=
  match e with
  | ValueError m => m
  | KeyError k => "'" +:+ k +:+ "'"
  | OSError m => m
  | RuntimeError m => m
  end.

(** The dictionary dumped to [cost.json]. *)
Record CostRecord := {
  cost_model : string;
  cost_commit : string;
  input_cost_per_token : Q;
  output_cost_per_token : Q;
  total_input_tokens : Z;
  total_output_tokens : Z;
  total_tokens : Z;
  total_cost : Q;
  start_epoch : Q;
  end_epoch : Q;
  elapsed_seconds : Q
}.

(** The module [app.globals], as far as the driver reads it.  The module is
    not part of the sources at hand; its values are parameters of the
    model. *)
Record Globals := {
  output_dir : string;
  do_install : bool;
  only_save_sbfl_result : bool;
  model : string;
  MODEL_COST_PER_INPUT : gmap string Q;
  (** The per-output-token cost configured for every model, the
      counterpart of [MODEL_COST_PER_INPUT]; [run_one_task] never reads
      it. *)
  MODEL_COST_PER_OUTPUT : gmap string Q
}.

(* ================================================================== *)
(** * Library functions the driver uses *)
(* ================================================================== *)

(** ** The built-in [sorted(iterable, key=..., reverse=...)]

    A stable sort: elements whose keys are not ordered by [<] keep their
    relative order, also with [reverse=True]. *)
Section Sorted.
Context {A K : Type} (key : A -> K) (lt : K -> K -> bool) (reverse : bool).

(** [stays_before y x]: [y], already placed, stays in front of [x], which
    comes from further left in the input. *)
Definition stays_before (y x : A) : bool :=
  if reverse then lt (key x) (key y) else lt (key y) (key x).

Fixpoint insert_sorted (x : A) (l : list A) : list A :=
  match l with
  | [] => [x]
  | y :: r => if stays_before y x then y :: insert_sorted x r else x :: y :: r
  end.

Definition sorted (l : list A) : list A :=
  List.fold_right insert_sorted [] l.
End Sorted.

(** [sorted(ids)] on strings: code-point order, which on UTF-8 encoded
    strings is the byte-wise lexicographic order. *)
Definition sorted_str (l : list string) : list string :=
  sorted (fun s => s) Strings.String.ltb false l.

(** ** [posixpath.join] with two arguments *)
Definition starts_with_sep (s : string) : bool :=
  match s with
  | String c _ => Ascii.eqb c "/"%char
  | EmptyString => false
  end.

Fixpoint ends_with_sep (s : string) : bool :=
  match s with
  | EmptyString => false
  | String c EmptyString => Ascii.eqb c "/"%char
  | String _ r => ends_with_sep r
  end.

Definition pjoin (a b : string) : string :=
  if starts_with_sep b then b
  else if (Strings.String.eqb a "" || ends_with_sep a)%bool then a +:+ b
  else a +:+ "/" +:+ b.

(** ** [strftime("%Y-%m-%d_%H-%M-%S")] *)
Definition digit (n : N) : ascii := ascii_of_N (48 + n mod 10).

Definition pad2 (n : N) : string :=
  String (digit (n / 10)) (String (digit n) EmptyString).

Definition pad4 (n : N) : string :=
  String (digit (n / 1000)) (String (digit (n / 100)) (pad2 n)).

Definition strftime (t : datetime) : string :=
  pad4 (year t) +:+ "-" +:+ pad2 (month t) +:+ "-" +:+ pad2 (day t) +:+ "_"
  +:+ pad2 (hour t) +:+ "-" +:+ pad2 (minute t) +:+ "-" +:+ pad2 (second t).

(* ================================================================== *)
(** * Pure parts of [entry_swe_bench_mode] *)
(* ================================================================== *)

(** Lines 247-249: the ids that are not in both maps. *)
Definition in_both_maps (setup_map : gmap string SetupInfo)
    (tasks_map : gmap string TaskInfo) (x : string) : bool :=
  (bool_decide (is_Some (setup_map !! x))
   && bool_decide (is_Some (tasks_map !! x)))%bool.

Definition missing_task_ids (setup_map : gmap string SetupInfo)
    (tasks_map : gmap string TaskInfo) (all_task_ids : list string)
    : list string :=
  List.filter (fun x => negb (in_both_maps setup_map tasks_map x)) all_task_ids.

(** [x in missing_task_ids] on a list of strings. *)
Definition str_mem (x : string) (l : list string) : bool :=
  List.existsb (Strings.String.eqb x) l.

(** Lines 250-259: drop the missing ids (only when there are some), then
    sort. *)
Definition remaining_task_ids (setup_map : gmap string SetupInfo)
    (tasks_map : gmap string TaskInfo) (all_task_ids : list string)
    : list string :=
  let missing := missing_task_ids setup_map tasks_map all_task_ids in
  let kept :=
    match missing with
    | [] => all_task_ids
    | _ :: _ => List.filter (fun x => negb (str_mem x missing)) all_task_ids
    end in
  sorted_str kept.

(** Lines 274-280: the dictionary [task_groups], in insertion order (the
    order [task_groups.items()] yields). *)
Fixpoint groups_append (key : string) (task : Task)
    (task_groups : list (string * list Task)) : list (string * list Task) :=
  match task_groups with
  | [] => [(key, [task])]
  | (k, items) :: rest =>
      if Strings.String.eqb k key then (k, items ++ [task]) :: rest
      else (k, items) :: groups_append key task rest
  end.

Definition group_tasks (all_tasks : list Task) : list (string * list Task) :=
  List.fold_left
    (fun task_groups task =>
       groups_append (env_name (setup_info task)) task task_groups)
    all_tasks [].

(** Lines 301-307: the worker count and the job list handed to the pool. *)
Definition clamp_processes (num_processes : Z)
    (task_groups : list (string * list Task)) : Z :=
  Z.min num_processes (Z.of_nat (length task_groups)).

Definition sort_groups (task_groups : list (string * list Task))
    : list (string * list Task) :=
  sorted (fun x : string * list Task => length (snd x)) Nat.ltb true
         task_groups.

(** What a Python call yields: a value, or an exception. *)
Inductive outcome (A : Type) :=
| Ok (a : A)
| Raise (e : exn).
Arguments Ok {A} a.
Arguments Raise {A} e.

(** Lines 263-269: one [Task] per remaining id; [setup_map[task_id]] raises
    [KeyError] on an id the map lacks. *)

Definition make_task (setup_map : gmap string SetupInfo)
    (tasks_map : gmap string TaskInfo) (num_tasks idx : nat) (id : string)
    : outcome Task :=
  match setup_map !! id with
  | None => Raise (KeyError id)
  | Some s =>
      match tasks_map !! id with
      | None => Raise (KeyError id)
      | Some t =>
          Ok {| task_counter := pretty (idx + 1)%nat +:+ "/" +:+ pretty num_tasks;
                task_id := id; setup_info := s; task_info := t |}
      end
  end.

Fixpoint make_tasks_from (setup_map : gmap string SetupInfo)
    (tasks_map : gmap string TaskInfo) (num_tasks idx : nat)
    (ids : list string) : outcome (list Task) :=
  match ids with
  | [] => Ok []
  | id :: rest =>
      match make_task setup_map tasks_map num_tasks idx id with
      | Raise e => Raise e
      | Ok task =>
          match make_tasks_from setup_map tasks_map num_tasks (S idx) rest with
          | Raise e => Raise e
          | Ok tasks => Ok (task :: tasks)
          end
      end
  end.

Definition make_tasks (setup_map : gmap string SetupInfo)
    (tasks_map : gmap string TaskInfo) (all_task_ids : list string)
    : outcome (list Task) :=
  make_tasks_from setup_map tasks_map (length all_task_ids) 0 all_task_ids.

(* ================================================================== *)
(** * Effects: the trace and the environment *)
(* ================================================================== *)

(** What the driver prints or logs; one constructor per message text. *)
Inductive message :=
| MsgRunningTask (id : string)           (* "============= Running task {id} =============" *)
| MsgSbflOk (id : string)                (* "[SBFL only] Task {id} completed successfully." *)
| MsgSbflFailed (id : string)            (* "[SBFL only] Task {id} failed to produce result." *)
| MsgCompleted (id : string)             (* "Task {id} completed successfully." *)
| MsgFailedNoExn (id : string)           (* "Task {id} failed without exception." *)
| MsgFailedExn (id : string) (e : exn)   (* "Task {id} failed with exception: {e}." *)
| MsgStartGroup (gid : string) (n : nat) (* "Starting process for task group ..." *)
| MsgTaskReturn                          (* globals_mut.incre_task_return_msg() *)
| MsgGroupReturn (gid : string)          (* "... Finished task group {gid}." *)
| MsgSkipping (id : string)              (* "Skipping task {id} which was not found ..." *)
| MsgTotalTasks (n : nat)
| MsgTotalProcesses (n : Z)
| MsgGroupCount (n : nat)
| MsgGroupInfo (key : string) (n : nat)
| MsgSingleProcess                       (* "Running in single process mode." *)
| MsgFinishedSequentially                (* "Finished all tasks sequentially." *)
| MsgSortedGroups (keys : list string)   (* "Sorted task groups: [...]" *)
| MsgFinishingPool                       (* "Finishing all tasks in the pool." *)
| MsgOnlySbfl                            (* "Only saving SBFL results. Exiting." *)
| MsgPostProcessing
| MsgInputFileCreated (path : string).

(** The operations the driver performs, in the order it performs them.  An
    operation of a collaborator carries the answer it gave: [None] or [Ok]
    when it returned, the exception when it raised.  [EvEnter] and
    [EvReturn] mark the call of [run_one_task] and its normal return. *)
Inductive event :=
| EvEnter (task : Task)
| EvReturn (task : Task) (run_ok : bool)
| EvNow (t : datetime)
| EvCreateDir (path : string) (r : option exn)
| EvCommitHash (r : outcome string)
| EvWriteMeta (path : string) (task : Task) (r : option exn)
| EvWriteText (path content : string) (r : option exn)
| EvWriteCost (path : string) (c : CostRecord) (r : option exn)
| EvNewLogger (id dir : string) (r : option exn)
| EvLog (m : message)
| EvLogException (e : exn)
| EvApiManager (task : Task) (dir : string) (install : bool) (r : option exn)
| EvFaultLocalization (id : string) (r : outcome bool)
| EvInference (dir id problem : string) (r : outcome bool)
| EvDumpSequence (id : string) (r : option exn)
| EvDumpLayers (id : string) (r : option exn)
| EvRepoReset (path commit : string) (r : option exn)
| EvLoggerClear (id : string)
| EvInitTotalTasks (n : nat)
| EvInitTotalGroups (n : nat)
| EvPool (processes : Z) (r : option exn)
| EvStarmap (jobs : list (string * list Task))
| EvPoolClose
| EvPoolJoin
| EvAggregate (dir : string) (r : outcome string).

(** The collaborators.  Every answer may depend on everything that happened
    before (the history), so that the same call can succeed once and fail
    the next time. *)
Record Env := {
  now : list event -> datetime;
  timestamp : datetime -> Q;
  total_seconds : datetime -> datetime -> Q;
  create_dir_if_not_exists : list event -> string -> option exn;
  get_current_commit_hash : list event -> outcome string;
  write_file : list event -> string -> option exn;
  create_new_logger : list event -> string -> string -> option exn;
  ProjectApiManager : list event -> Task -> string -> bool -> option exn;
  fault_localization : list event -> string -> outcome bool;
  inference_run_one_task : list event -> string -> string -> string -> outcome bool;
  dump_tool_call_sequence_to_file : list event -> string -> option exn;
  dump_tool_call_layers_to_file : list event -> string -> option exn;
  api_input_tokens : list event -> string -> Z;
  api_output_tokens : list event -> string -> Z;
  api_cost : list event -> string -> Q;
  repo_reset_and_clean_checkout : list event -> string -> string -> option exn;
  new_pool : list event -> Z -> option exn;
  organize_and_form_input : list event -> string -> outcome string
}.

(** A computation reads the history and yields its outcome together with
    the events it performed. *)
Definition M (A : Type) : Type := list event -> outcome A * list event.

Definition ret {A} (a : A) : M A := fun _ => (Ok a, []).

Definition raise {A} (e : exn) : M A := fun _ => (Raise e, []).

Definition bind {A B} (m : M A) (k : A -> M B) : M B :=
  fun h =>
    match m h with
    | (Ok a, n1) => let (r, n2) := k a (h ++ n1) in (r, n1 ++ n2)
    | (Raise e, n1) => (Raise e, n1)
    end.

Notation "x <- c1 ;; c2" := (bind c1 (fun x => c2))
  (at level 100, c1 at next level, right associativity).
Notation "c1 ;; c2" := (bind c1 (fun _ => c2))
  (at level 100, right associativity).

(** [try: m except Exception as e: ...]: the exception becomes a value. *)
Definition attempt {A} (m : M A) : M (outcome A) :=
  fun h => let (r, n) := m h in (Ok r, n).

(** [try: m finally: cleanup], where [cleanup] does not itself return. *)
Definition finally {A} (m : M A) (cleanup : M unit) : M A :=
  fun h =>
    let (r, n1) := m h in
    match cleanup (h ++ n1) with
    | (Ok _, n2) => (r, n1 ++ n2)
    | (Raise e, n2) => (Raise e, n1 ++ n2)
    end.

Definition emit (e : event) : M unit := fun _ => (Ok tt, [e]).

(** A call that returns nothing or raises. *)
Definition call_unit (answer : list event -> option exn)
    (ev : option exn -> event) : M unit :=
  fun h =>
    let r := answer h in
    (match r with None => Ok tt | Some e => Raise e end, [ev r]).

(** A call that returns a value or raises. *)
Definition call_value {A} (answer : list event -> outcome A)
    (ev : outcome A -> event) : M A :=
  fun h => let r := answer h in (r, [ev r]).

(** Reading state of a collaborator (an attribute, the clock). *)
Definition read {A} (f : list event -> A) : M A := fun h => (Ok (f h), []).

Fixpoint for_each {A} (l : list A) (body : A -> M unit) : M unit :=
  match l with
  | [] => ret tt
  | x :: r => body x ;; for_each r body
  end.

(* ================================================================== *)
(** * [run_one_task] *)
(* ================================================================== *)

Section Driver.
Variable env : Env.
Variable g : Globals.

(** Line 84. *)
Definition task_output_dir_of (id : string) (start_time : datetime) : string :=
  pjoin (output_dir g) (id +:+ "_" +:+ strftime start_time).

(** Lines 82-106: output directory, artifacts, logger. *)
Definition prepare_task (task : Task) : M (datetime * string * string) :=
  let id := task_id task in
  start_time <- read (now env) ;;
  emit (EvNow start_time) ;;
  let task_output_dir := task_output_dir_of id start_time in
  call_unit (fun h => create_dir_if_not_exists env h task_output_dir)
            (EvCreateDir task_output_dir) ;;
  commit_hash <- call_value (get_current_commit_hash env) EvCommitHash ;;
  (let f := pjoin task_output_dir "meta.json" in
   call_unit (fun h => write_file env h f) (EvWriteMeta f task)) ;;
  (let f := pjoin task_output_dir "problem_statement.txt" in
   call_unit (fun h => write_file env h f)
             (EvWriteText f (problem_statement (task_info task)))) ;;
  (let f := pjoin task_output_dir "developer_patch.diff" in
   call_unit (fun h => write_file env h f)
             (EvWriteText f (patch (task_info task)))) ;;
  call_unit (fun h => create_new_logger env h id task_output_dir)
            (EvNewLogger id task_output_dir) ;;
  emit (EvLog (MsgRunningTask id)) ;;
  ret (start_time, task_output_dir, commit_hash).

(** Lines 172-186: the dictionary written to [cost.json]; the attributes
    of the API manager are read when the dictionary is built. *)
Definition cost_record (id commit_hash : string) (start_time end_time : datetime)
    (input_cost_per_token output_cost_per_token : Q) (h : list event)
    : CostRecord :=
  {| cost_model := model g;
     cost_commit := commit_hash;
     input_cost_per_token := input_cost_per_token;
     output_cost_per_token := output_cost_per_token;
     total_input_tokens := api_input_tokens env h id;
     total_output_tokens := api_output_tokens env h id;
     total_tokens := api_input_tokens env h id + api_output_tokens env h id;
     total_cost := api_cost env h id;
     start_epoch := timestamp env start_time;
     end_epoch := timestamp env end_time;
     elapsed_seconds := total_seconds env end_time start_time |}.

(** [table[name]], which raises [KeyError] on a missing name. *)
Definition lookup_cost (table : gmap string Q) (name : string) : M Q :=
  match table !! name with
  | Some c => ret c
  | None => raise (KeyError name)
  end.

(** Lines 162-196: the [finally] block, which ends in [return run_ok].
    Lines 169 and 170 read both per-token costs from
    [MODEL_COST_PER_INPUT]. *)
Definition finish_task (task : Task) (start_time : datetime)
    (task_output_dir commit_hash : string) (run_status_message : message)
    (run_ok : bool) : M bool :=
  let id := task_id task in
  end_time <- read (now env) ;;
  emit (EvNow end_time) ;;
  call_unit (fun h => dump_tool_call_sequence_to_file env h id)
            (EvDumpSequence id) ;;
  call_unit (fun h => dump_tool_call_layers_to_file env h id)
            (EvDumpLayers id) ;;
  input_cost_per_token <- lookup_cost (MODEL_COST_PER_INPUT g) (model g) ;;
  output_cost_per_token <- lookup_cost (MODEL_COST_PER_INPUT g) (model g) ;;
  c <- read (cost_record id commit_hash start_time end_time
                         input_cost_per_token output_cost_per_token) ;;
  (let f := pjoin task_output_dir "cost.json" in
   call_unit (fun h => write_file env h f) (EvWriteCost f c)) ;;
  (let repo_path := repo_path (setup_info task) in
   let base_commit := base_commit (task_info task) in
   call_unit (fun h => repo_reset_and_clean_checkout env h repo_path base_commit)
             (EvRepoReset repo_path base_commit)) ;;
  emit (EvLog run_status_message) ;;
  emit (EvLoggerClear id) ;;
  ret run_ok.

(** Lines 148-161: the inference step inside [try ... except Exception]. *)
Definition run_inference (task : Task) (task_output_dir : string)
    : M (bool * message) :=
  let id := task_id task in
  let problem_stmt := problem_statement (task_info task) in
  r <- attempt
         (call_value
            (fun h => inference_run_one_task env h task_output_dir id problem_stmt)
            (EvInference task_output_dir id problem_stmt)) ;;
  match r with
  | Ok true => ret (true, MsgCompleted id)
  | Ok false => ret (false, MsgFailedNoExn id)
  | Raise e => emit (EvLogException e) ;; ret (false, MsgFailedExn id e)
  end.

(** Lines 133-146: the mode that only saves the fault-localization
    result. *)
Definition sbfl_only (task : Task) : M bool :=
  let id := task_id task in
  run_ok <- call_value (fun h => fault_localization env h id)
                       (EvFaultLocalization id) ;;
  (if run_ok : bool then emit (EvLog (MsgSbflOk id))
   else emit (EvLog (MsgSbflFailed id))) ;;
  ret true.

(** Lines 54-196, between the call and the return. *)
Definition run_one_task_body (task : Task) : M bool :=
  let id := task_id task in
  p <- prepare_task task ;;
  let '(start_time, task_output_dir, commit_hash) := p in
  r <- attempt
         (call_unit
            (fun h => ProjectApiManager env h task task_output_dir (do_install g))
            (EvApiManager task task_output_dir (do_install g))) ;;
  match r with
  | Raise e =>
      emit (EvLogException e) ;;
      emit (EvLoggerClear id) ;;
      ret false
  | Ok _ =>
      if only_save_sbfl_result g then sbfl_only task
      else
        q <- run_inference task task_output_dir ;;
        let '(run_ok, run_status_message) := q in
        finish_task task start_time task_output_dir commit_hash
                    run_status_message run_ok
  end.

(** [run_one_task], with its call and its return marked in the trace. *)
Definition run_one_task (task : Task) : M bool :=
  emit (EvEnter task) ;;
  run_ok <- run_one_task_body task ;;
  emit (EvReturn task run_ok) ;;
  ret run_ok.

(* ================================================================ *)
(** * [run_task_group] *)
(* ================================================================ *)

Definition run_task_group (task_group_id : string)
    (task_group_items : list Task) : M unit :=
  emit (EvLog (MsgStartGroup task_group_id (length task_group_items))) ;;
  for_each task_group_items
           (fun task => run_one_task task ;; emit (EvLog MsgTaskReturn)) ;;
  emit (EvLog (MsgGroupReturn task_group_id)).

(* ================================================================ *)
(** * The process pool *)
(* ================================================================ *)

(** [Pool.starmap] cuts the job list into chunks of
    [ceil(len / (4 * processes))] jobs.  A worker runs the jobs of a chunk
    one after the other and gives up the chunk at the first exception;
    [starmap] waits for every chunk and then raises the first exception
    it was handed.  The workers run side by side; the model runs the
    chunks one after the other, in the order of submission. *)
Definition chunksize (len processes : nat) : nat :=
  if (len =? 0)%nat then 0%nat
  else if (len mod (4 * processes) =? 0)%nat then (len / (4 * processes))%nat
  else S (len / (4 * processes)).

Fixpoint chunks_fuel {A} (fuel size : nat) (l : list A) : list (list A) :=
  match fuel, l with
  | _, [] => []
  | O, _ => []
  | S fuel', _ => firstn size l :: chunks_fuel fuel' size (skipn size l)
  end.

Definition chunks {A} (size : nat) (l : list A) : list (list A) :=
  chunks_fuel (length l) size l.

Definition run_chunk (chunk : list (string * list Task)) : M unit :=
  for_each chunk (fun job => run_task_group (fst job) (snd job)).

Fixpoint run_chunks (cs : list (list (string * list Task)))
    (first_exn : option exn) : M (option exn) :=
  match cs with
  | [] => ret first_exn
  | c :: rest =>
      r <- attempt (run_chunk c) ;;
      match r, first_exn with
      | Raise e, None => run_chunks rest (Some e)
      | _, _ => run_chunks rest first_exn
      end
  end.

Definition starmap (processes : Z) (jobs : list (string * list Task)) : M unit :=
  emit (EvStarmap jobs) ;;
  r <- run_chunks (chunks (chunksize (length jobs) (Z.to_nat processes)) jobs)
                  None ;;
  match r with
  | Some e => raise e
  | None => ret tt
  end.

(* ================================================================ *)
(** * [entry_swe_bench_mode] *)
(* ================================================================ *)

(** Lines 228-237.  [task_list] is what [parse_task_list_file] returned
    for the task-list file, when one was given. *)
Definition select_task_ids (task_id : option string)
    (task_list : option (list string)) : outcome (list string) :=
  match task_id, task_list with
  | Some _, Some _ => Raise (ValueError "Cannot specify both task and task-list.")
  | _, _ =>
      let all_task_ids := match task_list with Some l => l | None => [] end in
      let all_task_ids :=
        match task_id with Some id => [id] | None => all_task_ids end in
      if (length all_task_ids =? 0)%nat
      then Raise (ValueError "No task ids to run.")
      else Ok all_task_ids
  end.

Definition lift {A} (r : outcome A) : M A :=
  match r with
  | Ok a => ret a
  | Raise e => raise e
  end.

(** [Pool(processes=n)] refuses a worker count below one; creating the
    workers may fail for reasons of the system as well. *)
Definition new_pool_answer (processes : Z) (h : list event) : option exn :=
  if (processes <? 1)%Z
  then Some (ValueError "Number of processes must be at least 1")
  else new_pool env h processes.

(** Lines 289-317. *)
Definition dispatch (num_processes : Z) (all_tasks : list Task)
    (task_groups : list (string * list Task)) : M unit :=
  if (num_processes =? 1)%Z then
    emit (EvLog MsgSingleProcess) ;;
    for_each all_tasks (fun task => run_one_task task ;; ret tt) ;;
    emit (EvLog MsgFinishedSequentially)
  else
    let num_task_groups := length task_groups in
    emit (EvInitTotalGroups num_task_groups) ;;
    let num_processes := clamp_processes num_processes task_groups in
    let task_group_ids_items := sort_groups task_groups in
    emit (EvLog (MsgSortedGroups (map fst task_group_ids_items))) ;;
    finally
      (call_unit (new_pool_answer num_processes) (EvPool num_processes) ;;
       starmap num_processes task_group_ids_items ;;
       emit EvPoolClose ;;
       emit EvPoolJoin)
      (emit (EvLog MsgFinishingPool)).

Definition entry_swe_bench_mode (task_id : option string)
    (task_list : option (list string))
    (setup_map : gmap string SetupInfo) (tasks_map : gmap string TaskInfo)
    (num_processes : Z) : M unit :=
  all_task_ids <- lift (select_task_ids task_id task_list) ;;
  call_unit (fun h => create_dir_if_not_exists env h (output_dir g))
            (EvCreateDir (output_dir g)) ;;
  for_each (sorted_str (missing_task_ids setup_map tasks_map all_task_ids))
           (fun id => emit (EvLog (MsgSkipping id))) ;;
  let all_task_ids := remaining_task_ids setup_map tasks_map all_task_ids in
  let num_tasks := length all_task_ids in
  emit (EvInitTotalTasks num_tasks) ;;
  all_tasks <- lift (make_tasks setup_map tasks_map all_task_ids) ;;
  let task_groups := group_tasks all_tasks in
  emit (EvLog (MsgTotalTasks num_tasks)) ;;
  emit (EvLog (MsgTotalProcesses num_processes)) ;;
  emit (EvLog (MsgGroupCount (length task_groups))) ;;
  for_each task_groups
           (fun kv => emit (EvLog (MsgGroupInfo (fst kv) (length (snd kv))))) ;;
  dispatch num_processes all_tasks task_groups ;;
  if only_save_sbfl_result g then emit (EvLog MsgOnlySbfl)
  else
    emit (EvLog MsgPostProcessing) ;;
    swe_input_file <- call_value
                        (fun h => organize_and_form_input env h (output_dir g))
                        (EvAggregate (output_dir g)) ;;
    emit (EvLog (MsgInputFileCreated swe_input_file)).

End Driver.

(* ================================================================== *)
(** * Observations on a trace *)
(* ================================================================== *)

(** The tasks [run_one_task] was called with, in the order of the calls. *)
Definition entered (n : list event) : list Task :=
  flat_map (fun e => match e with EvEnter t => [t] | _ => [] end) n.

(** The calls of [run_one_task] that returned, with the value returned. *)
Definition returned (n : list event) : list (Task * bool) :=
  flat_map (fun e => match e with EvReturn t b => [(t, b)] | _ => [] end) n.

(** The cost records that were written, with the file they went to. *)
Definition cost_writes (n : list event) : list (string * CostRecord) :=
  flat_map (fun e => match e with EvWriteCost f c None => [(f, c)] | _ => [] end) n.

(** The workspaces that were reset: repository path and revision. *)
Definition resets (n : list event) : list (string * string) :=
  flat_map (fun e => match e with EvRepoReset p c None => [(p, c)] | _ => [] end) n.

(** The per-task loggers that were released. *)
Definition logger_clears (n : list event) : list string :=
  flat_map (fun e => match e with EvLoggerClear id => [id] | _ => [] end) n.

(** The output directories that were created. *)
Definition created_dirs (n : list event) : list string :=
  flat_map (fun e => match e with EvCreateDir p None => [p] | _ => [] end) n.

(** The outcomes of constructing [ProjectApiManager]. *)
Definition api_manager_inits (n : list event) : list (option exn) :=
  flat_map (fun e => match e with EvApiManager _ _ _ r => [r] | _ => [] end) n.

(** The outcomes of the inference step. *)
Definition inference_runs (n : list event) : list (outcome bool) :=
  flat_map (fun e => match e with EvInference _ _ _ r => [r] | _ => [] end) n.

(** The exceptions raised by operations that [run_one_task] performs
    outside its two [try] blocks. *)
Definition unguarded_failures (n : list event) : list exn :=
  flat_map (fun e =>
              match e with
              | EvCreateDir _ (Some x) => [x]
              | EvCommitHash (Raise x) => [x]
              | EvWriteMeta _ _ (Some x) => [x]
              | EvWriteText _ _ (Some x) => [x]
              | EvWriteCost _ _ (Some x) => [x]
              | EvNewLogger _ _ (Some x) => [x]
              | EvFaultLocalization _ (Raise x) => [x]
              | EvDumpSequence _ (Some x) => [x]
              | EvDumpLayers _ (Some x) => [x]
              | EvRepoReset _ _ (Some x) => [x]
              | _ => []
              end) n.

(** The exceptions raised by creating the pool. *)
Definition pool_failures (n : list event) : list exn :=
  flat_map (fun e => match e with EvPool _ (Some x) => [x] | _ => [] end) n.


(** The answers of the fault localization. *)
Definition fault_localizations (n : list event) : list (outcome bool) :=
  flat_map (fun e => match e with EvFaultLocalization _ r => [r] | _ => [] end) n.

(** [ends_with n s]: the trace [n] ends in the events [s]. *)
Definition ends_with (n s : list event) : Prop := exists pre, n = pre ++ s.

(** The cleanup step ran exactly once: one cost record persisted, one
    workspace reset, one logger released. *)
Definition cleaned_up_once (n : list event) : Prop :=
  length (cost_writes n) = 1%nat
  /\ length (resets n) = 1%nat
  /\ length (logger_clears n) = 1%nat.

(* ================================================================== *)
(** * Sample inputs *)
(* ================================================================== *)

Definition sample_setup (id key : string) : SetupInfo :=
  {| repo_path := "/repos/" +:+ id; env_name := key; pre_install := [];
     install := "pip install ."; test_cmd := "pytest" |}.

Definition sample_info (id : string) : TaskInfo :=
  {| base_commit := "c0ffee"; problem_statement := "issue of " +:+ id;
     repo := "org/" +:+ id; test_patch := ""; PASS_TO_PASS := [];
     FAIL_TO_PASS := ["test_it"]; patch := "diff" |}.

Definition sample_task (counter id key : string) : Task :=
  {| task_counter := counter; task_id := id;
     setup_info := sample_setup id key; task_info := sample_info id |}.

Definition sample_time : datetime :=
  {| year := 2024; month := 5; day := 17; hour := 9; minute := 30;
     second := 12; microsecond := 250000 |}.

(** The same second, three quarters of a second later. *)
Definition sample_time_later : datetime :=
  {| year := 2024; month := 5; day := 17; hour := 9; minute := 30;
     second := 12; microsecond := 999999 |}.

Definition sample_globals (sbfl_only_mode : bool) : Globals :=
  {| output_dir := "out"; do_install := false;
     only_save_sbfl_result := sbfl_only_mode; model := "gpt-4";
     MODEL_COST_PER_INPUT := {[ "gpt-4" := 3 # 100000 ]};
     MODEL_COST_PER_OUTPUT := {[ "gpt-4" := 6 # 100000 ]} |}.

(** An environment whose clock stands still, in which creating a directory
    answers [mkdir path], constructing the API manager of task [id] answers
    [init id], the fault localization answers [fl], inference on task [id]
    answers [inf id], and everything else succeeds. *)
Definition sample_env (mkdir : string -> option exn) (init : string -> option exn)
    (fl : outcome bool) (inf : string -> outcome bool) : Env :=
  {| now := fun _ => sample_time;
     timestamp := fun _ => 0%Q;
     total_seconds := fun _ _ => 0%Q;
     create_dir_if_not_exists := fun _ p => mkdir p;
     get_current_commit_hash := fun _ => Ok "abc123";
     write_file := fun _ _ => None;
     create_new_logger := fun _ _ _ => None;
     ProjectApiManager := fun _ t _ _ => init (task_id t);
     fault_localization := fun _ _ => fl;
     inference_run_one_task := fun _ _ id _ => inf id;
     dump_tool_call_sequence_to_file := fun _ _ => None;
     dump_tool_call_layers_to_file := fun _ _ => None;
     api_input_tokens := fun _ _ => 1200%Z;
     api_output_tokens := fun _ _ => 300%Z;
     api_cost := fun _ _ => (54 # 1000)%Q;
     repo_reset_and_clean_checkout := fun _ _ _ => None;
     new_pool := fun _ _ => None;
     organize_and_form_input := fun _ d => Ok (d +:+ "/predictions.json") |}.

(** Nothing fails and every task is repaired. *)
Definition env_fine : Env :=
  sample_env (fun _ => None) (fun _ => None) (Ok true) (fun _ => Ok true).

(** The fault localization produces no result. *)
Definition env_no_localization : Env :=
  sample_env (fun _ => None) (fun _ => None) (Ok false) (fun _ => Ok true).

(** The API manager of task "t2" cannot be constructed, inference on "t1"
    raises and inference on "t3" fails without exception. *)
Definition env_failing_tasks : Env :=
  sample_env (fun _ => None)
             (fun id => if Strings.String.eqb id "t2"
                        then Some (RuntimeError "cannot set up the project")
                        else None)
             (Ok true)
             (fun id => if Strings.String.eqb id "t1"
                        then Raise (RuntimeError "inference crashed")
                        else Ok (negb (Strings.String.eqb id "t3"))).

(** The output directory of task "t1" cannot be created. *)
Definition env_unwritable : Env :=
  sample_env (fun p => if Strings.String.prefix "out/t1_" p
                       then Some (OSError "read-only file system")
                       else None)
             (fun _ => None) (Ok true) (fun _ => Ok true).

(** Every API manager fails to be constructed at once, and the clock has
    moved on within the same second when the second task starts. *)
Definition env_quick_failure : Env :=
  let e := sample_env (fun _ => None)
                      (fun _ => Some (RuntimeError "cannot set up the project"))
                      (Ok true) (fun _ => Ok true) in
  {| now := fun h => if (2 <=? length (entered h))%nat
                     then sample_time_later else sample_time;
     timestamp := timestamp e;
     total_seconds := total_seconds e;
     create_dir_if_not_exists := create_dir_if_not_exists e;
     get_current_commit_hash := get_current_commit_hash e;
     write_file := write_file e;
     create_new_logger := create_new_logger e;
     ProjectApiManager := ProjectApiManager e;
     fault_localization := fault_localization e;
     inference_run_one_task := inference_run_one_task e;
     dump_tool_call_sequence_to_file := dump_tool_call_sequence_to_file e;
     dump_tool_call_layers_to_file := dump_tool_call_layers_to_file e;
     api_input_tokens := api_input_tokens e;
     api_output_tokens := api_output_tokens e;
     api_cost := api_cost e;
     repo_reset_and_clean_checkout := repo_reset_and_clean_checkout e;
     new_pool := new_pool e;
     organize_and_form_input := organize_and_form_input e |}.

(** The clock readings of a trace. *)
Definition clock_readings (n : list event) : list datetime :=
  flat_map (fun e => match e with EvNow t => [t] | _ => [] end) n.

Definition t1 : Task := sample_task "1/3" "t1" "E1".
Definition t2 : Task := sample_task "2/3" "t2" "E2".
Definition t3 : Task := sample_task "3/3" "t3" "E1".

Definition sample_setup_map : gmap string SetupInfo :=
  <[ "t1" := sample_setup "t1" "E1" ]>
    (<[ "t2" := sample_setup "t2" "E2" ]>
       (<[ "t3" := sample_setup "t3" "E1" ]> ∅)).

Definition sample_tasks_map : gmap string TaskInfo :=
  <[ "t1" := sample_info "t1" ]>
    (<[ "t2" := sample_info "t2" ]>
       (<[ "t3" := sample_info "t3" ]> ∅)).

(* ================================================================== *)
(** * Notions used in the statements *)
(* ================================================================== *)

(** [key_of task] is [task.setup_info["env_name"]]. *)
Definition key_of (task : Task) : string := env_name (setup_info task).

Definition has_key (k : string) (task : Task) : bool :=
  Strings.String.eqb (key_of task) k.

(** What holds of [task_groups] after the loop has seen [tasks]. *)
Record grouped (tasks : list Task) (gs : list (string * list Task)) : Prop := {
  grouped_keys : List.NoDup (map fst gs);
  grouped_items :
    forall k items, In (k, items) gs -> items = List.filter (has_key k) tasks;
  grouped_cover : forall t, In t tasks -> In (key_of t) (map fst gs);
  grouped_all : Permutation (concat (map snd gs)) tasks
}.

(** [runs_all tasks res]: the computation returned, and [run_one_task] was
    called for exactly the tasks of [tasks], in this order, and returned
    each time. *)
Definition runs_all (tasks : list Task) (res : outcome unit * list event) : Prop :=
  fst res = Ok tt
  /\ entered (snd res) = tasks
  /\ map fst (returned (snd res)) = tasks.

(** What the entry point does between creating the output root and the
    dispatch. *)
Definition entry_prelude (sm : gmap string SetupInfo) (tm : gmap string TaskInfo)
    (ids : list string) (num_processes : Z) (all_tasks : list Task)
    : list event :=
  map (fun id => EvLog (MsgSkipping id)) (sorted_str (missing_task_ids sm tm ids))
  ++ [EvInitTotalTasks (length (remaining_task_ids sm tm ids));
      EvLog (MsgTotalTasks (length (remaining_task_ids sm tm ids)));
      EvLog (MsgTotalProcesses num_processes);
      EvLog (MsgGroupCount (length (group_tasks all_tasks)))]
  ++ map (fun kv => EvLog (MsgGroupInfo (fst kv) (length (snd kv))))
         (group_tasks all_tasks).

(* ================================================================== *)
(** * Further observations *)
(* ================================================================== *)

(** The attempts to build the consolidated result. *)
Definition aggregations (n : list event) : list (outcome string) :=
  flat_map (fun e => match e with EvAggregate _ r => [r] | _ => [] end) n.

(** Everything that was logged or printed, in order. *)
Definition logged (n : list event) : list message :=
  flat_map (fun e => match e with EvLog m => [m] | _ => [] end) n.

(** The pools that were asked for, with the answer. *)
Definition pool_requests (n : list event) : list (Z * option exn) :=
  flat_map (fun e => match e with EvPool p r => [(p, r)] | _ => [] end) n.

(** The files of a task that were written, whatever they hold. *)
Definition written_files (n : list event) : list string :=
  flat_map (fun e =>
              match e with
              | EvWriteMeta f _ None => [f]
              | EvWriteText f _ None => [f]
              | EvWriteCost f _ None => [f]
              | _ => []
              end) n.

(** Globals naming a model that has no entry in the cost table. *)
Definition globals_unknown_model : Globals :=
  {| output_dir := "out"; do_install := false; only_save_sbfl_result := false;
     model := "my-model";
     MODEL_COST_PER_INPUT := {[ "gpt-4" := 3 # 100000 ]};
     MODEL_COST_PER_OUTPUT := {[ "gpt-4" := 6 # 100000 ]} |}.

(** The progress signals: one per task that returned, one per group that
    was finished. *)
Definition task_signals (n : list event) : list unit :=
  flat_map (fun e => match e with EvLog MsgTaskReturn => [tt] | _ => [] end) n.

Definition group_signals (n : list event) : list string :=
  flat_map (fun e => match e with EvLog (MsgGroupReturn gid) => [gid] | _ => [] end) n.

(** The error of [Pool] for a worker count below one. *)
Definition pool_size_error : exn :=
  ValueError "Number of processes must be at least 1".

(** [settled res]: if the computation returned, no operation outside a
    [try] block raised and every call of [run_one_task] returned. *)
Definition settled {A} (res : outcome A * list event) : Prop :=
  (exists a, fst res = Ok a) ->
  unguarded_failures (snd res) = []
  /\ map fst (returned (snd res)) = entered (snd res).


(** Events that only report: a message, or the count of the tasks. *)
Definition reporting (e : event) : Prop :=
  match e with
  | EvLog _ | EvInitTotalTasks _ => True
  | _ => False
  end.

(* ================================================================== *)
(** * Further notions *)
(* ================================================================== *)

(** The elements of a list in the order in which they first occur. *)
Fixpoint first_occurrences (l : list string) : list string :=
  match l with
  | [] => []
  | x :: r =>
      x :: List.filter (fun y => negb (Strings.String.eqb y x))
                       (first_occurrences r)
  end.

(** The values [datetime.now()] can take, with the four-digit years, for
    which [%Y] prints four digits on every platform. *)
Definition valid_datetime (t : datetime) : Prop :=
  (1000 <= year t <= 9999)%N /\ (1 <= month t <= 12)%N /\ (1 <= day t <= 31)%N
  /\ (hour t < 24)%N /\ (minute t < 60)%N /\ (second t < 60)%N.

(** The counter of the task at position [i] (from 0) among [n]. *)
Definition counter_label (n i : nat) : string :=
  pretty (i + 1)%nat +:+ "/" +:+ pretty n.

(* ================================================================== *)
(** * [parse_task_list_file] *)
(* ================================================================== *)

(** Strings are held in UTF-8.  [str.strip()] removes the white space of
    Unicode at both ends: U+0009 to U+000D, U+001C to U+0020, U+0085,
    U+00A0, U+1680, U+2000 to U+200A, U+2028, U+2029, U+202F, U+205F and
    U+3000.  These take one, two or three bytes. *)
Definition byte_in (c : ascii) (lo hi : N) : bool :=
  ((lo <=? N_of_ascii c) && (N_of_ascii c <=? hi))%N.

Definition byte_is (c : ascii) (b : N) : bool := (N_of_ascii c =? b)%N.

Definition space1 (c : ascii) : bool :=
  byte_in c 9 13 || byte_in c 28 32.

Definition space2 (c1 c2 : ascii) : bool :=
  byte_is c1 194 && (byte_is c2 133 || byte_is c2 160).

Definition space3 (c1 c2 c3 : ascii) : bool :=
  byte_is c1 225 && byte_is c2 154 && byte_is c3 128
  || byte_is c1 226 && byte_is c2 128
     && (byte_in c3 128 138 || byte_is c3 168 || byte_is c3 169
         || byte_is c3 175)
  || byte_is c1 226 && byte_is c2 129 && byte_is c3 159
  || byte_is c1 227 && byte_is c2 128 && byte_is c3 128.

Fixpoint lstrip (s : string) : string :=
  match s with
  | String c1 r1 =>
      if space1 c1 then lstrip r1
      else
        match r1 with
        | String c2 r2 =>
            if space2 c1 c2 then lstrip r2
            else
              match r2 with
              | String c3 r3 => if space3 c1 c2 c3 then lstrip r3 else s
              | EmptyString => s
              end
        | EmptyString => s
        end
  | EmptyString => s
  end.

(** What is left once the longest tail of white space is cut off: the
    string is cut at the first place from which only white space follows. *)
Fixpoint rstrip (s : string) : string :=
  match s with
  | String c r =>
      match lstrip s with
      | EmptyString => EmptyString
      | String _ _ => String c (rstrip r)
      end
  | EmptyString => EmptyString
  end.

Definition strip (s : string) : string := rstrip (lstrip s).

(** [f.readlines()] on the text of the file (decoded, the line ends
    translated to the line feed): the lines, each with its line feed; the
    last line has none when the text does not end with one. *)
Definition newline : ascii := ascii_of_N 10.

Fixpoint readlines (text : string) : list string :=
  match text with
  | String c r =>
      if Ascii.eqb c newline then String c EmptyString :: readlines r
      else
        match readlines r with
        | line :: lines => String c line :: lines
        | [] => [String c EmptyString]
        end
  | EmptyString => []
  end.

(** Lines 24-31, on the text of the file. *)
Definition parse_task_list_file (text : string) : list string :=
  map strip (readlines text).



(* ================================================================== *)
(** * [entry_fresh_issue_mode] *)
(* ================================================================== *)

Module Fresh.

(** A [FreshTask], as far as the driver reads it. *)
Record FreshTask := {
  project_dir : string;
  commit_hash : string;
  task_output_dir : string;
  problem_stmt : string
}.

Inductive message :=
| MsgRunning (id : string)              (* "============= Running fresh issue {id} =============" *)
| MsgCompleted (id : string)            (* "Fresh issue {id} completed successfully." *)
| MsgFailedNoExn (id : string)          (* "Fresh issue {id} failed without exception." *)
| MsgFailedExn (id : string) (e : exn)  (* "Fresh issue {id} failed with exception: {e}." *)
| MsgFailedInit (id : string) (e : exn) (* "... failed with exception when creating API manager: {e}." *)
| MsgPatchAt (path : string)            (* "Please find the generated patch at: {path}" *)
| MsgNoPatch.                           (* "No patch generated. You can try to run ACR again." *)

(** The operations of the fresh-issue mode, with the answers they gave. *)
Inductive event :=
| EvNow (t : datetime)
| EvCreateDir (path : string) (r : option exn)
| EvConstructOnline (id dir clone_link commit issue_link setup_dir : string)
                    (r : outcome FreshTask)
| EvConstructLocal (id dir local_repo : string) (issue_file : option string)
                   (r : outcome FreshTask)
| EvNewLogger (id dir : string) (r : option exn)
| EvLog (m : message)
| EvLogException (e : exn)
| EvApiManager (id project commit dir : string) (r : option exn)
| EvInference (dir id problem : string) (r : outcome bool)
| EvDumpSequence (id : string) (r : option exn)
| EvDumpLayers (id : string) (r : option exn)
| EvCommitHash (r : outcome string)
| EvWriteCost (path : string) (c : CostRecord) (r : option exn)
| EvRepoReset (project commit : string) (r : option exn)
| EvPatchPath (dir : string) (r : outcome (option string)).

Record Env := {
  now : list event -> datetime;
  timestamp : datetime -> Q;
  total_seconds : datetime -> datetime -> Q;
  create_dir_if_not_exists : list event -> string -> option exn;
  construct_from_online :
    list event -> string -> string -> string -> string -> string -> string
    -> outcome FreshTask;
  construct_from_local :
    list event -> string -> string -> string -> option string
    -> outcome FreshTask;
  create_new_logger : list event -> string -> string -> option exn;
  ProjectApiManager :
    list event -> string -> string -> string -> string -> option exn;
  inference_run_one_task : list event -> string -> string -> string -> outcome bool;
  dump_tool_call_sequence_to_file : list event -> string -> option exn;
  dump_tool_call_layers_to_file : list event -> string -> option exn;
  api_input_tokens : list event -> string -> Z;
  api_output_tokens : list event -> string -> Z;
  api_cost : list event -> string -> Q;
  get_current_commit_hash : list event -> outcome string;
  write_file : list event -> string -> option exn;
  repo_reset_and_clean_checkout : list event -> string -> string -> option exn;
  get_final_patch_path : list event -> string -> outcome (option string)
}.

(** The computations of this mode, over its own events. *)
Definition M (A : Type) : Type := list event -> outcome A * list event.

Definition ret {A} (a : A) : M A := fun _ => (Ok a, []).

Definition raise {A} (e : exn) : M A := fun _ => (Raise e, []).

Definition bind {A B} (m : M A) (k : A -> M B) : M B :=
  fun h =>
    match m h with
    | (Ok a, n1) => let (r, n2) := k a (h ++ n1) in (r, n1 ++ n2)
    | (Raise e, n1) => (Raise e, n1)
    end.

#[local] Set Warnings "-notation-overridden".
#[local] Notation "x <- c1 ;; c2" := (bind c1 (fun x => c2))
  (at level 100, c1 at next level, right associativity).
#[local] Notation "c1 ;; c2" := (bind c1 (fun _ => c2))
  (at level 100, right associativity).

Definition attempt {A} (m : M A) : M (outcome A) :=
  fun h => let (r, n) := m h in (Ok r, n).

Definition emit (e : event) : M unit := fun _ => (Ok tt, [e]).

Definition call_unit (answer : list event -> option exn)
    (ev : option exn -> event) : M unit :=
  fun h =>
    let r := answer h in
    (match r with None => Ok tt | Some e => Raise e end, [ev r]).

Definition call_value {A} (answer : list event -> outcome A)
    (ev : outcome A -> event) : M A :=
  fun h => let r := answer h in (r, [ev r]).

Definition read {A} (f : list event -> A) : M A := fun h => (Ok (f h), []).

Section Driver.
Variable env : Env.
Variable g : Globals.

Definition is_none {A} (x : option A) : bool :=
  match x with None => true | Some _ => false end.

(** Lines 351-362: the task from the issue on line, or from the local
    files. *)
Definition construct (task_id dir clone_link commit : string)
    (issue_link : option string) (setup_dir local_repo : string)
    (issue_file : option string) : M FreshTask :=
  match issue_link with
  | Some link =>
      call_unit (fun h => create_dir_if_not_exists env h setup_dir)
                (EvCreateDir setup_dir) ;;
      call_value
        (fun h => construct_from_online env h task_id dir clone_link commit
                                        link setup_dir)
        (EvConstructOnline task_id dir clone_link commit link setup_dir)
  | None =>
      call_value
        (fun h => construct_from_local env h task_id dir local_repo issue_file)
        (EvConstructLocal task_id dir local_repo issue_file)
  end.

(** Lines 402-418: the dictionary written to [cost.json]. *)
Definition cost_record (id acr_commit : string) (start_time end_time : datetime)
    (input_cost output_cost : Q) (h : list event) : CostRecord :=
  {| cost_model := model g;
     cost_commit := acr_commit;
     input_cost_per_token := input_cost;
     output_cost_per_token := output_cost;
     total_input_tokens := api_input_tokens env h id;
     total_output_tokens := api_output_tokens env h id;
     total_tokens := api_input_tokens env h id + api_output_tokens env h id;
     total_cost := api_cost env h id;
     start_epoch := timestamp env start_time;
     end_epoch := timestamp env end_time;
     elapsed_seconds := total_seconds env end_time start_time |}.

Definition lookup_cost (table : gmap string Q) (name : string) : M Q :=
  match table !! name with
  | Some c => ret c
  | None => raise (KeyError name)
  end.

(** Lines 383-392: the inference step inside [try ... except Exception]. *)
Definition run_inference (task_id dir : string) (fresh_task : FreshTask)
    : M (bool * message) :=
  r <- attempt
         (call_value
            (fun h => inference_run_one_task env h dir task_id
                                             (problem_stmt fresh_task))
            (EvInference dir task_id (problem_stmt fresh_task))) ;;
  match r with
  | Ok true => ret (true, MsgCompleted task_id)
  | Ok false => ret (false, MsgFailedNoExn task_id)
  | Raise e => emit (EvLogException e) ;; ret (false, MsgFailedExn task_id e)
  end.

(** Lines 393-438: the [finally] block, which ends in [return run_ok]. *)
Definition finish (task_id dir : string) (fresh_task : FreshTask)
    (start_time : datetime) (run_status_message : message) (run_ok : bool)
    : M bool :=
  end_time <- read (now env) ;;
  emit (EvNow end_time) ;;
  call_unit (fun h => dump_tool_call_sequence_to_file env h task_id)
            (EvDumpSequence task_id) ;;
  call_unit (fun h => dump_tool_call_layers_to_file env h task_id)
            (EvDumpLayers task_id) ;;
  input_cost_per_token <- lookup_cost (MODEL_COST_PER_INPUT g) (model g) ;;
  output_cost_per_token <- lookup_cost (MODEL_COST_PER_INPUT g) (model g) ;;
  acr_commit <- call_value (get_current_commit_hash env) EvCommitHash ;;
  c <- read (cost_record task_id acr_commit start_time end_time
                         input_cost_per_token output_cost_per_token) ;;
  (let f := pjoin dir "cost.json" in
   call_unit (fun h => write_file env h f) (EvWriteCost f c)) ;;
  call_unit (fun h => repo_reset_and_clean_checkout env h (project_dir fresh_task)
                                                    (commit_hash fresh_task))
            (EvRepoReset (project_dir fresh_task) (commit_hash fresh_task)) ;;
  emit (EvLog run_status_message) ;;
  final_patch_path <- call_value (fun h => get_final_patch_path env h dir)
                                 (EvPatchPath dir) ;;
  match final_patch_path with
  | Some p => emit (EvLog (MsgPatchAt p))
  | None => emit (EvLog MsgNoPatch)
  end ;;
  ret run_ok.

(** Lines 329-438. *)
Definition entry_fresh_issue_mode (task_id clone_link commit : string)
    (issue_link : option string) (setup_dir local_repo : string)
    (issue_file : option string) : M bool :=
  if negb (xorb (is_none issue_link) (is_none issue_file))
  then raise (ValueError
                "Exactly one of issue-link or issue-file should be provided.")
  else
    start_time <- read (now env) ;;
    emit (EvNow start_time) ;;
    let dir := task_output_dir_of g task_id start_time in
    call_unit (fun h => create_dir_if_not_exists env h dir) (EvCreateDir dir) ;;
    fresh_task <- construct task_id dir clone_link commit issue_link setup_dir
                            local_repo issue_file ;;
    call_unit (fun h => create_new_logger env h task_id dir)
              (EvNewLogger task_id dir) ;;
    emit (EvLog (MsgRunning task_id)) ;;
    r <- attempt
           (call_unit
              (fun h => ProjectApiManager env h task_id (project_dir fresh_task)
                                          (commit_hash fresh_task)
                                          (task_output_dir fresh_task))
              (EvApiManager task_id (project_dir fresh_task)
                            (commit_hash fresh_task)
                            (task_output_dir fresh_task))) ;;
    match r with
    | Raise e => emit (EvLogException e) ;; ret false
    | Ok _ =>
        q <- run_inference task_id dir fresh_task ;;
        let '(run_ok, run_status_message) := q in
        finish task_id dir fresh_task start_time run_status_message run_ok
    end.

End Driver.

(** ** Observations on a trace of this mode *)

Definition logged (n : list event) : list message :=
  flat_map (fun e => match e with EvLog m => [m] | _ => [] end) n.

Definition cost_writes (n : list event) : list (string * CostRecord) :=
  flat_map (fun e => match e with EvWriteCost f c None => [(f, c)] | _ => [] end) n.

Definition resets (n : list event) : list (string * string) :=
  flat_map (fun e => match e with EvRepoReset p c _ => [(p, c)] | _ => [] end) n.

Definition created_dirs (n : list event) : list string :=
  flat_map (fun e => match e with EvCreateDir p _ => [p] | _ => [] end) n.

Definition inference_runs (n : list event) : list (outcome bool) :=
  flat_map (fun e => match e with EvInference _ _ _ r => [r] | _ => [] end) n.

Definition api_manager_inits (n : list event) : list (option exn) :=
  flat_map (fun e => match e with EvApiManager _ _ _ _ r => [r] | _ => [] end) n.

Definition online_constructions (n : list event) : list string :=
  flat_map (fun e =>
              match e with EvConstructOnline _ _ _ _ link _ _ => [link] | _ => [] end) n.

Definition local_constructions (n : list event) : list (option string) :=
  flat_map (fun e =>
              match e with EvConstructLocal _ _ _ file _ => [file] | _ => [] end) n.

(** The exceptions raised by operations outside the two [try] blocks. *)
Definition unguarded_failures (n : list event) : list exn :=
  flat_map (fun e =>
              match e with
              | EvCreateDir _ (Some x) => [x]
              | EvConstructOnline _ _ _ _ _ _ (Raise x) => [x]
              | EvConstructLocal _ _ _ _ (Raise x) => [x]
              | EvNewLogger _ _ (Some x) => [x]
              | EvDumpSequence _ (Some x) => [x]
              | EvDumpLayers _ (Some x) => [x]
              | EvCommitHash (Raise x) => [x]
              | EvWriteCost _ _ (Some x) => [x]
              | EvRepoReset _ _ (Some x) => [x]
              | EvPatchPath _ (Raise x) => [x]
              | _ => []
              end) n.



(** ** Sample inputs *)

Definition sample_fresh_task (dir : string) : FreshTask :=
  {| project_dir := "/setup/proj"; commit_hash := "c0ffee";
     task_output_dir := dir; problem_stmt := "the issue" |}.

(** An environment whose clock stands still, in which constructing the API
    manager answers [init], inference answers [inf], the final patch is
    [patch_path], and everything else succeeds. *)
Definition sample_env (init : option exn) (inf : outcome bool)
    (patch_path : option string) : Env :=
  {| now := fun _ => sample_time;
     timestamp := fun _ => 0%Q;
     total_seconds := fun _ _ => 0%Q;
     create_dir_if_not_exists := fun _ _ => None;
     construct_from_online := fun _ _ dir _ _ _ _ => Ok (sample_fresh_task dir);
     construct_from_local := fun _ _ dir _ _ => Ok (sample_fresh_task dir);
     create_new_logger := fun _ _ _ => None;
     ProjectApiManager := fun _ _ _ _ _ => init;
     inference_run_one_task := fun _ _ _ _ => inf;
     dump_tool_call_sequence_to_file := fun _ _ => None;
     dump_tool_call_layers_to_file := fun _ _ => None;
     api_input_tokens := fun _ _ => 1200%Z;
     api_output_tokens := fun _ _ => 300%Z;
     api_cost := fun _ _ => (54 # 1000)%Q;
     get_current_commit_hash := fun _ => Ok "abc123";
     write_file := fun _ _ => None;
     repo_reset_and_clean_checkout := fun _ _ _ => None;
     get_final_patch_path := fun _ _ => Ok patch_path |}.

End Fresh.

(* ================================================================== *)
(** * [main] *)
(* ================================================================== *)

Module Main.

Inductive Mode := swe_bench | fresh_issue.

(** The parsed command line.  [num_processes] is what
    [int(args.num_processes)] gives: the number, or the exception. *)
Record Args := {
  mode : Mode;
  output_dir : option string;
  num_processes : outcome Z;
  no_print : bool;
  model : string;
  model_temperature : Q;
  conv_round_limit : Z;
  extract_patches : option string;
  re_extract_patches : option string;
  enable_layered : bool;
  setup_map : option string;
  tasks_map : option string;
  task_list_file : option string;
  task : option string;
  enable_sbfl : bool;
  enable_validation : bool;
  enable_angelic : bool;
  enable_perfect_angelic : bool;
  save_sbfl_result : bool;
  fresh_task_id : option string;
  commit_hash : option string;
  clone_link : option string;
  issue_link : option string;
  setup_dir : option string;
  local_repo : option string;
  issue_file : option string
}.

(** What [main] has assigned in [globals] and [log] when it makes its
    call; [do_install] is assigned only on the way to one of the two
    entry points. *)
Record Settings := {
  globals_output_dir : option string;
  print_stdout : bool;
  globals_model : string;
  globals_model_temperature : Q;
  globals_conv_round_limit : Z;
  globals_enable_layered : bool;
  globals_enable_sbfl : bool;
  globals_enable_validation : bool;
  globals_enable_angelic : bool;
  globals_enable_perfect_angelic : bool;
  globals_only_save_sbfl_result : bool;
  globals_do_install : option bool
}.

(** The call [main] ends in, with its arguments. *)
Inductive call :=
| reextract_organize_and_form_inputs (dir : string)
| extract_organize_and_form_input (dir : string)
| entry_swe_bench_mode (task_id task_list_file setup_map_file tasks_map_file
                        : option string) (num_processes : Z)
| entry_fresh_issue_mode (task_id clone_link commit_hash issue_link setup_dir
                          local_repo issue_file : option string).

Section Main.
(** [apputils.convert_dir_to_absolute]. *)
Variable convert_dir_to_absolute : string -> string.

Definition is_swe_bench (m : Mode) : bool :=
  match m with swe_bench => true | fresh_issue => false end.

Definition settings (args : Args) (do_install : option bool) : Settings :=
  {| globals_output_dir := option_map convert_dir_to_absolute (output_dir args);
     print_stdout := negb (no_print args);
     globals_model := model args;
     globals_model_temperature := model_temperature args;
     globals_conv_round_limit := conv_round_limit args;
     globals_enable_layered := enable_layered args;
     globals_enable_sbfl := enable_sbfl args;
     globals_enable_validation := enable_validation args;
     globals_enable_angelic := enable_angelic args;
     globals_enable_perfect_angelic := enable_perfect_angelic args;
     globals_only_save_sbfl_result := save_sbfl_result args;
     globals_do_install := do_install |}.

(** Lines 590-670, up to the call. *)
Definition main (args : Args) : outcome (Settings * call) :=
  match num_processes args with
  | Raise e => Raise e
  | Ok num_processes =>
      let setup_dir := option_map convert_dir_to_absolute (setup_dir args) in
      let local_repo := option_map convert_dir_to_absolute (local_repo args) in
      let issue_file := option_map convert_dir_to_absolute (issue_file args) in
      if (save_sbfl_result args
          && match extract_patches args with Some _ => true | None => false end)%bool
      then Raise (ValueError
                    "Cannot save SBFL result and extract patches at the same time.")
      else
        match re_extract_patches args with
        | Some re_extract_patches =>
            Ok (settings args None,
                reextract_organize_and_form_inputs re_extract_patches)
        | None =>
            match extract_patches args with
            | Some extract_patches =>
                Ok (settings args None,
                    extract_organize_and_form_input
                      (convert_dir_to_absolute extract_patches))
            | None =>
                let do_install :=
                  (is_swe_bench (mode args)
                   && (enable_sbfl args || enable_validation args
                       || save_sbfl_result args))%bool in
                match mode args with
                | swe_bench =>
                    Ok (settings args (Some do_install),
                        entry_swe_bench_mode (task args) (task_list_file args)
                          (setup_map args) (tasks_map args) num_processes)
                | fresh_issue =>
                    Ok (settings args (Some do_install),
                        entry_fresh_issue_mode (fresh_task_id args)
                          (clone_link args) (commit_hash args) (issue_link args)
                          setup_dir local_repo issue_file)
                end
            end
        end
  end.

End Main.

(** A command line with nothing but the defaults and the given options. *)
Definition sample_args (extract re_extract : option string) (sbfl : bool) : Args :=
  {| mode := swe_bench; output_dir := Some "out"; num_processes := Ok 1%Z;
     no_print := false; model := "gpt-3.5-turbo-0125"; model_temperature := 0;
     conv_round_limit := 15; extract_patches := extract;
     re_extract_patches := re_extract; enable_layered := true;
     setup_map := None; tasks_map := None; task_list_file := None;
     task := None; enable_sbfl := false; enable_validation := false;
     enable_angelic := false; enable_perfect_angelic := false;
     save_sbfl_result := sbfl; fresh_task_id := None; commit_hash := None;
     clone_link := None; issue_link := None; setup_dir := None;
     local_repo := None; issue_file := None |}.

(** A stand-in for [convert_dir_to_absolute], with the working directory
    [/work]. *)
Definition sample_absolute (d : string) : string := pjoin "/work" d.

End Main.

(* ================================================================== *)
(** * Proof steps *)
(* ================================================================== *)

(** Unfold [run_one_task] down to the answers of the environment. *)
Ltac unfold_run :=
  cbv [run_one_task run_one_task_body prepare_task finish_task run_inference
       sbfl_only lookup_cost bind ret raise emit call_unit call_value read
       attempt].

Ltac split_answers :=
  cbn [fst snd];
  repeat (match goal with
          | |- context [match ?x with _ => _ end] =>
              lazymatch x with
              | context [match _ with _ => _ end] => fail
              | _ => destruct x eqn:?
              end
          end; cbn [fst snd]).

(* ================================================================== *)
(** * Facts about [sorted] *)
(* ================================================================== *)

Section SortedFacts.
Context {A K : Type} (key : A -> K) (lt : K -> K -> bool) (reverse : bool).

Local Abbreviation sb := (stays_before key lt reverse).
Local Abbreviation ins := (insert_sorted key lt reverse).
Local Abbreviation srt := (sorted key lt reverse).

Lemma insert_sorted_perm (x : A) (l : list A) :
  Permutation (ins x l) (x :: l).
Proof.
  induction l as [|y r IH]; simpl.
  - apply Permutation_refl.
  - destruct (sb y x).
    + rewrite IH. apply perm_swap.
    + apply Permutation_refl.
Qed.

Lemma sorted_perm (l : list A) : Permutation (srt l) l.
Proof.
  induction l as [|x r IH]; simpl.
  - apply perm_nil.
  - rewrite insert_sorted_perm. now apply perm_skip.
Qed.

Lemma sorted_length (l : list A) : length (srt l) = length l.
Proof. apply Permutation_length, sorted_perm. Qed.

(** Stability: a class of elements that [lt] does not order among
    themselves comes out in the order it went in. *)
Section Stable.
Variable p : A -> bool.
Hypothesis unordered :
  forall x y, p x = true -> p y = true -> sb y x = false.

Lemma insert_sorted_filter (x : A) (l : list A) :
  List.filter p (ins x l)
  = if p x then x :: List.filter p l else List.filter p l.
Proof.
  induction l as [|y r IH]; simpl.
  - reflexivity.
  - destruct (sb y x) eqn:E; simpl.
    + rewrite IH. destruct (p y) eqn:Py, (p x) eqn:Px; try reflexivity.
      rewrite (unordered x y Px Py) in E. discriminate.
    + reflexivity.
Qed.

Lemma sorted_stable (l : list A) :
  List.filter p (srt l) = List.filter p l.
Proof.
  induction l as [|x r IH]; simpl.
  - reflexivity.
  - rewrite insert_sorted_filter, IH. reflexivity.
Qed.
End Stable.

Section Ordered.
Hypothesis sb_asym : forall x y, sb y x = true -> sb x y = false.
Hypothesis sb_trans :
  forall x y z, sb y x = false -> sb z y = false -> sb z x = false.

Lemma insert_sorted_ordered (x : A) (l : list A) :
  StronglySorted (fun a b => sb b a = false) l ->
  StronglySorted (fun a b => sb b a = false) (ins x l).
Proof.
  induction l as [|y r IH]; simpl; intros H.
  - repeat constructor.
  - apply StronglySorted_inv in H. destruct H as [Hr Hy].
    destruct (sb y x) eqn:E.
    + constructor.
      * now apply IH.
      * eapply Permutation_Forall.
        -- symmetry. apply insert_sorted_perm.
        -- constructor; [now apply sb_asym | exact Hy].
    + constructor.
      * constructor; assumption.
      * constructor; [exact E |].
        eapply List.Forall_impl; [| exact Hy].
        intros z Hz. now apply sb_trans with y.
Qed.

Lemma sorted_ordered (l : list A) :
  StronglySorted (fun a b => sb b a = false) (srt l).
Proof.
  induction l as [|x r IH]; simpl.
  - constructor.
  - now apply insert_sorted_ordered.
Qed.
End Ordered.
End SortedFacts.

(** The order of strings. *)
Lemma string_ltb_lt (a b : string) :
  Strings.String.ltb a b = true <-> String_as_OT.lt a b.
Proof.
  unfold Strings.String.ltb. rewrite <- String_as_OT.cmp_lt.
  unfold String_as_OT.cmp.
  destruct (Strings.String.compare a b); split; congruence.
Qed.

Lemma string_ltb_asym (a b : string) :
  Strings.String.ltb a b = true -> Strings.String.ltb b a = false.
Proof.
  unfold Strings.String.ltb. rewrite (Strings.String.compare_antisym b a).
  destruct (Strings.String.compare a b); simpl; congruence.
Qed.

Lemma string_ltb_false_leb (a b : string) :
  Strings.String.ltb b a = false <-> Strings.String.leb a b = true.
Proof.
  unfold Strings.String.ltb, Strings.String.leb.
  rewrite (Strings.String.compare_antisym a b).
  destruct (Strings.String.compare b a); simpl; split; congruence.
Qed.

Lemma string_ltb_total (a b : string) :
  Strings.String.ltb a b = false -> Strings.String.ltb b a = false -> a = b.
Proof.
  rewrite !string_ltb_false_leb. intros H1 H2.
  now apply Strings.String.leb_antisym.
Qed.

Lemma string_ltb_negtrans (x y z : string) :
  Strings.String.ltb y x = false -> Strings.String.ltb z y = false ->
  Strings.String.ltb z x = false.
Proof.
  intros Hyx Hzy.
  destruct (Strings.String.ltb z x) eqn:Hzx; [| reflexivity].
  exfalso.
  destruct (Strings.String.ltb x y) eqn:Hxy.
  - assert (Hzy' : Strings.String.ltb z y = true).
    { apply string_ltb_lt. eapply String_as_OT.lt_trans; apply string_ltb_lt; eassumption. }
    congruence.
  - assert (x = y) by now apply string_ltb_total.
    subst. congruence.
Qed.

Lemma sorted_str_perm (l : list string) : Permutation (sorted_str l) l.
Proof. apply sorted_perm. Qed.

Lemma sorted_str_ascending (l : list string) :
  StronglySorted (fun a b => Strings.String.leb a b = true) (sorted_str l).
Proof.
  eapply StronglySorted_ind with
    (R := fun a b : string => Strings.String.ltb b a = false).
  - constructor.
  - intros a r _ IH Ha. constructor; [exact IH |].
    eapply List.Forall_impl; [| exact Ha].
    intros b Hb. now apply string_ltb_false_leb.
  - apply (sorted_ordered (fun s : string => s) Strings.String.ltb false).
    + intros x y. apply string_ltb_asym.
    + intros x y z. apply string_ltb_negtrans.
Qed.

(** The order of the groups handed to the pool. *)
Lemma sort_groups_perm (gs : list (string * list Task)) :
  Permutation (sort_groups gs) gs.
Proof. apply sorted_perm. Qed.

Lemma sort_groups_descending (gs : list (string * list Task)) :
  StronglySorted (fun a b => (length (snd b) <= length (snd a))%nat)
                 (sort_groups gs).
Proof.
  eapply StronglySorted_ind with
    (R := fun a b : string * list Task =>
            (length (snd a) <? length (snd b))%nat = false).
  - constructor.
  - intros a r _ IH Ha. constructor; [exact IH |].
    eapply List.Forall_impl; [| exact Ha].
    intros b Hb. simpl in Hb. apply Nat.ltb_ge in Hb. exact Hb.
  - apply (sorted_ordered (fun x : string * list Task => length (snd x))
                          Nat.ltb true).
    + intros x y. unfold stays_before. rewrite Nat.ltb_lt, Nat.ltb_ge. lia.
    + intros x y z. unfold stays_before. rewrite !Nat.ltb_ge. lia.
Qed.

Lemma sort_groups_stable (n : nat) (gs : list (string * list Task)) :
  List.filter (fun x => (length (snd x) =? n)%nat) (sort_groups gs)
  = List.filter (fun x => (length (snd x) =? n)%nat) gs.
Proof.
  apply sorted_stable. intros x y Hx Hy. unfold stays_before.
  apply Nat.eqb_eq in Hx, Hy. apply Nat.ltb_ge. lia.
Qed.

(* ================================================================== *)
(** * Facts about the grouping *)
(* ================================================================== *)

Lemma groups_append_keys (k0 : string) (t : Task) (gs : list (string * list Task)) :
  map fst (groups_append k0 t gs)
  = if str_mem k0 (map fst gs) then map fst gs else map fst gs ++ [k0].
Proof.
  induction gs as [|[k items] rest IH]; simpl.
  - reflexivity.
  - rewrite (Strings.String.eqb_sym k0 k).
    destruct (Strings.String.eqb k k0); simpl.
    + reflexivity.
    + rewrite IH. now destruct (str_mem k0 (map fst rest)).
Qed.

Lemma filter_none {A} (p : A -> bool) (l : list A) :
  (forall x, In x l -> p x = false) -> List.filter p l = [].
Proof.
  induction l as [|x r IH]; simpl; intros H.
  - reflexivity.
  - rewrite (H x (or_introl eq_refl)). apply IH. intros y Hy. apply H. now right.
Qed.

Lemma str_mem_In (x : string) (l : list string) :
  str_mem x l = true <-> In x l.
Proof.
  unfold str_mem. rewrite existsb_exists. split.
  - intros [y [Hy E]]. apply Strings.String.eqb_eq in E. now subst.
  - intros H. exists x. split; [exact H | apply Strings.String.eqb_refl].
Qed.

Lemma groups_append_In (k0 : string) (t : Task) (gs : list (string * list Task))
    (k : string) (items : list Task) :
  List.NoDup (map fst gs) ->
  In (k, items) (groups_append k0 t gs) ->
  (k <> k0 /\ In (k, items) gs)
  \/ (k = k0 /\ exists old, In (k0, old) gs /\ items = old ++ [t])
  \/ (k = k0 /\ ~ In k0 (map fst gs) /\ items = [t]).
Proof.
  induction gs as [|[k' items'] rest IH]; simpl; intros ND H.
  - destruct H as [H | []]. inversion H; subst. right. right. tauto.
  - apply List.NoDup_cons_iff in ND. destruct ND as [Hk' ND].
    destruct (Strings.String.eqb_spec k' k0) as [E | NE].
    + subst k'. destruct H as [H | H].
      * inversion H; subst. right. left. split; [reflexivity |].
        exists items'. split; [now left | reflexivity].
      * left. split; [| now right].
        intros ->. apply Hk'. apply in_map_iff. now exists (k0, items).
    + destruct H as [H | H].
      * inversion H; subst. left. split; [exact NE | now left].
      * destruct (IH ND H) as [[A B] | [[A [old [B C]]] | [A [B C]]]].
        -- left. split; [exact A | now right].
        -- right. left. split; [exact A |]. exists old. split; [now right | exact C].
        -- right. right. split; [exact A |]. split; [| exact C].
           intros [F | F]; [now apply NE | now apply B].
Qed.

Lemma groups_append_concat (k0 : string) (t : Task) (gs : list (string * list Task)) :
  Permutation (concat (map snd (groups_append k0 t gs)))
              (concat (map snd gs) ++ [t]).
Proof.
  induction gs as [|[k items] rest IH]; simpl.
  - apply Permutation_refl.
  - destruct (Strings.String.eqb k k0); simpl.
    + rewrite <- !app_assoc. apply Permutation_app_head, Permutation_app_comm.
    + rewrite IH, app_assoc. apply Permutation_refl.
Qed.



Lemma grouped_nil : grouped [] [].
Proof.
  split; simpl.
  - constructor.
  - intros k items [].
  - intros t [].
  - apply perm_nil.
Qed.

Lemma grouped_step (tasks : list Task) (gs : list (string * list Task)) (t : Task) :
  grouped tasks gs ->
  grouped (tasks ++ [t]) (groups_append (key_of t) t gs).
Proof.
  intros [ND Hitems Hcover Hall]. split.
  - rewrite groups_append_keys.
    destruct (str_mem (key_of t) (map fst gs)) eqn:E; [exact ND |].
    apply List.NoDup_app; [exact ND | |].
    + constructor; [intros [] | constructor].
    + intros x Hx [Hx' | []]. subst x.
      apply str_mem_In in Hx. congruence.
  - intros k items H. rewrite List.filter_app. simpl.
    apply groups_append_In in H; [| exact ND].
    unfold has_key at 2.
    destruct H as [[A B] | [[A [old [B C]]] | [A [B C]]]].
    + destruct (Strings.String.eqb_spec (key_of t) k) as [E | _];
        [now subst |].
      rewrite app_nil_r. now apply Hitems.
    + subst k items. rewrite Strings.String.eqb_refl.
      f_equal. now apply Hitems.
    + subst k items. rewrite Strings.String.eqb_refl.
      replace (List.filter (has_key (key_of t)) tasks) with (@nil Task);
        [reflexivity |].
      symmetry. apply filter_none. intros x Hx. unfold has_key.
      apply Strings.String.eqb_neq. intros E. apply B. rewrite <- E.
      now apply Hcover.
  - intros x Hx. rewrite groups_append_keys.
    apply in_app_or in Hx.
    destruct (str_mem (key_of t) (map fst gs)) eqn:E.
    + destruct Hx as [Hx | [Hx | []]]; [now apply Hcover |].
      subst x. now apply str_mem_In.
    + apply in_or_app. destruct Hx as [Hx | [Hx | []]].
      * left. now apply Hcover.
      * subst x. right. now left.
  - rewrite groups_append_concat. now apply Permutation_app_tail.
Qed.

Lemma grouped_fold (l pre : list Task) (gs : list (string * list Task)) :
  grouped pre gs ->
  grouped (pre ++ l)
          (List.fold_left
             (fun task_groups task =>
                groups_append (env_name (setup_info task)) task task_groups)
             l gs).
Proof.
  revert pre gs. induction l as [|t l IH]; simpl; intros pre gs H.
  - now rewrite app_nil_r.
  - replace (pre ++ t :: l) with ((pre ++ [t]) ++ l)
      by now rewrite <- app_assoc.
    apply IH. now apply grouped_step.
Qed.

Lemma group_tasks_grouped (all_tasks : list Task) :
  grouped all_tasks (group_tasks all_tasks).
Proof. apply (grouped_fold all_tasks [] []), grouped_nil. Qed.

(* ================================================================== *)
(** * Facts about [run_one_task] *)
(* ================================================================== *)


Section RunOneTask.
Variable env : Env.
Variable g : Globals.
Variable task : Task.
Variable h : list event.

Lemma run_one_task_entered :
  entered (snd (run_one_task env g task h)) = [task].
Proof. unfold_run. split_answers; reflexivity. Qed.

Lemma run_one_task_returned :
  returned (snd (run_one_task env g task h))
  = match fst (run_one_task env g task h) with
    | Ok b => [(task, b)]
    | Raise _ => []
    end.
Proof. unfold_run. split_answers; reflexivity. Qed.

(** [run_one_task] returns unless an operation outside its [try] blocks
    raises. *)
Lemma run_one_task_returns :
  is_Some (MODEL_COST_PER_INPUT g !! model g) ->
  unguarded_failures (snd (run_one_task env g task h)) = [] ->
  exists b, fst (run_one_task env g task h) = Ok b.
Proof.
  intros [c Hc]. unfold_run. rewrite Hc.
  split_answers; simpl; intros H; try discriminate H; eauto.
Qed.

Lemma run_one_task_raises (e : exn) :
  fst (run_one_task env g task h) = Raise e ->
  MODEL_COST_PER_INPUT g !! model g = None
  \/ In e (unguarded_failures (snd (run_one_task env g task h))).
Proof.
  unfold_run.
  split_answers; simpl; intros H; try discriminate H;
    inversion H; subst; auto.
Qed.

(** What [cost.json] holds whenever it is written. *)
Lemma run_one_task_cost_record (f : string) (c : CostRecord) :
  In (f, c) (cost_writes (snd (run_one_task env g task h))) ->
  MODEL_COST_PER_INPUT g !! model g = Some (input_cost_per_token c)
  /\ output_cost_per_token c = input_cost_per_token c
  /\ total_tokens c = (total_input_tokens c + total_output_tokens c)%Z.
Proof.
  unfold_run.
  split_answers; simpl; intros H; try contradiction;
    destruct H as [H | []]; inversion H; subst; simpl; auto.
Qed.
End RunOneTask.

(* ================================================================== *)
(** * Facts about the monad and the loops *)
(* ================================================================== *)

Lemma ends_with_refl (s : list event) : ends_with s s.
Proof. now exists []. Qed.

Lemma ends_with_cons (e : event) (n s : list event) :
  ends_with n s -> ends_with (e :: n) s.
Proof. intros [pre ->]. now exists (e :: pre). Qed.


Lemma entered_app (n1 n2 : list event) :
  entered (n1 ++ n2) = entered n1 ++ entered n2.
Proof. apply flat_map_app. Qed.

Lemma returned_app (n1 n2 : list event) :
  returned (n1 ++ n2) = returned n1 ++ returned n2.
Proof. apply flat_map_app. Qed.

Lemma unguarded_failures_app (n1 n2 : list event) :
  unguarded_failures (n1 ++ n2) = unguarded_failures n1 ++ unguarded_failures n2.
Proof. apply flat_map_app. Qed.

Lemma pool_failures_app (n1 n2 : list event) :
  pool_failures (n1 ++ n2) = pool_failures n1 ++ pool_failures n2.
Proof. apply flat_map_app. Qed.

Lemma flat_map_singleton {A} (l : list A) : flat_map (fun x => [x]) l = l.
Proof. induction l; simpl; congruence. Qed.

Lemma for_each_emit {A} (f : A -> event) (l : list A) (h : list event) :
  for_each l (fun x => emit (f x)) h = (Ok tt, map f l).
Proof.
  revert h. induction l as [|x r IH]; intros h; simpl.
  - reflexivity.
  - unfold bind, emit at 1. now rewrite IH.
Qed.


(** A loop whose bodies run their tasks runs the tasks of all of them, as
    long as no operation outside a [try] block raises. *)
Lemma for_each_runs_all {A} (proj : A -> list Task) (body : A -> M unit) :
  (forall x h, unguarded_failures (snd (body x h)) = [] ->
               runs_all (proj x) (body x h)) ->
  forall items h,
    unguarded_failures (snd (for_each items body h)) = [] ->
    runs_all (flat_map proj items) (for_each items body h).
Proof.
  intros Hbody. unfold runs_all in *.
  induction items as [|x r IH]; intros h; cbn [for_each flat_map].
  - intros _. now repeat split.
  - unfold bind. specialize (Hbody x h). specialize (IH (h ++ snd (body x h))).
    destruct (body x h) as [[[]|e] n1]; cbn [fst snd] in *.
    + destruct (for_each r body (h ++ n1)) as [r2 n2]; cbn [fst snd] in *.
      rewrite unguarded_failures_app. intros H.
      apply app_eq_nil in H. destruct H as [H1 H2].
      destruct (Hbody H1) as (_ & E1 & R1).
      destruct (IH H2) as (O2 & E2 & R2).
      repeat split.
      * exact O2.
      * rewrite entered_app. congruence.
      * rewrite returned_app, map_app. congruence.
    + intros H. destruct (Hbody H) as (F & _). discriminate F.
Qed.

(** Whatever happens, a loop calls [run_one_task] only for tasks of its
    items, and for a prefix of them in order. *)
Lemma for_each_entered_prefix {A} (proj : A -> list Task) (body : A -> M unit) :
  (forall x h, exists rest, proj x = entered (snd (body x h)) ++ rest
               /\ (fst (body x h) = Ok tt -> rest = [])) ->
  forall items h,
    exists rest, flat_map proj items = entered (snd (for_each items body h)) ++ rest
                 /\ (fst (for_each items body h) = Ok tt -> rest = []).
Proof.
  intros Hbody. induction items as [|x r IH]; intros h; cbn [for_each flat_map].
  - exists []. now split.
  - unfold bind. destruct (Hbody x h) as (rest1 & E1 & O1).
    specialize (IH (h ++ snd (body x h))).
    destruct (body x h) as [[[]|e] n1]; cbn [fst snd] in *.
    + destruct IH as (rest2 & E2 & O2).
      destruct (for_each r body (h ++ n1)) as [r2 n2]; cbn [fst snd] in *.
      rewrite (O1 eq_refl), app_nil_r in E1.
      exists rest2. split; [| exact O2].
      rewrite entered_app, E1, E2. now rewrite app_assoc.
    + exists (rest1 ++ flat_map proj r). split; [| discriminate].
      rewrite E1. now rewrite app_assoc.
Qed.

(* ================================================================== *)
(** * Facts about [run_task_group] and the dispatch *)
(* ================================================================== *)

Lemma run_task_group_run (env : Env) (g : Globals) (gid : string)
    (items : list Task) (h : list event) :
  run_task_group env g gid items h
  = let start := EvLog (MsgStartGroup gid (length items)) in
    let res := for_each items
                 (fun task => run_one_task env g task ;; emit (EvLog MsgTaskReturn))
                 (h ++ [start]) in
    match fst res with
    | Ok _ => (Ok tt, start :: snd res ++ [EvLog (MsgGroupReturn gid)])
    | Raise e => (Raise e, start :: snd res)
    end.
Proof.
  unfold run_task_group. unfold bind at 1. unfold emit at 1.
  unfold bind at 1. cbn zeta.
  destruct (for_each items _ _) as [[[]|e] n1]; reflexivity.
Qed.

Section Dispatch.
Variable env : Env.
Variable g : Globals.
Hypothesis model_known : is_Some (MODEL_COST_PER_INPUT g !! model g).

Lemma run_one_task_runs (task : Task) (h : list event) :
  unguarded_failures (snd (run_one_task env g task h)) = [] ->
  exists b, fst (run_one_task env g task h) = Ok b
            /\ entered (snd (run_one_task env g task h)) = [task]
            /\ returned (snd (run_one_task env g task h)) = [(task, b)].
Proof.
  intros H. destruct (run_one_task_returns env g task h model_known H) as [b Hb].
  exists b. split; [exact Hb |]. split.
  - apply run_one_task_entered.
  - rewrite run_one_task_returned, Hb. reflexivity.
Qed.

(** One round of a loop over tasks: [run_one_task], then an operation
    that only logs. *)
Lemma task_step_runs (e : list event) (task : Task) (h : list event) :
  entered e = [] -> returned e = [] -> unguarded_failures e = [] ->
  unguarded_failures
    (snd ((run_one_task env g task ;; (fun _ => (Ok tt, e))) h)) = [] ->
  runs_all [task] ((run_one_task env g task ;; (fun _ => (Ok tt, e))) h).
Proof.
  intros K2 K3 K4. unfold bind, runs_all.
  pose proof (run_one_task_runs task h) as R.
  destruct (run_one_task env g task h) as [[b|x] n1]; cbn [fst snd] in *.
  - rewrite unguarded_failures_app, K4, app_nil_r.
    intros H. destruct (R H) as (b' & _ & E & Rt).
    repeat split.
    + rewrite entered_app, E, K2. reflexivity.
    + rewrite returned_app, Rt, K3. reflexivity.
  - intros H. destruct (R H) as (b' & F & _). discriminate F.
Qed.

Lemma run_task_group_runs (gid : string) (items : list Task) (h : list event) :
  unguarded_failures (snd (run_task_group env g gid items h)) = [] ->
  runs_all items (run_task_group env g gid items h).
Proof.
  rewrite run_task_group_run. cbn zeta.
  pose proof (for_each_runs_all (fun t => [t])
                (fun task => run_one_task env g task ;; emit (EvLog MsgTaskReturn))) as L.
  specialize (L (fun x h' => task_step_runs [EvLog MsgTaskReturn] x h'
                               eq_refl eq_refl eq_refl)).
  specialize (L items (h ++ [EvLog (MsgStartGroup gid (length items))])).
  rewrite flat_map_singleton in L. unfold runs_all in *.
  destruct (for_each items _ _) as [[[]|e] n1]; cbn [fst snd] in *.
  - intros H.
    change (unguarded_failures (n1 ++ [EvLog (MsgGroupReturn gid)]) = []) in H.
    rewrite unguarded_failures_app in H. apply app_eq_nil in H.
    destruct (L (proj1 H)) as (_ & E & R). repeat split.
    + change (entered (n1 ++ [EvLog (MsgGroupReturn gid)]) = items).
      rewrite entered_app, E. apply app_nil_r.
    + change (map fst (returned (n1 ++ [EvLog (MsgGroupReturn gid)])) = items).
      rewrite returned_app, map_app, R. apply app_nil_r.
  - intros H. destruct (L H) as (F & _). discriminate F.
Qed.
End Dispatch.

(* ================================================================== *)
(** * Facts about the pool *)
(* ================================================================== *)

Lemma chunks_fuel_concat {A} (size : nat) (fuel : nat) (l : list A) :
  (1 <= size)%nat -> (length l <= fuel)%nat ->
  concat (chunks_fuel fuel size l) = l.
Proof.
  intros Hs. revert l. induction fuel as [|fuel IH]; intros l Hl.
  - destruct l; [reflexivity | simpl in Hl; lia].
  - destruct l as [|a l']; [reflexivity |].
    cbn [chunks_fuel concat]. rewrite IH.
    + apply firstn_skipn.
    + rewrite length_skipn. simpl in *. lia.
Qed.

Lemma chunksize_pos (len processes : nat) :
  (1 <= len)%nat -> (1 <= chunksize len processes)%nat.
Proof.
  intros H. unfold chunksize.
  destruct (len =? 0)%nat eqn:E; [apply Nat.eqb_eq in E; lia |].
  destruct (len mod (4 * processes) =? 0)%nat eqn:M; [| lia].
  apply Nat.eqb_eq in M.
  destruct (4 * processes)%nat as [|d] eqn:D.
  - simpl in M. lia.
  - apply Nat.Div0.div_exact in M.
    destruct (len / S d)%nat; lia.
Qed.

Lemma chunks_concat {A} (processes : nat) (l : list A) :
  concat (chunks (chunksize (length l) processes) l) = l.
Proof.
  destruct l as [|a l'].
  - reflexivity.
  - apply chunks_fuel_concat; [| lia].
    apply chunksize_pos. simpl. lia.
Qed.

Lemma flat_map_concat {A B} (f : A -> list B) (ls : list (list A)) :
  flat_map f (concat ls) = flat_map (flat_map f) ls.
Proof.
  induction ls as [|l r IH]; simpl.
  - reflexivity.
  - now rewrite flat_map_app, IH.
Qed.

Lemma run_chunks_run (env : Env) (g : Globals)
    (c : list (string * list Task)) (rest : list (list (string * list Task)))
    (first_exn : option exn) (h : list event) :
  run_chunks env g (c :: rest) first_exn h
  = let res := run_chunk env g c h in
    let first_exn' :=
      match fst res, first_exn with
      | Raise e, None => Some e
      | _, _ => first_exn
      end in
    let res' := run_chunks env g rest first_exn' (h ++ snd res) in
    (fst res', snd res ++ snd res').
Proof.
  cbn [run_chunks]. unfold bind, attempt. cbn zeta.
  destruct (run_chunk env g c h) as [[[]|e] n1]; cbn [fst snd].
  - destruct (run_chunks env g rest first_exn (h ++ n1)); reflexivity.
  - destruct first_exn.
    + destruct (run_chunks env g rest (Some e0) (h ++ n1)); reflexivity.
    + destruct (run_chunks env g rest (Some e) (h ++ n1)); reflexivity.
Qed.

Lemma starmap_run (env : Env) (g : Globals) (processes : Z)
    (jobs : list (string * list Task)) (h : list event) :
  starmap env g processes jobs h
  = let res := run_chunks env g
                 (chunks (chunksize (length jobs) (Z.to_nat processes)) jobs)
                 None (h ++ [EvStarmap jobs]) in
    (match fst res with
     | Ok (Some e) => Raise e
     | Ok None => Ok tt
     | Raise e => Raise e
     end, EvStarmap jobs :: snd res).
Proof.
  unfold starmap. unfold bind at 1. unfold emit at 1. unfold bind.
  destruct (run_chunks _ _ _ _ _) as [[[e|]|e] n1]; cbn; rewrite ?app_nil_r;
    reflexivity.
Qed.

Section Pool.
Variable env : Env.
Variable g : Globals.
Hypothesis model_known : is_Some (MODEL_COST_PER_INPUT g !! model g).

Lemma run_chunk_runs (c : list (string * list Task)) (h : list event) :
  unguarded_failures (snd (run_chunk env g c h)) = [] ->
  runs_all (flat_map snd c) (run_chunk env g c h).
Proof.
  unfold run_chunk.
  apply (for_each_runs_all snd (fun job => run_task_group env g (fst job) (snd job))).
  intros job h'. now apply run_task_group_runs.
Qed.

Lemma run_chunks_runs (cs : list (list (string * list Task))) (h : list event) :
  unguarded_failures (snd (run_chunks env g cs None h)) = [] ->
  fst (run_chunks env g cs None h) = Ok None
  /\ entered (snd (run_chunks env g cs None h)) = flat_map snd (concat cs)
  /\ map fst (returned (snd (run_chunks env g cs None h)))
     = flat_map snd (concat cs).
Proof.
  revert h. induction cs as [|c rest IH]; intros h.
  - intros _. now repeat split.
  - rewrite run_chunks_run. cbn zeta. cbn [fst snd].
    rewrite unguarded_failures_app. intros H. apply app_eq_nil in H.
    destruct H as [H1 H2].
    destruct (run_chunk_runs c h H1) as (O1 & E1 & R1).
    rewrite O1 in *.
    destruct (IH _ H2) as (O2 & E2 & R2).
    cbn [concat]. rewrite flat_map_app. repeat split.
    + exact O2.
    + rewrite entered_app. congruence.
    + rewrite returned_app, map_app. congruence.
Qed.

Lemma starmap_runs (processes : Z) (jobs : list (string * list Task))
    (h : list event) :
  unguarded_failures (snd (starmap env g processes jobs h)) = [] ->
  runs_all (flat_map snd jobs) (starmap env g processes jobs h).
Proof.
  rewrite starmap_run. cbn zeta. cbn [fst snd]. intros H.
  change (unguarded_failures
            (snd (run_chunks env g
                    (chunks (chunksize (length jobs) (Z.to_nat processes)) jobs)
                    None (h ++ [EvStarmap jobs]))) = []) in H.
  destruct (run_chunks_runs _ _ H) as (O & E & R).
  rewrite chunks_concat in E, R. unfold runs_all. cbn [fst snd].
  rewrite O. repeat split.
  - exact E.
  - exact R.
Qed.
End Pool.

(* ================================================================== *)
(** * Facts about [dispatch] *)
(* ================================================================== *)

Lemma dispatch_single_run (env : Env) (g : Globals) (all_tasks : list Task)
    (task_groups : list (string * list Task)) (h : list event) :
  dispatch env g 1 all_tasks task_groups h
  = let res := for_each all_tasks (fun task => run_one_task env g task ;; ret tt)
                        (h ++ [EvLog MsgSingleProcess]) in
    match fst res with
    | Ok _ => (Ok tt, EvLog MsgSingleProcess :: snd res ++ [EvLog MsgFinishedSequentially])
    | Raise e => (Raise e, EvLog MsgSingleProcess :: snd res)
    end.
Proof.
  unfold dispatch. cbn [Z.eqb Pos.eqb].
  unfold bind at 1. unfold emit at 1. unfold bind at 1. cbn zeta.
  destruct (for_each all_tasks _ _) as [[[]|e] n1]; reflexivity.
Qed.

Lemma dispatch_pool_run (env : Env) (g : Globals) (num_processes : Z)
    (all_tasks : list Task) (task_groups : list (string * list Task))
    (h : list event) :
  (num_processes =? 1)%Z = false ->
  dispatch env g num_processes all_tasks task_groups h
  = let p := clamp_processes num_processes task_groups in
    let jobs := sort_groups task_groups in
    let e1 := EvInitTotalGroups (length task_groups) in
    let e2 := EvLog (MsgSortedGroups (map fst jobs)) in
    let h' := (h ++ [e1]) ++ [e2] in
    match new_pool_answer env p h' with
    | Some e => (Raise e, [e1; e2; EvPool p (Some e); EvLog MsgFinishingPool])
    | None =>
        let res := starmap env g p jobs (h' ++ [EvPool p None]) in
        match fst res with
        | Ok _ => (Ok tt, e1 :: e2 :: EvPool p None
                          :: snd res ++ [EvPoolClose; EvPoolJoin; EvLog MsgFinishingPool])
        | Raise e => (Raise e, e1 :: e2 :: EvPool p None
                               :: snd res ++ [EvLog MsgFinishingPool])
        end
    end.
Proof.
  intros HW. unfold dispatch. rewrite HW.
  unfold bind at 1. unfold emit at 1. unfold bind at 1. unfold emit at 1.
  unfold finally. unfold bind at 1. unfold call_unit. cbn zeta.
  destruct (new_pool_answer env _ _) as [e|]; [reflexivity |].
  unfold bind at 1.
  destruct (starmap env g _ _ _) as [[[]|e] n1]; cbn;
    rewrite ?app_nil_r, <- ?app_assoc; reflexivity.
Qed.

Section DispatchAll.
Variable env : Env.
Variable g : Globals.
Hypothesis model_known : is_Some (MODEL_COST_PER_INPUT g !! model g).

Lemma single_loop_runs (all_tasks : list Task) (h : list event) :
  unguarded_failures
    (snd (for_each all_tasks (fun task => run_one_task env g task ;; ret tt) h)) = [] ->
  runs_all all_tasks
    (for_each all_tasks (fun task => run_one_task env g task ;; ret tt) h).
Proof.
  pose proof (for_each_runs_all (fun t => [t])
                (fun task => run_one_task env g task ;; ret tt)) as L.
  specialize (L (fun x h' => task_step_runs env g model_known [] x h'
                               eq_refl eq_refl eq_refl)).
  specialize (L all_tasks h). now rewrite flat_map_singleton in L.
Qed.

Lemma dispatch_single_runs (all_tasks : list Task)
    (task_groups : list (string * list Task)) (h : list event) :
  unguarded_failures (snd (dispatch env g 1 all_tasks task_groups h)) = [] ->
  runs_all all_tasks (dispatch env g 1 all_tasks task_groups h).
Proof.
  rewrite dispatch_single_run. cbn zeta.
  pose proof (single_loop_runs all_tasks (h ++ [EvLog MsgSingleProcess])) as L.
  unfold runs_all in *.
  destruct (for_each all_tasks _ _) as [[[]|e] n1]; cbn [fst snd] in *.
  - intros H.
    change (unguarded_failures (n1 ++ [EvLog MsgFinishedSequentially]) = []) in H.
    rewrite unguarded_failures_app in H. apply app_eq_nil in H.
    destruct (L (proj1 H)) as (_ & E & R). repeat split.
    + change (entered (n1 ++ [EvLog MsgFinishedSequentially]) = all_tasks).
      rewrite entered_app, E. apply app_nil_r.
    + change (map fst (returned (n1 ++ [EvLog MsgFinishedSequentially])) = all_tasks).
      rewrite returned_app, map_app, R. apply app_nil_r.
  - intros H. destruct (L H) as (F & _). discriminate F.
Qed.

Lemma dispatch_pool_runs (num_processes : Z) (all_tasks : list Task)
    (task_groups : list (string * list Task)) (h : list event) :
  (num_processes =? 1)%Z = false ->
  unguarded_failures (snd (dispatch env g num_processes all_tasks task_groups h)) = [] ->
  pool_failures (snd (dispatch env g num_processes all_tasks task_groups h)) = [] ->
  runs_all (flat_map snd (sort_groups task_groups))
           (dispatch env g num_processes all_tasks task_groups h).
Proof.
  intros HW. rewrite (dispatch_pool_run env g num_processes all_tasks task_groups h HW).
  cbn zeta.
  destruct (new_pool_answer env _ _) as [e|]; [intros _ F; discriminate F |].
  match goal with |- context [starmap env g ?p ?j ?hh] =>
    pose proof (starmap_runs env g model_known p j hh) as L end.
  unfold runs_all in *.
  destruct (starmap env g _ _ _) as [[[]|e] n1]; cbn [fst snd] in *.
  - intros H _.
    change (unguarded_failures
              (n1 ++ [EvPoolClose; EvPoolJoin; EvLog MsgFinishingPool]) = []) in H.
    rewrite unguarded_failures_app in H. apply app_eq_nil in H.
    destruct (L (proj1 H)) as (_ & E & R). repeat split.
    + change (entered (n1 ++ [EvPoolClose; EvPoolJoin; EvLog MsgFinishingPool])
              = flat_map snd (sort_groups task_groups)).
      rewrite entered_app, E. apply app_nil_r.
    + change (map fst (returned (n1 ++ [EvPoolClose; EvPoolJoin; EvLog MsgFinishingPool]))
              = flat_map snd (sort_groups task_groups)).
      rewrite returned_app, map_app, R. apply app_nil_r.
  - intros H _.
    change (unguarded_failures (n1 ++ [EvLog MsgFinishingPool]) = []) in H.
    rewrite unguarded_failures_app in H. apply app_eq_nil in H.
    destruct (L (proj1 H)) as (F & _). discriminate F.
Qed.
End DispatchAll.

(* ================================================================== *)
(** * Facts about the selection of the task ids *)
(* ================================================================== *)

Lemma filter_all {A} (p : A -> bool) (l : list A) :
  (forall x, In x l -> p x = true) -> List.filter p l = l.
Proof.
  induction l as [|x r IH]; simpl; intros H.
  - reflexivity.
  - rewrite (H x (or_introl eq_refl)). f_equal. apply IH.
    intros y Hy. apply H. now right.
Qed.

Lemma missing_task_ids_In (sm : gmap string SetupInfo) (tm : gmap string TaskInfo)
    (ids : list string) (x : string) :
  In x (missing_task_ids sm tm ids) <-> In x ids /\ in_both_maps sm tm x = false.
Proof.
  unfold missing_task_ids. rewrite filter_In, negb_true_iff. reflexivity.
Qed.

Lemma remaining_task_ids_eq (sm : gmap string SetupInfo) (tm : gmap string TaskInfo)
    (ids : list string) :
  remaining_task_ids sm tm ids = sorted_str (List.filter (in_both_maps sm tm) ids).
Proof.
  unfold remaining_task_ids. cbn zeta. f_equal.
  destruct (missing_task_ids sm tm ids) as [|m ms] eqn:E.
  - symmetry. apply filter_all. intros x Hx.
    destruct (in_both_maps sm tm x) eqn:B; [reflexivity |].
    assert (In x (missing_task_ids sm tm ids)) as F
        by now apply missing_task_ids_In.
    rewrite E in F. contradiction.
  - rewrite <- E. apply filter_ext_in. intros x Hx.
    destruct (in_both_maps sm tm x) eqn:B.
    + apply negb_true_iff.
      destruct (str_mem x (missing_task_ids sm tm ids)) eqn:S; [| reflexivity].
      apply str_mem_In, missing_task_ids_In in S. destruct S. congruence.
    + apply negb_false_iff. apply str_mem_In, missing_task_ids_In. now split.
Qed.

Lemma remaining_task_ids_In (sm : gmap string SetupInfo) (tm : gmap string TaskInfo)
    (ids : list string) (x : string) :
  In x (remaining_task_ids sm tm ids) <-> In x ids /\ in_both_maps sm tm x = true.
Proof.
  rewrite remaining_task_ids_eq, <- filter_In.
  split; apply Permutation_in;
    [apply sorted_str_perm | symmetry; apply sorted_str_perm].
Qed.

Lemma in_both_maps_lookup (sm : gmap string SetupInfo) (tm : gmap string TaskInfo)
    (x : string) :
  in_both_maps sm tm x = true <-> is_Some (sm !! x) /\ is_Some (tm !! x).
Proof.
  unfold in_both_maps. rewrite andb_true_iff, !bool_decide_eq_true. reflexivity.
Qed.

Lemma make_tasks_from_ok (sm : gmap string SetupInfo) (tm : gmap string TaskInfo)
    (num_tasks : nat) (ids : list string) (idx : nat) :
  (forall x, In x ids -> in_both_maps sm tm x = true) ->
  exists tasks,
    make_tasks_from sm tm num_tasks idx ids = Ok tasks
    /\ map task_id tasks = ids
    /\ (forall t, In t tasks ->
          sm !! task_id t = Some (setup_info t)
          /\ tm !! task_id t = Some (task_info t)).
Proof.
  revert idx. induction ids as [|id rest IH]; intros idx H; cbn [make_tasks_from].
  - exists []. split; [reflexivity |]. split; [reflexivity |]. intros t [].
  - assert (in_both_maps sm tm id = true) as B by (apply H; now left).
    apply in_both_maps_lookup in B. destruct B as [[si Hs] [ti Ht]].
    unfold make_task. rewrite Hs, Ht.
    destruct (IH (S idx)) as (tasks & E & Hid & Hl).
    { intros x Hx. apply H. now right. }
    rewrite E. eexists. split; [reflexivity |]. split.
    + cbn. now rewrite Hid.
    + intros t' [<- | Ht']; [cbn; now split | now apply Hl].
Qed.

Lemma make_tasks_remaining (sm : gmap string SetupInfo) (tm : gmap string TaskInfo)
    (ids : list string) :
  exists tasks,
    make_tasks sm tm (remaining_task_ids sm tm ids) = Ok tasks
    /\ map task_id tasks = remaining_task_ids sm tm ids
    /\ (forall t, In t tasks ->
          sm !! task_id t = Some (setup_info t)
          /\ tm !! task_id t = Some (task_info t)).
Proof.
  apply make_tasks_from_ok. intros x Hx.
  now apply remaining_task_ids_In in Hx.
Qed.

(* ================================================================== *)
(** * Facts about [entry_swe_bench_mode] *)
(* ================================================================== *)


Lemma bind_fst {A B} (m : M A) (k : A -> M B) (h : list event) :
  fst (bind m k h)
  = match fst (m h) with
    | Ok a => fst (k a (h ++ snd (m h)))
    | Raise e => Raise e
    end.
Proof.
  unfold bind. destruct (m h) as [[a|e] n1]; cbn [fst snd]; [| reflexivity].
  now destruct (k a (h ++ n1)).
Qed.

Lemma bind_snd {A B} (m : M A) (k : A -> M B) (h : list event) :
  snd (bind m k h)
  = snd (m h) ++ match fst (m h) with
                 | Ok a => snd (k a (h ++ snd (m h)))
                 | Raise e => []
                 end.
Proof.
  unfold bind. destruct (m h) as [[a|e] n1]; cbn [fst snd].
  - now destruct (k a (h ++ n1)).
  - now rewrite app_nil_r.
Qed.


(** Push [fst] and [snd] through one [bind]. *)
Ltac mstep :=
  rewrite ?bind_snd, ?bind_fst;
  cbn [lift ret raise emit call_unit call_value fst snd app].

Lemma entry_run (env : Env) (g : Globals) (task_id : option string)
    (task_list : option (list string)) (sm : gmap string SetupInfo)
    (tm : gmap string TaskInfo) (num_processes : Z) (h : list event)
    (ids : list string) (all_tasks : list Task) :
  select_task_ids task_id task_list = Ok ids ->
  make_tasks sm tm (remaining_task_ids sm tm ids) = Ok all_tasks ->
  (exists e, snd (entry_swe_bench_mode env g task_id task_list sm tm num_processes h)
             = [EvCreateDir (output_dir g) (Some e)])
  \/ (exists h' post,
        snd (entry_swe_bench_mode env g task_id task_list sm tm num_processes h)
        = EvCreateDir (output_dir g) None
          :: entry_prelude sm tm ids num_processes all_tasks
          ++ snd (dispatch env g num_processes all_tasks (group_tasks all_tasks) h')
          ++ post
        /\ entered post = [] /\ returned post = []).
Proof.
  intros Hsel Hmk. unfold entry_swe_bench_mode. rewrite Hsel.
  mstep. mstep.
  destruct (create_dir_if_not_exists env _ (output_dir g)) as [e|].
  { left. exists e. reflexivity. }
  right. cbn [app]. mstep.
  rewrite (for_each_emit (fun id => EvLog (MsgSkipping id))). mstep.
  rewrite Hmk. mstep. mstep. mstep. mstep. mstep.
  rewrite (for_each_emit (fun kv : string * list Task =>
                            EvLog (MsgGroupInfo (fst kv) (length (snd kv))))).
  mstep.
  match goal with |- context [dispatch env g num_processes all_tasks _ ?hh] =>
    exists hh end.
  unfold entry_prelude.
  destruct (dispatch env g num_processes all_tasks _ _) as [[[]|e] dn];
    cbn [fst snd].
  - destruct (only_save_sbfl_result g).
    + exists [EvLog MsgOnlySbfl]. cbn [emit fst snd]. split.
      * rewrite <- ?app_assoc. reflexivity.
      * split; reflexivity.
    + mstep. mstep.
      destruct (organize_and_form_input env _ (output_dir g)) as [f|e] eqn:A.
      * eexists. split.
        -- rewrite <- ?app_assoc. cbn [app]. reflexivity.
        -- split; reflexivity.
      * eexists. split.
        -- rewrite <- ?app_assoc. cbn [app]. reflexivity.
        -- split; reflexivity.
  - exists []. split.
    + rewrite <- ?app_assoc. cbn [app]. reflexivity.
    + split; reflexivity.
Qed.
(* ================================================================== *)
(** * Facts about the output directory *)
(* ================================================================== *)

Lemma append_cancel_l (a s1 s2 : string) : a +:+ s1 = a +:+ s2 -> s1 = s2.
Proof.
  induction a as [|c a IH]; cbn; intros H.
  - exact H.
  - injection H as H. now apply IH.
Qed.

Lemma starts_with_sep_dir_name (id ts : string) :
  starts_with_sep (id +:+ "_" +:+ ts) = starts_with_sep id.
Proof. destruct id; reflexivity. Qed.

Lemma pjoin_cancel (a b1 b2 : string) :
  starts_with_sep b1 = starts_with_sep b2 ->
  pjoin a b1 = pjoin a b2 -> b1 = b2.
Proof.
  unfold pjoin. intros E. rewrite E.
  destruct (starts_with_sep b2); [trivial |].
  destruct (Strings.String.eqb a "" || ends_with_sep a)%bool; intros H.
  - now apply append_cancel_l in H.
  - apply append_cancel_l in H. now apply (append_cancel_l "/") in H.
Qed.

(** The directory of a task depends on the start time only through the
    time stamp, which stops at the second. *)
Lemma task_output_dir_same_id (g : Globals) (id : string) (s1 s2 : datetime) :
  task_output_dir_of g id s1 = task_output_dir_of g id s2
  <-> strftime s1 = strftime s2.
Proof.
  unfold task_output_dir_of. split.
  - intros H. apply pjoin_cancel in H.
    + apply append_cancel_l in H. now apply (append_cancel_l "_") in H.
    + now rewrite !starts_with_sep_dir_name.
  - now intros ->.
Qed.

Lemma strftime_ignores_microsecond (s1 s2 : datetime) :
  year s1 = year s2 -> month s1 = month s2 -> day s1 = day s2 ->
  hour s1 = hour s2 -> minute s1 = minute s2 -> second s1 = second s2 ->
  strftime s1 = strftime s2.
Proof. unfold strftime. now intros -> -> -> -> -> ->. Qed.

Lemma string_length_append (a b : string) :
  Strings.String.length (a +:+ b)
  = (Strings.String.length a + Strings.String.length b)%nat.
Proof. induction a as [|c a IH]; simpl; [reflexivity | now rewrite IH]. Qed.

Lemma append_cancel_r (s a b : string) : a +:+ s = b +:+ s -> a = b.
Proof.
  revert b. induction a as [|c a IH]; intros [|d b] H.
  - reflexivity.
  - apply (f_equal Strings.String.length) in H.
    rewrite !string_length_append in H. simpl in H. lia.
  - apply (f_equal Strings.String.length) in H.
    rewrite !string_length_append in H. simpl in H. lia.
  - cbn in H. injection H as -> H. f_equal. now apply IH.
Qed.

(** Two tasks started in the same second get different directories when
    their ids differ, as long as no id starts with the path separator. *)
Lemma task_output_dir_same_second (g : Globals) (id1 id2 : string)
    (s1 s2 : datetime) :
  starts_with_sep id1 = false -> starts_with_sep id2 = false ->
  strftime s1 = strftime s2 ->
  task_output_dir_of g id1 s1 = task_output_dir_of g id2 s2 -> id1 = id2.
Proof.
  unfold task_output_dir_of. intros S1 S2 E H. rewrite E in H.
  apply pjoin_cancel in H.
  - now apply (append_cancel_r ("_" +:+ strftime s2)) in H.
  - now rewrite !starts_with_sep_dir_name, S1, S2.
Qed.

Example sort_groups_sizes :
  map (fun x => length (snd x))
      (sort_groups [("A", [t1; t2; t3; t1; t2]); ("B", [t3]); ("C", [t1; t2; t3])])
  = [5; 3; 1]%nat
  /\ map fst (sort_groups [("A", [t1; t2; t3; t1; t2]); ("B", [t3]);
                           ("C", [t1; t2; t3])])
     = ["A"; "C"; "B"].
Proof. split; reflexivity. Qed.
(* ================================================================== *)
(** * The claims *)
(* ================================================================== *)

(** C1, at a failing input.  In the mode that only saves the fault
    localization, [run_one_task] is called for a task whose API manager
    is constructed and whose [fault_localization()] answers [False]: the
    call returns [True], not the answer of the fault localization. *)
Theorem sbfl_only_returns_true_on_failure :
  let res := run_one_task env_no_localization (sample_globals true) t1 [] in
  fault_localizations (snd res) = [Ok false]
  /\ fst res = Ok true
  /\ returned (snd res) = [(t1, true)].
Proof. vm_compute. repeat split; reflexivity. Qed.

(** In that mode [run_one_task] returns [True] whenever the API manager
    was constructed and the call returns at all. *)
Lemma sbfl_only_always_true (env : Env) (g : Globals) (task : Task)
    (h : list event) (b : bool) :
  only_save_sbfl_result g = true ->
  api_manager_inits (snd (run_one_task env g task h)) = [None] ->
  fst (run_one_task env g task h) = Ok b ->
  b = true.
Proof.
  intros Hs. unfold_run. rewrite Hs.
  split_answers; simpl; intros H1 H2; try discriminate H1; try discriminate H2;
    now inversion H2.
Qed.

(** C2, amended.  With the localization-only mode off and no operation
    outside the [try] blocks raising, [run_one_task] returns, and
    - when the API manager was constructed, whatever inference did (raise,
      [False], [True]), the trace ends in: cost record written, workspace
      reset, status logged, logger released, return; each of the three
      cleanup operations happened exactly once;
    - when constructing the API manager raised, the result is [False],
      the logger was released once, and neither a cost record was written
      nor the workspace reset. *)
Theorem run_one_task_cleanup (env : Env) (g : Globals) (task : Task) (h : list event) :
  only_save_sbfl_result g = false ->
  is_Some (MODEL_COST_PER_INPUT g !! model g) ->
  unguarded_failures (snd (run_one_task env g task h)) = [] ->
  exists b,
    fst (run_one_task env g task h) = Ok b
    /\ ((api_manager_inits (snd (run_one_task env g task h)) = [None]
         /\ (exists r, inference_runs (snd (run_one_task env g task h)) = [r]
                       /\ b = match r with Ok true => true | _ => false end)
         /\ (exists f c msg,
               ends_with (snd (run_one_task env g task h))
                 [EvWriteCost f c None;
                  EvRepoReset (repo_path (setup_info task))
                              (base_commit (task_info task)) None;
                  EvLog msg;
                  EvLoggerClear (task_id task);
                  EvReturn task b])
         /\ cleaned_up_once (snd (run_one_task env g task h)))
        \/ (exists e,
              api_manager_inits (snd (run_one_task env g task h)) = [Some e]
              /\ b = false
              /\ inference_runs (snd (run_one_task env g task h)) = []
              /\ cost_writes (snd (run_one_task env g task h)) = []
              /\ resets (snd (run_one_task env g task h)) = []
              /\ logger_clears (snd (run_one_task env g task h)) = [task_id task])).
Proof.
  intros Hs [c Hc]. unfold_run. rewrite Hs, Hc.
  split_answers; simpl; intros H; try discriminate H;
    (eexists; split; [reflexivity |]);
    first
      [ right; eexists; repeat split; reflexivity
      | left; split; [reflexivity |];
        split; [eexists; split; reflexivity |];
        split; [do 3 eexists;
               repeat first [apply ends_with_refl | apply ends_with_cons]
              | repeat split] ].
Qed.
(** Inference raises for task "t1"; the cleanup still runs once. *)
Lemma run_one_task_cleanup_witness :
  only_save_sbfl_result (sample_globals false) = false
  /\ exists b,
       fst (run_one_task env_failing_tasks (sample_globals false) t1 []) = Ok b
       /\ cleaned_up_once
            (snd (run_one_task env_failing_tasks (sample_globals false) t1 [])).
Proof.
  split; [reflexivity |].
  destruct (run_one_task_cleanup env_failing_tasks (sample_globals false) t1 [])
    as (b & Hb & [(_ & _ & _ & C) | (e & F & _)]).
  - reflexivity.
  - exists (3 # 100000)%Q. reflexivity.
  - vm_compute. reflexivity.
  - exists b. split; [exact Hb | exact C].
  - vm_compute in F. discriminate F.
Defined.

(** C2 as stated fails: the output directory of "t2" is created, the
    construction of its API manager raises, and [run_one_task] returns
    [False] without writing a cost record and without resetting the
    workspace. *)
Theorem init_failure_skips_cleanup :
  let n := snd (run_one_task env_failing_tasks (sample_globals false) t2 []) in
  created_dirs n = ["out/t2_2024-05-17_09-30-12"]
  /\ api_manager_inits n = [Some (RuntimeError "cannot set up the project")]
  /\ fst (run_one_task env_failing_tasks (sample_globals false) t2 []) = Ok false
  /\ cost_writes n = []
  /\ resets n = []
  /\ ~ cleaned_up_once n.
Proof.
  vm_compute. repeat split; try reflexivity.
  intros (F & _). discriminate F.
Qed.
(** C3, amended.  As long as no operation outside the two [try] blocks
    of [run_one_task] raises, [run_task_group] calls [run_one_task] for
    every task of the group, in the stored order, and every call returns:
    whether constructing the API manager raises, inference raises or
    inference answers [False] makes no difference to the later tasks. *)
Theorem run_task_group_contains_failures (env : Env) (g : Globals)
    (task_group_id : string) (task_group_items : list Task) (h : list event) :
  is_Some (MODEL_COST_PER_INPUT g !! model g) ->
  unguarded_failures
    (snd (run_task_group env g task_group_id task_group_items h)) = [] ->
  fst (run_task_group env g task_group_id task_group_items h) = Ok tt
  /\ entered (snd (run_task_group env g task_group_id task_group_items h))
     = task_group_items
  /\ map fst (returned (snd (run_task_group env g task_group_id task_group_items h)))
     = task_group_items.
Proof. intros Hm H. now apply run_task_group_runs. Qed.

(** A group in which inference raises for the first task, the API manager
    of the second cannot be constructed and inference fails for the
    third: all three are run. *)
Lemma run_task_group_contains_failures_witness :
  let res := run_task_group env_failing_tasks (sample_globals false) "E" [t1; t2; t3] [] in
  (api_manager_inits (snd res)
   = [None; Some (RuntimeError "cannot set up the project"); None]
   /\ inference_runs (snd res)
      = [Raise (RuntimeError "inference crashed"); Ok false])
  /\ fst res = Ok tt
  /\ entered (snd res) = [t1; t2; t3]
  /\ map fst (returned (snd res)) = [t1; t2; t3].
Proof.
  split; [vm_compute; split; reflexivity |].
  apply (run_task_group_contains_failures env_failing_tasks (sample_globals false)
           "E" [t1; t2; t3] []).
  - exists (3 # 100000)%Q. reflexivity.
  - vm_compute. reflexivity.
Defined.

(** C3 as stated fails: the output directory of the first task of a group
    cannot be created, the exception leaves [run_one_task] and
    [run_task_group], and the second task of the group is never run. *)
Theorem unwritable_directory_aborts_group :
  let res := run_task_group env_unwritable (sample_globals false) "E1" [t1; t3] [] in
  fst res = Raise (OSError "read-only file system")
  /\ entered (snd res) = [t1]
  /\ ~ In t3 (entered (snd res)).
Proof.
  vm_compute. repeat split; try reflexivity.
  intros [F | []]. discriminate F.
Qed.
(** C4.  The groups built from a list of tasks have pairwise different
    keys; the list of a group is the input filtered by the group's key
    (so it holds exactly the tasks with this key, as often and in the
    order in which they occur in the input); every input task is in the
    group of its key and in no other; all groups together are a
    permutation of the input. *)
Theorem group_tasks_partition (all_tasks : list Task) :
  let task_groups := group_tasks all_tasks in
  List.NoDup (map fst task_groups)
  /\ (forall k items, In (k, items) task_groups ->
        items = List.filter (has_key k) all_tasks)
  /\ (forall k items t, In (k, items) task_groups -> In t items -> key_of t = k)
  /\ (forall t, In t all_tasks ->
        exists items, In (key_of t, items) task_groups /\ In t items)
  /\ (forall t k items k' items',
        In (k, items) task_groups -> In (k', items') task_groups ->
        In t items -> In t items' -> (k, items) = (k', items'))
  /\ Permutation (concat (map snd task_groups)) all_tasks.
Proof.
  cbn zeta. destruct (group_tasks_grouped all_tasks) as [ND Hitems Hcover Hall].
  assert (Hkey : forall k items t,
             In (k, items) (group_tasks all_tasks) -> In t items -> key_of t = k).
  { intros k items t Hin Ht. rewrite (Hitems k items Hin) in Ht.
    apply filter_In in Ht. destruct Ht as [_ Ht].
    now apply Strings.String.eqb_eq in Ht. }
  split; [exact ND |]. split; [exact Hitems |]. split; [exact Hkey |].
  split; [| split; [| exact Hall]].
  - intros t Ht. apply Hcover in Ht as Hk. apply in_map_iff in Hk.
    destruct Hk as [[k items] [Ek Hin]]. cbn in Ek. subst k.
    exists items. split; [exact Hin |].
    rewrite (Hitems _ _ Hin). apply filter_In. split; [exact Ht |].
    apply Strings.String.eqb_refl.
  - intros t k items k' items' H1 H2 T1 T2.
    pose proof (Hkey _ _ _ H1 T1) as E1. pose proof (Hkey _ _ _ H2 T2) as E2.
    subst k k'. rewrite (Hitems _ _ H1), (Hitems _ _ H2). reflexivity.
Qed.

(** Three tasks, the first and the third sharing an environment. *)
Example group_tasks_scenario :
  group_tasks [t1; t2; t3] = [("E1", [t1; t3]); ("E2", [t2])].
Proof. reflexivity. Qed.

(** C5.  With more than one process requested, [dispatch] creates the
    pool with [min(num_processes, number of groups)] workers and, once
    the pool exists, submits the groups sorted by [sort_groups]; the
    sorted list is a permutation of the groups, in descending order of
    size, groups of the same size keeping their order; groups of sizes
    5, 1, 3 are submitted in the order 5, 3, 1. *)
Theorem pool_schedule (env : Env) (g : Globals) (num_processes : Z)
    (all_tasks : list Task) (task_groups : list (string * list Task))
    (h : list event) :
  (1 < num_processes)%Z ->
  (exists r rest,
      snd (dispatch env g num_processes all_tasks task_groups h)
      = EvInitTotalGroups (length task_groups)
        :: EvLog (MsgSortedGroups (map fst (sort_groups task_groups)))
        :: EvPool (Z.min num_processes (Z.of_nat (length task_groups))) r
        :: rest
      /\ (r = None -> exists rest', rest = EvStarmap (sort_groups task_groups) :: rest'))
  /\ Permutation (sort_groups task_groups) task_groups
  /\ StronglySorted (fun a b => (length (snd b) <= length (snd a))%nat)
                    (sort_groups task_groups)
  /\ (forall n,
        List.filter (fun x => (length (snd x) =? n)%nat) (sort_groups task_groups)
        = List.filter (fun x => (length (snd x) =? n)%nat) task_groups)
  /\ (map (fun x => length (snd x)) task_groups = [5; 1; 3]%nat ->
      map (fun x => length (snd x)) (sort_groups task_groups) = [5; 3; 1]%nat).
Proof.
  intros HW. split; [| split; [| split; [| split]]].
  - rewrite dispatch_pool_run by (apply Z.eqb_neq; lia). cbn zeta.
    unfold clamp_processes.
    destruct (new_pool_answer env _ _) as [e|].
    + do 2 eexists. split; [reflexivity | discriminate].
    + rewrite starmap_run. cbn zeta. cbn [snd].
      destruct (match fst (run_chunks _ _ _ _ _) with
                | Ok (Some e) => Raise e | Ok None => Ok tt | Raise e => Raise e
                end) as [[]|e];
        do 2 eexists; (split; [reflexivity |]); intros _; eexists; reflexivity.
  - apply sort_groups_perm.
  - apply sort_groups_descending.
  - intros n. apply sort_groups_stable.
  - intros H.
    destruct task_groups as [|a [|b [|c [|d r]]]]; try discriminate H.
    cbn in H. injection H as Ha Hb Hc.
    unfold sort_groups, sorted. cbn [List.fold_right insert_sorted].
    unfold stays_before. rewrite Hb, Hc. cbn [Nat.ltb Nat.leb].
    cbn [insert_sorted]. unfold stays_before. rewrite Ha, Hb, Hc.
    cbn. now rewrite Ha, Hb, Hc.
Qed.

(** Two workers requested for two groups. *)
Lemma pool_schedule_witness :
  (1 < 2)%Z
  /\ exists r rest,
       snd (dispatch env_fine (sample_globals false) 2 [t1; t2; t3]
                     (group_tasks [t1; t2; t3]) [])
       = EvInitTotalGroups 2
         :: EvLog (MsgSortedGroups ["E1"; "E2"])
         :: EvPool 2 r :: rest
       /\ (r = None -> exists rest',
             rest = EvStarmap [("E1", [t1; t3]); ("E2", [t2])] :: rest').
Proof.
  split; [lia |].
  exact (proj1 (pool_schedule env_fine (sample_globals false) 2 [t1; t2; t3]
                  (group_tasks [t1; t2; t3]) [] ltac:(lia))).
Defined.

(** The jobs submitted to the pool hold the input tasks. *)
Lemma grouped_tasks_perm (all_tasks : list Task) :
  Permutation (flat_map snd (sort_groups (group_tasks all_tasks))) all_tasks.
Proof.
  rewrite (Permutation_flat_map snd (sort_groups_perm (group_tasks all_tasks))).
  rewrite flat_map_concat_map.
  apply (grouped_all _ _ (group_tasks_grouped all_tasks)).
Qed.

(** C6, amended.  For every list of tasks and every worker count of at
    least one, if no operation outside the [try] blocks of [run_one_task]
    raises and the pool can be created, the dispatch returns,
    [run_one_task] is called once for every task of the list (the calls
    are a permutation of the list, the list itself with one process), and
    every call returns one boolean. *)
Theorem dispatch_runs_every_task (env : Env) (g : Globals) (num_processes : Z)
    (all_tasks : list Task) (h : list event) :
  is_Some (MODEL_COST_PER_INPUT g !! model g) ->
  (1 <= num_processes)%Z ->
  unguarded_failures
    (snd (dispatch env g num_processes all_tasks (group_tasks all_tasks) h)) = [] ->
  pool_failures
    (snd (dispatch env g num_processes all_tasks (group_tasks all_tasks) h)) = [] ->
  fst (dispatch env g num_processes all_tasks (group_tasks all_tasks) h) = Ok tt
  /\ Permutation
       (entered (snd (dispatch env g num_processes all_tasks (group_tasks all_tasks) h)))
       all_tasks
  /\ length (entered (snd (dispatch env g num_processes all_tasks
                                    (group_tasks all_tasks) h)))
     = length all_tasks
  /\ map fst (returned (snd (dispatch env g num_processes all_tasks
                                      (group_tasks all_tasks) h)))
     = entered (snd (dispatch env g num_processes all_tasks (group_tasks all_tasks) h)).
Proof.
  intros Hm HW Hu Hp.
  assert (exists l, Permutation l all_tasks
                    /\ runs_all l (dispatch env g num_processes all_tasks
                                            (group_tasks all_tasks) h))
    as (l & Hl & O & E & R).
  { destruct (num_processes =? 1)%Z eqn:W1.
    - apply Z.eqb_eq in W1. subst num_processes. exists all_tasks.
      split; [apply Permutation_refl | now apply dispatch_single_runs].
    - exists (flat_map snd (sort_groups (group_tasks all_tasks))).
      split; [apply grouped_tasks_perm | now apply dispatch_pool_runs]. }
  split; [exact O |]. rewrite E, R. split; [exact Hl |].
  split; [now apply Permutation_length | reflexivity].
Qed.

(** Three tasks in two groups, two workers, tasks failing in the three
    contained ways. *)
Lemma dispatch_runs_every_task_witness :
  let res := dispatch env_failing_tasks (sample_globals false) 2 [t1; t2; t3]
                      (group_tasks [t1; t2; t3]) [] in
  (1 <= 2)%Z
  /\ fst res = Ok tt
  /\ Permutation (entered (snd res)) [t1; t2; t3]
  /\ length (entered (snd res)) = 3%nat
  /\ map fst (returned (snd res)) = entered (snd res).
Proof.
  split; [lia |].
  apply (dispatch_runs_every_task env_failing_tasks (sample_globals false) 2
           [t1; t2; t3] []).
  - exists (3 # 100000)%Q. reflexivity.
  - lia.
  - vm_compute. reflexivity.
  - vm_compute. reflexivity.
Defined.

(** C6 as stated fails: with three tasks and one process, the output
    directory of the first task cannot be created; [run_one_task] is
    called once, not three times, and the call yields no result. *)
Theorem unwritable_directory_loses_invocations :
  let res := dispatch env_unwritable (sample_globals false) 1 [t1; t2; t3]
                      (group_tasks [t1; t2; t3]) [] in
  fst res = Raise (OSError "read-only file system")
  /\ length (entered (snd res)) = 1%nat
  /\ returned (snd res) = [].
Proof. vm_compute. repeat split; reflexivity. Qed.
(** Logging is no call of [run_one_task]. *)
Lemma entered_map_log {A} (f : A -> message) (l : list A) :
  entered (map (fun x => EvLog (f x)) l) = [].
Proof. induction l; [reflexivity | exact IHl]. Qed.

Lemma returned_map_log {A} (f : A -> message) (l : list A) :
  returned (map (fun x => EvLog (f x)) l) = [].
Proof. induction l; [reflexivity | exact IHl]. Qed.

Lemma unguarded_failures_map_log {A} (f : A -> message) (l : list A) :
  unguarded_failures (map (fun x => EvLog (f x)) l) = [].
Proof. induction l; [reflexivity | exact IHl]. Qed.

(** With one process the calls of [run_one_task] made are, in every case,
    the first tasks of the list in the order of the list. *)
Lemma dispatch_single_prefix (env : Env) (g : Globals) (all_tasks : list Task)
    (task_groups : list (string * list Task)) (h : list event) :
  exists rest,
    all_tasks = entered (snd (dispatch env g 1 all_tasks task_groups h)) ++ rest.
Proof.
  rewrite dispatch_single_run. cbn zeta.
  destruct (for_each_entered_prefix (fun t => [t])
              (fun task => run_one_task env g task ;; ret tt)) with
    (items := all_tasks) (h := h ++ [EvLog MsgSingleProcess]) as (rest & E & _).
  - intros x h'. exists []. split; [| reflexivity].
    rewrite bind_snd, entered_app, run_one_task_entered.
    now destruct (fst (run_one_task env g x h')).
  - rewrite flat_map_singleton in E. exists rest.
    destruct (fst (for_each all_tasks _ _)); cbn [snd].
    + change (all_tasks
              = entered (snd (for_each all_tasks
                                (fun task => run_one_task env g task ;; ret tt)
                                (h ++ [EvLog MsgSingleProcess]))
                         ++ [EvLog MsgFinishedSequentially]) ++ rest).
      rewrite entered_app. cbn [entered flat_map app].
      now rewrite app_nil_r.
    + exact E.
Qed.

(** C7, amended.  With one process, if no operation outside the [try]
    blocks of [run_one_task] raises, [run_one_task] is called for the
    tasks of the ids found in both maps, in ascending order of the ids,
    each task built from the entries of its id, whatever the environment
    keys; every call returns before the next one starts. *)
Theorem single_process_order (env : Env) (g : Globals) (one_id : option string)
    (task_list : option (list string)) (setup_map : gmap string SetupInfo)
    (tasks_map : gmap string TaskInfo) (h : list event) (ids : list string) :
  is_Some (MODEL_COST_PER_INPUT g !! model g) ->
  select_task_ids one_id task_list = Ok ids ->
  unguarded_failures
    (snd (entry_swe_bench_mode env g one_id task_list setup_map tasks_map 1 h)) = [] ->
  let n := snd (entry_swe_bench_mode env g one_id task_list setup_map tasks_map 1 h) in
  map task_id (entered n)
  = sorted_str (List.filter (in_both_maps setup_map tasks_map) ids)
  /\ StronglySorted (fun a b => Strings.String.leb a b = true)
                    (map task_id (entered n))
  /\ (forall t, In t (entered n) ->
        setup_map !! task_id t = Some (setup_info t)
        /\ tasks_map !! task_id t = Some (task_info t))
  /\ map fst (returned n) = entered n.
Proof.
  intros Hm Hsel Hu. cbn zeta.
  destruct (make_tasks_remaining setup_map tasks_map ids) as (tasks & Hmk & Hid & Hl).
  destruct (entry_run env g one_id task_list setup_map tasks_map 1 h ids tasks
              Hsel Hmk) as [(e & He) | (h' & post & Hn & Ep & Rp)].
  { rewrite He in Hu. discriminate Hu. }
  rewrite Hn in Hu |- *.
  change (unguarded_failures
            ([EvCreateDir (output_dir g) None]
             ++ entry_prelude setup_map tasks_map ids 1 tasks
             ++ snd (dispatch env g 1 tasks (group_tasks tasks) h') ++ post) = [])
    in Hu.
  rewrite !unguarded_failures_app in Hu.
  apply app_eq_nil in Hu. destruct Hu as [_ Hu].
  apply app_eq_nil in Hu. destruct Hu as [_ Hu].
  apply app_eq_nil in Hu. destruct Hu as [Hu _].
  destruct (dispatch_single_runs env g Hm tasks (group_tasks tasks) h' Hu)
    as (_ & E & R).
  assert (Epre : entered (entry_prelude setup_map tasks_map ids 1 tasks) = []
                 /\ returned (entry_prelude setup_map tasks_map ids 1 tasks) = []).
  { unfold entry_prelude. rewrite !entered_app, !returned_app.
    rewrite !entered_map_log, !returned_map_log. split; reflexivity. }
  destruct Epre as [Epre Rpre].
  assert (En : entered (EvCreateDir (output_dir g) None
                         :: entry_prelude setup_map tasks_map ids 1 tasks
                         ++ snd (dispatch env g 1 tasks (group_tasks tasks) h') ++ post)
               = tasks).
  { change (entered (entry_prelude setup_map tasks_map ids 1 tasks
                     ++ snd (dispatch env g 1 tasks (group_tasks tasks) h') ++ post)
            = tasks).
    rewrite !entered_app, Epre, E, Ep. cbn [app]. apply app_nil_r. }
  assert (Rn : map fst (returned (EvCreateDir (output_dir g) None
                         :: entry_prelude setup_map tasks_map ids 1 tasks
                         ++ snd (dispatch env g 1 tasks (group_tasks tasks) h') ++ post))
               = tasks).
  { change (map fst (returned (entry_prelude setup_map tasks_map ids 1 tasks
                     ++ snd (dispatch env g 1 tasks (group_tasks tasks) h') ++ post))
            = tasks).
    rewrite !returned_app, Rpre, Rp. cbn [app]. rewrite app_nil_r. exact R. }
  rewrite En, Rn, Hid, remaining_task_ids_eq.
  split; [reflexivity |]. split; [apply sorted_str_ascending |].
  split; [exact Hl | reflexivity].
Qed.
(** The order of the calls interleaves the environments "E1" and "E2". *)
Lemma single_process_order_witness :
  let n := snd (entry_swe_bench_mode env_failing_tasks (sample_globals false) None
                  (Some ["t3"; "zz"; "t1"; "t2"]) sample_setup_map sample_tasks_map
                  1 []) in
  select_task_ids None (Some ["t3"; "zz"; "t1"; "t2"]) = Ok ["t3"; "zz"; "t1"; "t2"]
  /\ map task_id (entered n) = ["t1"; "t2"; "t3"]
  /\ map (fun t => env_name (setup_info t)) (entered n) = ["E1"; "E2"; "E1"].
Proof.
  split; [reflexivity |].
  pose proof (single_process_order env_failing_tasks (sample_globals false) None
                (Some ["t3"; "zz"; "t1"; "t2"]) sample_setup_map sample_tasks_map
                [] ["t3"; "zz"; "t1"; "t2"]) as H.
  destruct H as (H & _).
  - exists (3 # 100000)%Q. reflexivity.
  - reflexivity.
  - vm_compute. reflexivity.
  - split; [rewrite H; vm_compute; reflexivity | vm_compute; reflexivity].
Defined.

(** C7 as stated fails: with one process and the ids "t2" and "t1", the
    output directory of "t1" cannot be created; the run ends with the
    exception and "t2" is never run. *)
Theorem unwritable_directory_stops_single_process :
  let res := entry_swe_bench_mode env_unwritable (sample_globals false) None
               (Some ["t2"; "t1"]) sample_setup_map sample_tasks_map 1 [] in
  fst res = Raise (OSError "read-only file system")
  /\ map task_id (entered (snd res)) = ["t1"]
  /\ returned (snd res) = [].
Proof. vm_compute. repeat split; reflexivity. Qed.

(** C8, at a failing input.  The model costs 0.00003 per input token and
    0.00006 per output token; the cost record written for the task gives
    0.00003 for both.  The total of the tokens is the sum it should be. *)
Theorem cost_record_repeats_input_cost :
  let g := sample_globals false in
  let n := snd (run_one_task env_fine g t1 []) in
  MODEL_COST_PER_INPUT g !! model g = Some (3 # 100000)%Q
  /\ MODEL_COST_PER_OUTPUT g !! model g = Some (6 # 100000)%Q
  /\ map (fun fc => output_cost_per_token (snd fc)) (cost_writes n) = [(3 # 100000)%Q]
  /\ map (fun fc => input_cost_per_token (snd fc)) (cost_writes n) = [(3 # 100000)%Q]
  /\ map (fun fc => total_tokens (snd fc)) (cost_writes n) = [1500%Z].
Proof. vm_compute. repeat split; reflexivity. Qed.

(** C9, at a failing input.  Two runs of task "t1" start at different
    times within one second: both get the same output directory. *)
Theorem same_second_same_directory :
  sample_time <> sample_time_later
  /\ task_output_dir_of (sample_globals false) "t1" sample_time
     = "out/t1_2024-05-17_09-30-12"
  /\ task_output_dir_of (sample_globals false) "t1" sample_time_later
     = "out/t1_2024-05-17_09-30-12".
Proof.
  split; [discriminate |]. split; vm_compute; reflexivity.
Qed.

(** The id "t1" is requested twice and fails at once both times: the two
    runs start at different times and write into one directory. *)
Example retry_within_a_second_shares_directory :
  let n := snd (entry_swe_bench_mode env_quick_failure (sample_globals false) None
                  (Some ["t1"; "t1"]) sample_setup_map sample_tasks_map 1 []) in
  clock_readings n = [sample_time; sample_time_later]
  /\ created_dirs n
     = ["out"; "out/t1_2024-05-17_09-30-12"; "out/t1_2024-05-17_09-30-12"]
  /\ map snd (returned n) = [false; false].
Proof. vm_compute. repeat split; reflexivity. Qed.

(** C10.  The ids the run goes on with are the requested ids found in both
    maps, sorted: an id stays if and only if both maps have it (as often
    as it was requested), the others are the ones reported missing.  A
    task is built for every remaining id without a [KeyError].  Unless
    the output root cannot be created, the trace starts with creating it,
    then reports every missing id, and only then, after steps that run
    no task, dispatches exactly the tasks of the remaining ids. *)
Theorem missing_ids_skipped (env : Env) (g : Globals) (one_id : option string)
    (task_list : option (list string)) (setup_map : gmap string SetupInfo)
    (tasks_map : gmap string TaskInfo) (num_processes : Z) (h : list event)
    (ids : list string) :
  select_task_ids one_id task_list = Ok ids ->
  let remaining := remaining_task_ids setup_map tasks_map ids in
  let n := snd (entry_swe_bench_mode env g one_id task_list setup_map tasks_map
                                     num_processes h) in
  remaining = sorted_str (List.filter (in_both_maps setup_map tasks_map) ids)
  /\ Permutation remaining (List.filter (in_both_maps setup_map tasks_map) ids)
  /\ (forall x, In x remaining <->
                In x ids /\ is_Some (setup_map !! x) /\ is_Some (tasks_map !! x))
  /\ (forall x, In x (missing_task_ids setup_map tasks_map ids) <->
                In x ids /\ ~ (is_Some (setup_map !! x) /\ is_Some (tasks_map !! x)))
  /\ exists all_tasks,
       make_tasks setup_map tasks_map remaining = Ok all_tasks
       /\ map task_id all_tasks = remaining
       /\ ((exists e, n = [EvCreateDir (output_dir g) (Some e)])
           \/ (exists mid h' post,
                 n = EvCreateDir (output_dir g) None
                     :: map (fun id => EvLog (MsgSkipping id))
                            (sorted_str (missing_task_ids setup_map tasks_map ids))
                     ++ mid
                     ++ snd (dispatch env g num_processes all_tasks
                                      (group_tasks all_tasks) h')
                     ++ post
                 /\ entered mid = [] /\ entered post = [])).
Proof.
  intros Hsel. cbn zeta.
  split; [apply remaining_task_ids_eq |].
  split; [rewrite remaining_task_ids_eq; apply sorted_str_perm |].
  split.
  { intros x. rewrite remaining_task_ids_In, in_both_maps_lookup. reflexivity. }
  split.
  { intros x. rewrite missing_task_ids_In, <- in_both_maps_lookup.
    now rewrite not_true_iff_false. }
  destruct (make_tasks_remaining setup_map tasks_map ids) as (tasks & Hmk & Hid & _).
  exists tasks. split; [exact Hmk |]. split; [exact Hid |].
  destruct (entry_run env g one_id task_list setup_map tasks_map num_processes h
              ids tasks Hsel Hmk) as [(e & He) | (h' & post & Hn & Ep & _)].
  - left. now exists e.
  - right. unfold entry_prelude in Hn. eexists. exists h', post.
    split; [rewrite Hn, <- app_assoc; reflexivity |].
    split; [| exact Ep].
    rewrite entered_app. rewrite entered_map_log. reflexivity.
Qed.

(** The id "zz" is in neither map. *)
Lemma missing_ids_skipped_witness :
  let ids := ["t3"; "zz"; "t1"; "t2"] in
  select_task_ids None (Some ids) = Ok ids
  /\ remaining_task_ids sample_setup_map sample_tasks_map ids = ["t1"; "t2"; "t3"]
  /\ missing_task_ids sample_setup_map sample_tasks_map ids = ["zz"]
  /\ remaining_task_ids sample_setup_map sample_tasks_map ids
     = sorted_str (List.filter (in_both_maps sample_setup_map sample_tasks_map) ids).
Proof.
  split; [reflexivity |]. split; [vm_compute; reflexivity |].
  split; [vm_compute; reflexivity |].
  exact (proj1 (missing_ids_skipped env_fine (sample_globals false) None
                  (Some ["t3"; "zz"; "t1"; "t2"]) sample_setup_map sample_tasks_map
                  2 [] ["t3"; "zz"; "t1"; "t2"] eq_refl)).
Defined.

(* ================================================================== *)
(** * Further properties of [run_one_task] *)
(* ================================================================== *)



Lemma run_one_task_raise (env : Env) (g : Globals) (task : Task)
    (h : list event) (e : exn) :
  fst (run_one_task env g task h) = Raise e ->
  resets (snd (run_one_task env g task h)) = []
  /\ logger_clears (snd (run_one_task env g task h)) = []
  /\ returned (snd (run_one_task env g task h)) = [].
Proof.
  unfold_run. split_answers; intros H; try discriminate H;
    repeat split; reflexivity.
Qed.

(** X2.  Whenever [run_one_task] raises, it has neither reset the workspace nor
    released the logger of the task. *)
Theorem run_one_task_crash_skips_cleanup (env : Env) (g : Globals) (task : Task)
    (h : list event) (e : exn) :
  fst (run_one_task env g task h) = Raise e ->
  resets (snd (run_one_task env g task h)) = []
  /\ logger_clears (snd (run_one_task env g task h)) = []
  /\ returned (snd (run_one_task env g task h)) = [].
Proof. apply run_one_task_raise. Qed.

Lemma run_one_task_crash_skips_cleanup_witness :
  fst (run_one_task env_unwritable (sample_globals false) t1 [])
  = Raise (OSError "read-only file system")
  /\ resets (snd (run_one_task env_unwritable (sample_globals false) t1 [])) = []
  /\ logger_clears (snd (run_one_task env_unwritable (sample_globals false) t1 [])) = []
  /\ returned (snd (run_one_task env_unwritable (sample_globals false) t1 [])) = [].
Proof.
  assert (E : fst (run_one_task env_unwritable (sample_globals false) t1 [])
              = Raise (OSError "read-only file system"))
    by (vm_compute; reflexivity).
  split; [exact E |].
  exact (run_one_task_crash_skips_cleanup env_unwritable (sample_globals false) t1 []
           _ E).
Defined.

(** X3.  Outside the localization-only mode the value [run_one_task] returns is
    [True] exactly when inference ran and returned [True]. *)
Theorem run_one_task_return_value (env : Env) (g : Globals) (task : Task)
    (h : list event) (b : bool) :
  only_save_sbfl_result g = false ->
  fst (run_one_task env g task h) = Ok b ->
  (b = true <-> inference_runs (snd (run_one_task env g task h)) = [Ok true]).
Proof.
  intros Hs. unfold_run. rewrite Hs.
  split_answers; intros H; try discriminate H;
    injection H as <-; split; intros F; try discriminate F; reflexivity.
Qed.

Lemma run_one_task_return_value_witness :
  only_save_sbfl_result (sample_globals false) = false
  /\ fst (run_one_task env_failing_tasks (sample_globals false) t3 []) = Ok false
  /\ (false = true <->
      inference_runs (snd (run_one_task env_failing_tasks (sample_globals false) t3 []))
      = [Ok true]).
Proof.
  split; [reflexivity |].
  assert (E : fst (run_one_task env_failing_tasks (sample_globals false) t3 [])
              = Ok false) by (vm_compute; reflexivity).
  split; [exact E |].
  exact (run_one_task_return_value env_failing_tasks (sample_globals false) t3 []
           false eq_refl E).
Defined.


(** X5.  In the localization-only mode [run_one_task] leaves the task as it is:
    no inference, no cost record, no reset of the workspace; the logger of
    the task is released only when the API manager could not be
    constructed. *)
Theorem sbfl_only_skips_cleanup (env : Env) (g : Globals) (task : Task)
    (h : list event) :
  only_save_sbfl_result g = true ->
  let n := snd (run_one_task env g task h) in
  inference_runs n = []
  /\ cost_writes n = []
  /\ resets n = []
  /\ (api_manager_inits n = [None] -> logger_clears n = []).
Proof.
  intros Hs. unfold_run. rewrite Hs.
  split_answers; cbn; repeat split; try reflexivity; try discriminate.
Qed.

Lemma sbfl_only_skips_cleanup_witness :
  let n := snd (run_one_task env_fine (sample_globals true) t1 []) in
  only_save_sbfl_result (sample_globals true) = true
  /\ fault_localizations n = [Ok true]
  /\ inference_runs n = [] /\ cost_writes n = [] /\ resets n = []
  /\ (api_manager_inits n = [None] -> logger_clears n = []).
Proof.
  split; [reflexivity |]. split; [vm_compute; reflexivity |].
  exact (sbfl_only_skips_cleanup env_fine (sample_globals true) t1 [] eq_refl).
Defined.

(** X6.  A model without an entry in the cost table: once inference is over and
    the tool-call traces are dumped, [run_one_task] raises [KeyError] for
    the model; no cost record is written, the workspace is not reset and
    the logger is not released. *)
Theorem unknown_model_raises_after_inference (env : Env) (g : Globals)
    (task : Task) (h : list event) :
  MODEL_COST_PER_INPUT g !! model g = None ->
  only_save_sbfl_result g = false ->
  api_manager_inits (snd (run_one_task env g task h)) = [None] ->
  unguarded_failures (snd (run_one_task env g task h)) = [] ->
  fst (run_one_task env g task h) = Raise (KeyError (model g))
  /\ length (inference_runs (snd (run_one_task env g task h))) = 1%nat
  /\ cost_writes (snd (run_one_task env g task h)) = []
  /\ resets (snd (run_one_task env g task h)) = []
  /\ logger_clears (snd (run_one_task env g task h)) = [].
Proof.
  intros Hm Hs. unfold_run. rewrite Hm, Hs.
  split_answers; cbn; intros H1 H2; try discriminate H1; try discriminate H2;
    repeat split; reflexivity.
Qed.

Lemma unknown_model_raises_after_inference_witness :
  MODEL_COST_PER_INPUT globals_unknown_model !! model globals_unknown_model = None
  /\ fst (run_one_task env_fine globals_unknown_model t1 [])
     = Raise (KeyError "my-model")
  /\ inference_runs (snd (run_one_task env_fine globals_unknown_model t1 []))
     = [Ok true].
Proof.
  split; [reflexivity |].
  split; [| vm_compute; reflexivity].
  apply (unknown_model_raises_after_inference env_fine globals_unknown_model t1 []).
  - reflexivity.
  - reflexivity.
  - vm_compute. reflexivity.
  - vm_compute. reflexivity.
Defined.

(** X7.  Before the API manager of a task is constructed, the output directory
    of the task has been created and the three artifacts of the task
    (metadata, problem statement, developer patch) have been written into
    it, in this order, and the logger of the task exists. *)
Theorem artifacts_before_construction (env : Env) (g : Globals) (task : Task)
    (h : list event) :
  api_manager_inits (snd (run_one_task env g task h)) <> [] ->
  exists start commit r rest,
    let dir := task_output_dir_of g (task_id task) start in
    snd (run_one_task env g task h)
    = EvEnter task
      :: EvNow start
      :: EvCreateDir dir None
      :: EvCommitHash (Ok commit)
      :: EvWriteMeta (pjoin dir "meta.json") task None
      :: EvWriteText (pjoin dir "problem_statement.txt")
                     (problem_statement (task_info task)) None
      :: EvWriteText (pjoin dir "developer_patch.diff") (patch (task_info task)) None
      :: EvNewLogger (task_id task) dir None
      :: EvLog (MsgRunningTask (task_id task))
      :: EvApiManager task dir (do_install g) r
      :: rest.
Proof.
  unfold_run.
  split_answers; intros H; try (now elim H); do 4 eexists; reflexivity.
Qed.

Lemma artifacts_before_construction_witness :
  api_manager_inits (snd (run_one_task env_failing_tasks (sample_globals false) t2 []))
  <> []
  /\ written_files (snd (run_one_task env_failing_tasks (sample_globals false) t2 []))
     = ["out/t2_2024-05-17_09-30-12/meta.json";
        "out/t2_2024-05-17_09-30-12/problem_statement.txt";
        "out/t2_2024-05-17_09-30-12/developer_patch.diff"].
Proof.
  assert (H : api_manager_inits
                (snd (run_one_task env_failing_tasks (sample_globals false) t2 []))
              <> []) by (vm_compute; discriminate).
  split; [exact H |].
  destruct (artifacts_before_construction env_failing_tasks (sample_globals false)
              t2 [] H) as (start & commit & r & rest & E).
  vm_compute. reflexivity.
Defined.

(** X8.  Whenever [cost.json] is written, it is written into the output
    directory of the task, named after the first reading of the clock; the
    record names the configured model and the commit read at the start, its
    epochs are those of the two readings of the clock, its elapsed time is
    their difference, and its token total is the sum of the two counts. *)
Theorem cost_record_provenance (env : Env) (g : Globals) (task : Task)
    (h : list event) (f : string) (c : CostRecord) :
  In (f, c) (cost_writes (snd (run_one_task env g task h))) ->
  exists start finish commit,
    clock_readings (snd (run_one_task env g task h)) = [start; finish]
    /\ created_dirs (snd (run_one_task env g task h))
       = [task_output_dir_of g (task_id task) start]
    /\ In (EvCommitHash (Ok commit)) (snd (run_one_task env g task h))
    /\ f = pjoin (task_output_dir_of g (task_id task) start) "cost.json"
    /\ cost_model c = model g
    /\ cost_commit c = commit
    /\ start_epoch c = timestamp env start
    /\ end_epoch c = timestamp env finish
    /\ elapsed_seconds c = total_seconds env finish start
    /\ total_tokens c = (total_input_tokens c + total_output_tokens c)%Z.
Proof.
  unfold_run.
  split_answers; cbn; intros H; try contradiction;
    destruct H as [H | []]; inversion H; subst;
    do 3 eexists; repeat split; try reflexivity; cbn; tauto.
Qed.

Lemma cost_record_provenance_witness :
  exists f c,
    In (f, c) (cost_writes (snd (run_one_task env_fine (sample_globals false) t1 [])))
    /\ f = "out/t1_2024-05-17_09-30-12/cost.json"
    /\ total_tokens c = 1500%Z.
Proof.
  assert (H : exists f c,
             In (f, c) (cost_writes
                          (snd (run_one_task env_fine (sample_globals false) t1 []))))
    by (vm_compute; do 2 eexists; left; reflexivity).
  destruct H as (f & c & H). exists f, c. split; [exact H |].
  destruct (cost_record_provenance env_fine (sample_globals false) t1 [] f c H)
    as (start & finish & commit & Hc & _ & _ & Hf & _ & _ & _ & _ & _ & Ht).
  vm_compute in Hc. injection Hc as <- <-.
  split; [rewrite Hf; vm_compute; reflexivity |].
  vm_compute in H. destruct H as [H | []]. injection H as _ <-. reflexivity.
Defined.

(* ================================================================== *)
(** * Further properties of the loops *)
(* ================================================================== *)

Lemma for_each_silent {A B} (f : event -> list B) (body : A -> M unit) :
  (forall x h, flat_map f (snd (body x h)) = []) ->
  forall l h, flat_map f (snd (for_each l body h)) = [].
Proof.
  intros Hb. induction l as [|x r IH]; intros h; cbn [for_each].
  - reflexivity.
  - rewrite bind_snd, flat_map_app, Hb.
    destruct (fst (body x h)); [apply IH | reflexivity].
Qed.

Lemma run_one_task_quiet (env : Env) (g : Globals) (task : Task) (h : list event) :
  aggregations (snd (run_one_task env g task h)) = []
  /\ pool_requests (snd (run_one_task env g task h)) = []
  /\ task_signals (snd (run_one_task env g task h)) = []
  /\ group_signals (snd (run_one_task env g task h)) = [].
Proof. unfold_run. split_answers; repeat split; reflexivity. Qed.

Lemma run_one_task_ok (env : Env) (g : Globals) (task : Task) (h : list event)
    (b : bool) :
  fst (run_one_task env g task h) = Ok b ->
  unguarded_failures (snd (run_one_task env g task h)) = []
  /\ returned (snd (run_one_task env g task h)) = [(task, b)].
Proof.
  unfold_run. split_answers; intros H; try discriminate H;
    injection H as <-; split; reflexivity.
Qed.

Lemma aggregations_app (n1 n2 : list event) :
  aggregations (n1 ++ n2) = aggregations n1 ++ aggregations n2.
Proof. apply flat_map_app. Qed.

Lemma pool_requests_app (n1 n2 : list event) :
  pool_requests (n1 ++ n2) = pool_requests n1 ++ pool_requests n2.
Proof. apply flat_map_app. Qed.

Lemma task_signals_app (n1 n2 : list event) :
  task_signals (n1 ++ n2) = task_signals n1 ++ task_signals n2.
Proof. apply flat_map_app. Qed.

Lemma group_signals_app (n1 n2 : list event) :
  group_signals (n1 ++ n2) = group_signals n1 ++ group_signals n2.
Proof. apply flat_map_app. Qed.

(** One round of a loop over tasks: [run_one_task], then operations [k]
    that only log. *)
Lemma task_loop_step (env : Env) (g : Globals) (k : list event) (x : Task)
    (r : list Task) (h : list event) :
  for_each (x :: r) (fun task => run_one_task env g task ;; (fun _ => (Ok tt, k))) h
  = match fst (run_one_task env g x h) with
    | Ok _ =>
        let n1 := snd (run_one_task env g x h) ++ k in
        let res := for_each r
                     (fun task => run_one_task env g task ;; (fun _ => (Ok tt, k)))
                     (h ++ n1) in
        (fst res, n1 ++ snd res)
    | Raise e => (Raise e, snd (run_one_task env g x h))
    end.
Proof.
  cbn [for_each]. unfold bind at 1. unfold bind at 1.
  destruct (run_one_task env g x h) as [[b|e] n1]; cbn [fst snd];
    [| reflexivity].
  now destruct (for_each r _ _).
Qed.

(** A loop over tasks starts them in the order of the list, each one after
    the one before has returned, prints [k] after every task that
    returned, and ends with the first call that raises. *)
Lemma task_loop_shape (env : Env) (g : Globals) (k : list event)
    (items : list Task) (h : list event) :
  entered k = [] -> returned k = [] -> unguarded_failures k = [] ->
  group_signals k = [] -> aggregations k = [] -> pool_requests k = [] ->
  let res := for_each items
               (fun task => run_one_task env g task ;; (fun _ => (Ok tt, k))) h in
  length (task_signals (snd res))
  = (length (task_signals k) * length (returned (snd res)))%nat
  /\ group_signals (snd res) = []
  /\ aggregations (snd res) = []
  /\ pool_requests (snd res) = []
  /\ match fst res with
     | Ok _ => entered (snd res) = items
               /\ map fst (returned (snd res)) = items
               /\ unguarded_failures (snd res) = []
     | Raise e => exists done t rest,
                    items = done ++ t :: rest
                    /\ entered (snd res) = done ++ [t]
                    /\ map fst (returned (snd res)) = done
     end.
Proof.
  intros K1 K2 K3 K5 K6 K7. cbn zeta.
  revert h. induction items as [|x r IH]; intros h.
  - cbn [for_each ret fst snd task_signals returned flat_map length].
    repeat split; try reflexivity. lia.
  - rewrite task_loop_step.
    destruct (run_one_task_quiet env g x h) as (A1 & P1 & T1 & G1).
    pose proof (run_one_task_entered env g x h) as E1.
    destruct (fst (run_one_task env g x h)) as [b|e] eqn:F1; cbn zeta; cbn [fst snd].
    + destruct (run_one_task_ok env g x h b F1) as (U1 & R1).
      specialize (IH (h ++ snd (run_one_task env g x h) ++ k)).
      destruct IH as (IT & IG & IA & IP & IS).
      rewrite !task_signals_app, !group_signals_app, !aggregations_app,
        !pool_requests_app, !entered_app, !returned_app, !unguarded_failures_app.
      rewrite T1, G1, A1, P1, E1, R1, U1, IG, IA, IP, K1, K2, K3, K5, K6, K7.
      cbn [app].
      split; [rewrite !length_app, IT; cbn [length]; lia |].
      split; [reflexivity |]. split; [reflexivity |]. split; [reflexivity |].
      destruct (fst (for_each r _ _)).
      * destruct IS as (I1 & I2 & I3). cbn [map fst]. rewrite I1, I2, I3.
        repeat split; reflexivity.
      * destruct IS as (done & t & rest & I1 & I2 & I3).
        exists (x :: done), t, rest. cbn [map fst].
        split; [now rewrite I1 |]. split; [now rewrite I2 | now rewrite I3].
    + destruct (run_one_task_raise env g x h e F1) as (_ & _ & R1).
      rewrite T1, G1, A1, P1, E1, R1.
      cbn [length]. split; [lia |].
      repeat split; try reflexivity.
      exists [], x, r. repeat split; reflexivity.
Qed.

(** X9.  [run_task_group] announces the group, then runs the tasks one after the
    other in the stored order, printing one progress message after every
    task that returned.  It either gets through the whole group and prints
    the message that the group is finished, or it ends with the exception
    of the first call of [run_one_task] that raised, without that message
    and without starting a later task. *)
Theorem run_task_group_progress (env : Env) (g : Globals) (task_group_id : string)
    (task_group_items : list Task) (h : list event) :
  let res := run_task_group env g task_group_id task_group_items h in
  (exists rest,
      snd res = EvLog (MsgStartGroup task_group_id (length task_group_items)) :: rest)
  /\ length (task_signals (snd res)) = length (returned (snd res))
  /\ match fst res with
     | Ok _ =>
         entered (snd res) = task_group_items
         /\ map fst (returned (snd res)) = task_group_items
         /\ group_signals (snd res) = [task_group_id]
     | Raise e =>
         group_signals (snd res) = []
         /\ exists done t rest,
              task_group_items = done ++ t :: rest
              /\ entered (snd res) = done ++ [t]
              /\ map fst (returned (snd res)) = done
     end.
Proof.
  cbn zeta. rewrite run_task_group_run. cbn zeta.
  pose proof (task_loop_shape env g [EvLog MsgTaskReturn] task_group_items
                (h ++ [EvLog (MsgStartGroup task_group_id (length task_group_items))])
                eq_refl eq_refl eq_refl eq_refl eq_refl eq_refl) as L.
  cbn zeta in L.
  change (fun _ : list event => (Ok tt, [EvLog MsgTaskReturn]))
    with (emit (EvLog MsgTaskReturn)) in L.
  destruct L as (T & G & _ & _ & S).
  change (length (task_signals [EvLog MsgTaskReturn])) with 1%nat in T.
  rewrite Nat.mul_1_l in T.
  destruct (fst (for_each task_group_items _ _)) as [[]|e]; cbn [fst snd].
  - split; [eexists; reflexivity |].
    change (EvLog (MsgStartGroup task_group_id (length task_group_items))
            :: ?n ++ [EvLog (MsgGroupReturn task_group_id)])
      with ([EvLog (MsgStartGroup task_group_id (length task_group_items))]
            ++ n ++ [EvLog (MsgGroupReturn task_group_id)]).
    rewrite !task_signals_app, !returned_app, !entered_app, !group_signals_app.
    destruct S as (S1 & S2 & _). rewrite G, S1.
    cbn [task_signals returned entered group_signals flat_map app length].
    rewrite !app_nil_r. rewrite S2. repeat split; [exact T | reflexivity ..].
  - split; [eexists; reflexivity |].
    change (EvLog (MsgStartGroup task_group_id (length task_group_items)) :: ?n)
      with ([EvLog (MsgStartGroup task_group_id (length task_group_items))] ++ n).
    rewrite !task_signals_app, !returned_app, !entered_app, !group_signals_app.
    rewrite G. cbn [task_signals returned entered group_signals flat_map app length].
    repeat split; [exact T | exact S].
Qed.

Example run_task_group_empty (env : Env) (g : Globals) (h : list event) :
  run_task_group env g "E" [] h
  = (Ok tt, [EvLog (MsgStartGroup "E" 0); EvLog (MsgGroupReturn "E")]).
Proof. reflexivity. Qed.

(* ================================================================== *)
(** * Further properties of the dispatch *)
(* ================================================================== *)

Lemma pool_requests_failures (n : list event) :
  pool_requests n = [] -> pool_failures n = [].
Proof.
  induction n as [|e n IH]; [reflexivity |].
  destruct e; cbn; try exact IH; discriminate.
Qed.

Lemma for_each_settled {A} (body : A -> M unit) :
  (forall x h, settled (body x h)) ->
  forall l h, settled (for_each l body h).
Proof.
  intros Hb. unfold settled in *.
  induction l as [|x r IH]; intros h; cbn [for_each].
  - intros _. split; reflexivity.
  - rewrite bind_fst, bind_snd. specialize (Hb x h).
    destruct (fst (body x h)) as [u|e]; intros [a Ha]; [| discriminate Ha].
    destruct (Hb (ex_intro _ u eq_refl)) as (U1 & R1).
    destruct (IH _ (ex_intro _ a Ha)) as (U2 & R2).
    rewrite unguarded_failures_app, returned_app, entered_app, map_app.
    rewrite U1, U2, R1, R2. split; reflexivity.
Qed.

Lemma run_task_group_shape (env : Env) (g : Globals) (gid : string)
    (items : list Task) (h : list event) :
  aggregations (snd (run_task_group env g gid items h)) = []
  /\ pool_requests (snd (run_task_group env g gid items h)) = []
  /\ settled (run_task_group env g gid items h).
Proof.
  rewrite run_task_group_run. cbn zeta.
  pose proof (task_loop_shape env g [EvLog MsgTaskReturn] items
                (h ++ [EvLog (MsgStartGroup gid (length items))])
                eq_refl eq_refl eq_refl eq_refl eq_refl eq_refl) as L.
  cbn zeta in L.
  change (fun _ : list event => (Ok tt, [EvLog MsgTaskReturn]))
    with (emit (EvLog MsgTaskReturn)) in L.
  destruct L as (_ & _ & A & P & S). unfold settled.
  destruct (fst (for_each items _ _)) as [[]|e]; cbn [fst snd].
  - change (EvLog (MsgStartGroup gid (length items))
            :: ?n ++ [EvLog (MsgGroupReturn gid)])
      with ([EvLog (MsgStartGroup gid (length items))]
            ++ n ++ [EvLog (MsgGroupReturn gid)]).
    rewrite !aggregations_app, !pool_requests_app, !unguarded_failures_app,
      !returned_app, !entered_app, !map_app, A, P.
    destruct S as (S1 & S2 & S3). rewrite S1, S2, S3.
    split; [reflexivity |]. split; [reflexivity |].
    intros _. split; reflexivity.
  - change (EvLog (MsgStartGroup gid (length items)) :: ?n)
      with ([EvLog (MsgStartGroup gid (length items))] ++ n).
    rewrite !aggregations_app, !pool_requests_app, A, P.
    split; [reflexivity |]. split; [reflexivity |].
    intros [a Ha]. discriminate Ha.
Qed.

Lemma run_chunk_shape (env : Env) (g : Globals) (c : list (string * list Task))
    (h : list event) :
  aggregations (snd (run_chunk env g c h)) = []
  /\ pool_requests (snd (run_chunk env g c h)) = []
  /\ settled (run_chunk env g c h).
Proof.
  unfold run_chunk. split; [| split].
  - apply (for_each_silent _ (fun job => run_task_group env g (fst job) (snd job))).
    intros x h'. apply run_task_group_shape.
  - apply (for_each_silent _ (fun job => run_task_group env g (fst job) (snd job))).
    intros x h'. apply run_task_group_shape.
  - apply for_each_settled. intros x h'. apply run_task_group_shape.
Qed.

Lemma run_chunks_shape (env : Env) (g : Globals)
    (cs : list (list (string * list Task))) (first_exn : option exn) (h : list event) :
  aggregations (snd (run_chunks env g cs first_exn h)) = []
  /\ pool_requests (snd (run_chunks env g cs first_exn h)) = []
  /\ (exists r, fst (run_chunks env g cs first_exn h) = Ok r
                /\ (is_Some first_exn -> r = first_exn)
                /\ (r = None ->
                    unguarded_failures (snd (run_chunks env g cs first_exn h)) = []
                    /\ map fst (returned (snd (run_chunks env g cs first_exn h)))
                       = entered (snd (run_chunks env g cs first_exn h)))).
Proof.
  revert first_exn h. induction cs as [|c rest IH]; intros first_exn h.
  - split; [reflexivity |]. split; [reflexivity |].
    exists first_exn. split; [reflexivity |]. split; [reflexivity |].
    intros _. split; reflexivity.
  - rewrite run_chunks_run. cbn zeta. cbn [fst snd].
    destruct (run_chunk_shape env g c h) as (A1 & P1 & S1).
    match goal with |- context [run_chunks env g rest ?f ?hh] =>
      destruct (IH f hh) as (A2 & P2 & r & O2 & F2 & S2) end.
    rewrite !aggregations_app, !pool_requests_app, A1, P1, A2, P2.
    split; [reflexivity |]. split; [reflexivity |].
    exists r. split; [exact O2 |]. split.
    + intros [e0 ->].
      destruct (fst (run_chunk env g c h)); apply F2; eauto.
    + intros Hr. unfold settled in S1.
      destruct (fst (run_chunk env g c h)) as [u|e] eqn:F1.
      * destruct (S1 (ex_intro _ u eq_refl)) as (U1 & R1).
        destruct (S2 Hr) as (U2 & R2).
        rewrite unguarded_failures_app, returned_app, entered_app, map_app.
        rewrite U1, U2, R1, R2. split; reflexivity.
      * exfalso. destruct first_exn as [e0|].
        -- specialize (F2 (ex_intro _ e0 eq_refl)). congruence.
        -- specialize (F2 (ex_intro _ e eq_refl)). congruence.
Qed.

Lemma starmap_shape (env : Env) (g : Globals) (processes : Z)
    (jobs : list (string * list Task)) (h : list event) :
  aggregations (snd (starmap env g processes jobs h)) = []
  /\ pool_requests (snd (starmap env g processes jobs h)) = []
  /\ settled (starmap env g processes jobs h).
Proof.
  rewrite starmap_run. cbn zeta. cbn [fst snd].
  match goal with |- context [run_chunks env g ?cs None ?hh] =>
    destruct (run_chunks_shape env g cs None hh) as (A & P & r & O & _ & S) end.
  change (EvStarmap jobs :: ?n) with ([EvStarmap jobs] ++ n).
  rewrite !aggregations_app, !pool_requests_app, A, P.
  split; [reflexivity |]. split; [reflexivity |].
  unfold settled. cbn [fst snd]. rewrite ?app_nil_r, O.
  destruct r as [e|]; intros [a Ha]; [discriminate Ha |].
  destruct (S eq_refl) as (U & R).
  rewrite unguarded_failures_app, returned_app, entered_app, map_app, U, R.
  split; reflexivity.
Qed.

Lemma dispatch_shape (env : Env) (g : Globals) (num_processes : Z)
    (all_tasks : list Task) (task_groups : list (string * list Task))
    (h : list event) :
  aggregations (snd (dispatch env g num_processes all_tasks task_groups h)) = []
  /\ (forall a, fst (dispatch env g num_processes all_tasks task_groups h) = Ok a ->
        unguarded_failures
          (snd (dispatch env g num_processes all_tasks task_groups h)) = []
        /\ pool_failures
             (snd (dispatch env g num_processes all_tasks task_groups h)) = []
        /\ map fst (returned
                      (snd (dispatch env g num_processes all_tasks task_groups h)))
           = entered (snd (dispatch env g num_processes all_tasks task_groups h))).
Proof.
  destruct (num_processes =? 1)%Z eqn:W.
  - apply Z.eqb_eq in W. subst num_processes.
    rewrite dispatch_single_run. cbn zeta.
    pose proof (task_loop_shape env g [] all_tasks (h ++ [EvLog MsgSingleProcess])
                  eq_refl eq_refl eq_refl eq_refl eq_refl eq_refl) as L.
    cbn zeta in L.
    change (fun _ : list event => (Ok tt, @nil event)) with (@ret unit tt) in L.
    destruct L as (_ & _ & A & P & S).
    destruct (fst (for_each all_tasks _ _)) as [[]|e]; cbn [fst snd].
    + change (EvLog MsgSingleProcess :: ?n ++ [EvLog MsgFinishedSequentially])
        with ([EvLog MsgSingleProcess] ++ n ++ [EvLog MsgFinishedSequentially]).
      rewrite !aggregations_app, A. split; [reflexivity |]. intros a _.
      rewrite !unguarded_failures_app, !returned_app, !entered_app, !map_app.
      destruct S as (S1 & S2 & S3). rewrite S1, S2, S3.
      split; [reflexivity |]. split; [| reflexivity].
      apply pool_requests_failures.
      rewrite !pool_requests_app, P. reflexivity.
    + change (EvLog MsgSingleProcess :: ?n) with ([EvLog MsgSingleProcess] ++ n).
      rewrite !aggregations_app, A. split; [reflexivity |]. intros a F. discriminate F.
  - rewrite (dispatch_pool_run env g num_processes all_tasks task_groups h W).
    cbn zeta.
    destruct (new_pool_answer env _ _) as [e|].
    + split; [reflexivity |]. intros a F. discriminate F.
    + match goal with |- context [starmap env g ?p ?j ?hh] =>
        destruct (starmap_shape env g p j hh) as (A & P & S) end.
      unfold settled in S.
      destruct (fst (starmap env g _ _ _)) as [u|e]; cbn [fst snd].
      * match goal with |- context [?e1 :: ?e2 :: ?e3 :: ?n ++ ?t] =>
          change (e1 :: e2 :: e3 :: n ++ t) with ([e1; e2; e3] ++ n ++ t) end.
        rewrite !aggregations_app, A. split; [reflexivity |]. intros a _.
        destruct (S (ex_intro _ u eq_refl)) as (U & R).
        rewrite !unguarded_failures_app, !pool_failures_app, !returned_app,
          !entered_app, !map_app, U, R, (pool_requests_failures _ P).
        repeat split; reflexivity.
      * match goal with |- context [?e1 :: ?e2 :: ?e3 :: ?n ++ ?t] =>
          change (e1 :: e2 :: e3 :: n ++ t) with ([e1; e2; e3] ++ n ++ t) end.
        rewrite !aggregations_app, A. split; [reflexivity |]. intros a F. discriminate F.
Qed.

(** X10.  A worker count below one, or no group at all, with a count other than
    one: [Pool] refuses to start, [dispatch] prints that it is finishing
    the pool and raises the [ValueError] of [Pool]; no task is run. *)
Theorem dispatch_pool_refused (env : Env) (g : Globals) (num_processes : Z)
    (all_tasks : list Task) (task_groups : list (string * list Task))
    (h : list event) :
  num_processes <> 1%Z ->
  (num_processes < 1)%Z \/ task_groups = [] ->
  dispatch env g num_processes all_tasks task_groups h
  = (Raise pool_size_error,
     [EvInitTotalGroups (length task_groups);
      EvLog (MsgSortedGroups (map fst (sort_groups task_groups)));
      EvPool (Z.min num_processes (Z.of_nat (length task_groups)))
             (Some pool_size_error);
      EvLog MsgFinishingPool]).
Proof.
  intros HW Hp.
  rewrite dispatch_pool_run by now apply Z.eqb_neq.
  cbn zeta. unfold new_pool_answer, clamp_processes.
  replace (Z.min num_processes (Z.of_nat (length task_groups)) <? 1)%Z with true.
  - reflexivity.
  - symmetry. apply Z.ltb_lt. destruct Hp as [Hp | ->]; cbn [length]; lia.
Qed.

Lemma dispatch_pool_refused_witness :
  (0 <> 1)%Z
  /\ fst (dispatch env_fine (sample_globals false) 0 [t1; t2; t3]
                   (group_tasks [t1; t2; t3]) [])
     = Raise pool_size_error
  /\ entered (snd (dispatch env_fine (sample_globals false) 0 [t1; t2; t3]
                            (group_tasks [t1; t2; t3]) [])) = [].
Proof.
  split; [discriminate |].
  rewrite (dispatch_pool_refused env_fine (sample_globals false) 0 [t1; t2; t3]
             (group_tasks [t1; t2; t3]) []).
  - split; reflexivity.
  - discriminate.
  - left. lia.
Defined.

(* ================================================================== *)
(** * Further properties of [entry_swe_bench_mode] *)
(* ================================================================== *)

(** How a run of the entry point ends, once the ids are selected and the
    tasks are built. *)
Lemma entry_cases (env : Env) (g : Globals) (one_id : option string)
    (task_list : option (list string)) (sm : gmap string SetupInfo)
    (tm : gmap string TaskInfo) (num_processes : Z) (h : list event)
    (ids : list string) (all_tasks : list Task) :
  select_task_ids one_id task_list = Ok ids ->
  make_tasks sm tm (remaining_task_ids sm tm ids) = Ok all_tasks ->
  let res := entry_swe_bench_mode env g one_id task_list sm tm num_processes h in
  (exists e, res = (Raise e, [EvCreateDir (output_dir g) (Some e)]))
  \/ (exists h',
        let d := dispatch env g num_processes all_tasks (group_tasks all_tasks) h' in
        let pre := EvCreateDir (output_dir g) None
                   :: entry_prelude sm tm ids num_processes all_tasks in
        match fst d with
        | Raise e => res = (Raise e, pre ++ snd d)
        | Ok _ =>
            if only_save_sbfl_result g
            then res = (Ok tt, pre ++ snd d ++ [EvLog MsgOnlySbfl])
            else
              (exists f, res = (Ok tt,
                                pre ++ snd d
                                ++ [EvLog MsgPostProcessing;
                                    EvAggregate (output_dir g) (Ok f);
                                    EvLog (MsgInputFileCreated f)]))
              \/ (exists e, res = (Raise e,
                                   pre ++ snd d
                                   ++ [EvLog MsgPostProcessing;
                                       EvAggregate (output_dir g) (Raise e)]))
        end).
Proof.
  intros Hsel Hmk. cbn zeta.
  rewrite (surjective_pairing (entry_swe_bench_mode _ _ _ _ _ _ _ _)).
  unfold entry_swe_bench_mode. rewrite Hsel.
  mstep. mstep.
  destruct (create_dir_if_not_exists env _ (output_dir g)) as [e|].
  { left. exists e. reflexivity. }
  right. cbn [app]. mstep.
  rewrite (for_each_emit (fun id => EvLog (MsgSkipping id))). mstep.
  rewrite Hmk. mstep. mstep. mstep. mstep. mstep.
  rewrite (for_each_emit (fun kv : string * list Task =>
                            EvLog (MsgGroupInfo (fst kv) (length (snd kv))))).
  mstep.
  match goal with |- context [dispatch env g num_processes all_tasks _ ?hh] =>
    exists hh end.
  unfold entry_prelude.
  destruct (dispatch env g num_processes all_tasks _ _) as [[[]|e] dn];
    cbn [fst snd].
  - destruct (only_save_sbfl_result g).
    + cbn [emit fst snd]. rewrite <- ?app_assoc. reflexivity.
    + mstep. mstep.
      destruct (organize_and_form_input env _ (output_dir g)) as [f|e] eqn:A.
      * left. exists f. rewrite <- ?app_assoc. cbn [app]. reflexivity.
      * right. exists e. rewrite <- ?app_assoc. cbn [app]. reflexivity.
  - rewrite <- ?app_assoc. cbn [app]. rewrite ?app_nil_r. reflexivity.
Qed.

Lemma flat_map_reporting {B} (f : event -> list B) :
  (forall m, f (EvLog m) = []) -> (forall k, f (EvInitTotalTasks k) = []) ->
  forall l, Forall reporting l -> flat_map f l = [].
Proof.
  intros Hl Hk. induction l as [|e l IH]; intros H; [reflexivity |].
  inversion H as [|? ? He Hl']; subst. cbn [flat_map].
  rewrite (IH Hl'), app_nil_r.
  destruct e; try contradiction; [apply Hl | apply Hk].
Qed.

Lemma entry_prelude_reporting (sm : gmap string SetupInfo) (tm : gmap string TaskInfo)
    (ids : list string) (num_processes : Z) (all_tasks : list Task) :
  Forall reporting (entry_prelude sm tm ids num_processes all_tasks).
Proof.
  unfold entry_prelude. rewrite !Forall_app. repeat split.
  - apply List.Forall_forall. intros e He. apply in_map_iff in He.
    destruct He as (x & <- & _). exact I.
  - repeat constructor.
  - apply List.Forall_forall. intros e He. apply in_map_iff in He.
    destruct He as (x & <- & _). exact I.
Qed.

Lemma entry_prelude_quiet (sm : gmap string SetupInfo) (tm : gmap string TaskInfo)
    (ids : list string) (num_processes : Z) (all_tasks : list Task) :
  let pre := entry_prelude sm tm ids num_processes all_tasks in
  aggregations pre = [] /\ unguarded_failures pre = [] /\ pool_failures pre = []
  /\ entered pre = [] /\ returned pre = [].
Proof.
  pose proof (entry_prelude_reporting sm tm ids num_processes all_tasks) as R.
  cbn zeta. repeat split; apply flat_map_reporting; auto.
Qed.

Lemma entry_select_raises (env : Env) (g : Globals) (one_id : option string)
    (task_list : option (list string)) (sm : gmap string SetupInfo)
    (tm : gmap string TaskInfo) (num_processes : Z) (h : list event) (e : exn) :
  select_task_ids one_id task_list = Raise e ->
  entry_swe_bench_mode env g one_id task_list sm tm num_processes h = (Raise e, []).
Proof. intros H. unfold entry_swe_bench_mode. rewrite H. reflexivity. Qed.

(** X11.  The consolidated result is built at most once per run, and only at
    the very end of a run that went through: outside the
    localization-only mode, after a dispatch in which no operation outside
    a [try] block raised, the pool (if any) was created and every call of
    [run_one_task] returned.  A run that returns has built it exactly
    once, or not at all in the localization-only mode. *)
Theorem aggregation_trigger (env : Env) (g : Globals) (one_id : option string)
    (task_list : option (list string)) (setup_map : gmap string SetupInfo)
    (tasks_map : gmap string TaskInfo) (num_processes : Z) (h : list event) :
  let res := entry_swe_bench_mode env g one_id task_list setup_map tasks_map
                                  num_processes h in
  (length (aggregations (snd res)) <= 1)%nat
  /\ (aggregations (snd res) <> [] ->
      only_save_sbfl_result g = false
      /\ unguarded_failures (snd res) = []
      /\ pool_failures (snd res) = []
      /\ map fst (returned (snd res)) = entered (snd res))
  /\ (fst res = Ok tt ->
      if only_save_sbfl_result g then aggregations (snd res) = []
      else exists f, aggregations (snd res) = [Ok f]
                     /\ ends_with (snd res)
                          [EvAggregate (output_dir g) (Ok f);
                           EvLog (MsgInputFileCreated f)]).
Proof.
  cbn zeta.
  destruct (select_task_ids one_id task_list) as [ids|e] eqn:Hsel.
  2: { rewrite (entry_select_raises _ _ _ _ _ _ _ _ e Hsel). cbn.
       split; [lia |]. split; [intros F; now elim F | discriminate]. }
  destruct (make_tasks_remaining setup_map tasks_map ids) as (tasks & Hmk & _).
  destruct (entry_cases env g one_id task_list setup_map tasks_map num_processes h
              ids tasks Hsel Hmk) as [(e & ->) | (h' & C)].
  { cbn. split; [lia |]. split; [intros F; now elim F | discriminate]. }
  cbn zeta in C.
  destruct (entry_prelude_quiet setup_map tasks_map ids num_processes tasks)
    as (Ap & Up & Pp & Ep & Rp).
  destruct (dispatch_shape env g num_processes tasks (group_tasks tasks) h')
    as (Ad & Sd).
  assert (Obs : forall post,
             aggregations (EvCreateDir (output_dir g) None
                           :: entry_prelude setup_map tasks_map ids num_processes tasks
                           ++ snd (dispatch env g num_processes tasks
                                            (group_tasks tasks) h') ++ post)
             = aggregations post).
  { intros post.
    change (aggregations (entry_prelude setup_map tasks_map ids num_processes tasks
                          ++ snd (dispatch env g num_processes tasks
                                           (group_tasks tasks) h') ++ post)
            = aggregations post).
    now rewrite !aggregations_app, Ap, Ad. }
  assert (Rest : forall a post,
             fst (dispatch env g num_processes tasks (group_tasks tasks) h') = Ok a ->
             unguarded_failures post = [] -> pool_failures post = [] ->
             entered post = [] -> returned post = [] ->
             let n := EvCreateDir (output_dir g) None
                      :: entry_prelude setup_map tasks_map ids num_processes tasks
                      ++ snd (dispatch env g num_processes tasks (group_tasks tasks) h')
                      ++ post in
             unguarded_failures n = [] /\ pool_failures n = []
             /\ map fst (returned n) = entered n).
  { intros a post Ha U P E R. cbn zeta.
    destruct (Sd a Ha) as (Ud & Pd & Rd).
    change (unguarded_failures
              (entry_prelude setup_map tasks_map ids num_processes tasks
               ++ snd (dispatch env g num_processes tasks (group_tasks tasks) h')
               ++ post) = []
            /\ pool_failures
                 (entry_prelude setup_map tasks_map ids num_processes tasks
                  ++ snd (dispatch env g num_processes tasks (group_tasks tasks) h')
                  ++ post) = []
            /\ map fst (returned
                 (entry_prelude setup_map tasks_map ids num_processes tasks
                  ++ snd (dispatch env g num_processes tasks (group_tasks tasks) h')
                  ++ post))
               = entered
                   (entry_prelude setup_map tasks_map ids num_processes tasks
                    ++ snd (dispatch env g num_processes tasks (group_tasks tasks) h')
                    ++ post)).
    rewrite !unguarded_failures_app, !pool_failures_app, !returned_app,
      !entered_app, !map_app, Up, Pp, Ep, Rp, Ud, Pd, Rd, U, P, E, R.
    repeat split; reflexivity. }
  destruct (fst (dispatch env g num_processes tasks (group_tasks tasks) h'))
    as [a|e] eqn:Fd.
  - destruct (only_save_sbfl_result g) eqn:Hs.
    + rewrite C. cbn [fst snd app]. rewrite Obs. cbn.
      split; [lia |]. split; [intros F; now elim F | reflexivity].
    + destruct C as [(f & ->) | (e & ->)]; cbn [fst snd app]; rewrite Obs.
      * split; [cbn; lia |]. split.
        -- intros _. split; [reflexivity |].
           apply (Rest a _ eq_refl); reflexivity.
        -- intros _. exists f. split; [reflexivity |].
           exists (EvCreateDir (output_dir g) None
                   :: entry_prelude setup_map tasks_map ids num_processes tasks
                   ++ snd (dispatch env g num_processes tasks (group_tasks tasks) h')
                   ++ [EvLog MsgPostProcessing]).
           cbn [app]. rewrite <- !app_assoc. reflexivity.
      * split; [cbn; lia |]. split.
        -- intros _. split; [reflexivity |].
           apply (Rest a _ eq_refl); reflexivity.
        -- discriminate.
  - rewrite C. cbn [fst snd app].
    rewrite <- (app_nil_r (snd (dispatch _ _ _ _ _ _))).
    rewrite Obs. cbn.
    split; [lia |]. split; [intros F; now elim F | discriminate].
Qed.


(** X13.  No requested id is in both maps: every id is reported as skipped and no
    task is run.  With one process the run goes on to build the
    consolidated result (unless in the localization-only mode); with any
    other number of processes [Pool] is asked for no worker at all and the
    run ends with its [ValueError], without the consolidated result. *)
Theorem no_task_left (env : Env) (g : Globals) (one_id : option string)
    (task_list : option (list string)) (setup_map : gmap string SetupInfo)
    (tasks_map : gmap string TaskInfo) (num_processes : Z) (h : list event)
    (ids : list string) :
  select_task_ids one_id task_list = Ok ids ->
  (forall x, In x ids -> in_both_maps setup_map tasks_map x = false) ->
  unguarded_failures
    (snd (entry_swe_bench_mode env g one_id task_list setup_map tasks_map
                               num_processes h)) = [] ->
  let res := entry_swe_bench_mode env g one_id task_list setup_map tasks_map
                                  num_processes h in
  entered (snd res) = []
  /\ (exists rest,
        snd res = EvCreateDir (output_dir g) None
                  :: map (fun id => EvLog (MsgSkipping id)) (sorted_str ids) ++ rest)
  /\ (num_processes = 1%Z -> only_save_sbfl_result g = false ->
      length (aggregations (snd res)) = 1%nat)
  /\ (num_processes <> 1%Z ->
      fst res = Raise pool_size_error
      /\ pool_requests (snd res) = [(Z.min num_processes 0, Some pool_size_error)]
      /\ aggregations (snd res) = []).
Proof.
  intros Hsel Hmiss Hu. cbn zeta.
  assert (Hrem : remaining_task_ids setup_map tasks_map ids = []).
  { rewrite remaining_task_ids_eq, (filter_none _ _ Hmiss). reflexivity. }
  assert (Hmis : missing_task_ids setup_map tasks_map ids = ids).
  { unfold missing_task_ids. apply filter_all. intros x Hx.
    now rewrite (Hmiss x Hx). }
  assert (Hmk : make_tasks setup_map tasks_map
                  (remaining_task_ids setup_map tasks_map ids) = Ok [])
    by now rewrite Hrem.
  destruct (entry_cases env g one_id task_list setup_map tasks_map num_processes h
              ids [] Hsel Hmk) as [(e & E) | (h' & C)].
  { rewrite E in Hu. discriminate Hu. }
  clear Hu. cbn zeta in C.
  pose proof (entry_prelude_reporting setup_map tasks_map ids num_processes [])
    as HP.
  assert (HPe : entered (entry_prelude setup_map tasks_map ids num_processes []) = [])
    by now apply flat_map_reporting.
  assert (HPa : aggregations (entry_prelude setup_map tasks_map ids num_processes [])
                = []) by now apply flat_map_reporting.
  assert (HPp : pool_requests (entry_prelude setup_map tasks_map ids num_processes [])
                = []) by now apply flat_map_reporting.
  assert (HPs : exists tail,
             entry_prelude setup_map tasks_map ids num_processes []
             = map (fun id => EvLog (MsgSkipping id)) (sorted_str ids) ++ tail).
  { unfold entry_prelude. rewrite Hmis. eexists. reflexivity. }
  destruct HPs as (tail & HPs).
  change (group_tasks []) with (@nil (string * list Task)) in C.
  assert (Obs : forall r rest,
             entry_swe_bench_mode env g one_id task_list setup_map tasks_map
                                  num_processes h
             = (r, (EvCreateDir (output_dir g) None
                    :: entry_prelude setup_map tasks_map ids num_processes [])
                   ++ rest) ->
             entered (snd (entry_swe_bench_mode env g one_id task_list setup_map
                                                tasks_map num_processes h))
             = entered rest
             /\ aggregations (snd (entry_swe_bench_mode env g one_id task_list
                                     setup_map tasks_map num_processes h))
                = aggregations rest
             /\ pool_requests (snd (entry_swe_bench_mode env g one_id task_list
                                      setup_map tasks_map num_processes h))
                = pool_requests rest
             /\ exists rest',
                  snd (entry_swe_bench_mode env g one_id task_list setup_map
                                            tasks_map num_processes h)
                  = EvCreateDir (output_dir g) None
                    :: map (fun id => EvLog (MsgSkipping id)) (sorted_str ids)
                    ++ rest').
  { intros r rest ->. cbn [fst snd app].
    change (entered (EvCreateDir (output_dir g) None :: ?l)) with (entered l).
    change (aggregations (EvCreateDir (output_dir g) None :: ?l))
      with (aggregations l).
    change (pool_requests (EvCreateDir (output_dir g) None :: ?l))
      with (pool_requests l).
    rewrite entered_app, aggregations_app, pool_requests_app, HPe, HPa, HPp.
    repeat split; try reflexivity.
    rewrite HPs, <- app_assoc. eexists. reflexivity. }
  destruct (Z.eq_dec num_processes 1%Z) as [-> | HW].
  - rewrite dispatch_single_run in C. cbn [for_each ret fst snd app] in C.
    destruct (only_save_sbfl_result g) eqn:Hs.
    + destruct (Obs _ _ C) as (Oe & Oa & Op & Os).
      rewrite Oe. split; [reflexivity |]. split; [exact Os |].
      split; [discriminate | intros F; now elim F].
    + destruct C as [(f & C) | (e & C)];
        destruct (Obs _ _ C) as (Oe & Oa & Op & Os);
        rewrite Oe, Oa; (split; [reflexivity |]); (split; [exact Os |]);
        (split; [reflexivity | intros F; now elim F]).
  - rewrite dispatch_pool_run in C by now apply Z.eqb_neq.
    cbn zeta in C. unfold new_pool_answer, clamp_processes in C.
    replace (Z.min num_processes (Z.of_nat (length (@nil (string * list Task))))
             <? 1)%Z with true in C
      by (symmetry; apply Z.ltb_lt; cbn [length]; lia).
    cbn [fst snd] in C. destruct (Obs _ _ C) as (Oe & Oa & Op & Os).
    split; [rewrite Oe; reflexivity |]. split; [exact Os |].
    split; [intros F; now elim HW |]. intros _.
    rewrite Oa, Op, C. repeat split; reflexivity.
Qed.

Lemma no_task_left_witness :
  let res := entry_swe_bench_mode env_fine (sample_globals false) None
               (Some ["zz"; "yy"]) sample_setup_map sample_tasks_map 2%Z [] in
  select_task_ids None (Some ["zz"; "yy"]) = Ok ["zz"; "yy"]
  /\ entered (snd res) = []
  /\ fst res = Raise pool_size_error
  /\ aggregations (snd res) = [].
Proof.
  split; [reflexivity |].
  destruct (no_task_left env_fine (sample_globals false) None (Some ["zz"; "yy"])
              sample_setup_map sample_tasks_map 2%Z [] ["zz"; "yy"])
    as (He & _ & _ & Hp).
  - reflexivity.
  - intros x [<- | [<- | []]]; vm_compute; reflexivity.
  - vm_compute. reflexivity.
  - destruct Hp as (Hf & _ & Ha); [discriminate |].
    split; [exact He |]. split; [exact Hf | exact Ha].
Defined.

(* ================================================================== *)
(** * Further properties of the grouping, the counters and the directories *)
(* ================================================================== *)

Lemma filter_filter_absorb (seen : list string) (k : string) (l : list string) :
  str_mem k seen = true ->
  List.filter (fun y => negb (str_mem y seen))
              (List.filter (fun y => negb (Strings.String.eqb y k)) l)
  = List.filter (fun y => negb (str_mem y seen)) l.
Proof.
  intros Hk. induction l as [|y l IH]; cbn [List.filter]; [reflexivity |].
  destruct (Strings.String.eqb y k) eqn:E; cbn [negb List.filter].
  - apply Strings.String.eqb_eq in E. subst y. rewrite Hk. cbn [negb]. exact IH.
  - destruct (str_mem y seen); cbn [negb]; now rewrite IH.
Qed.

Lemma str_mem_app (x : string) (l1 l2 : list string) :
  str_mem x (l1 ++ l2) = (str_mem x l1 || str_mem x l2)%bool.
Proof. unfold str_mem. apply existsb_app. Qed.

Lemma filter_filter_snoc (seen : list string) (k : string) (l : list string) :
  List.filter (fun y => negb (str_mem y (seen ++ [k]))) l
  = List.filter (fun y => negb (str_mem y seen))
                (List.filter (fun y => negb (Strings.String.eqb y k)) l).
Proof.
  induction l as [|y l IH]; cbn [List.filter]; [reflexivity |].
  rewrite str_mem_app. cbn [str_mem existsb]. rewrite orb_false_r.
  destruct (Strings.String.eqb y k); cbn [negb List.filter].
  - rewrite orb_true_r. cbn [negb]. exact IH.
  - rewrite orb_false_r. destruct (str_mem y seen); cbn [negb]; now rewrite IH.
Qed.

Lemma group_fold_keys (l : list Task) (gs : list (string * list Task)) :
  map fst (List.fold_left
             (fun task_groups task =>
                groups_append (env_name (setup_info task)) task task_groups)
             l gs)
  = map fst gs
    ++ List.filter (fun y => negb (str_mem y (map fst gs)))
                   (first_occurrences (map key_of l)).
Proof.
  revert gs. induction l as [|t l IH]; intros gs; cbn [List.fold_left map first_occurrences].
  - cbn. now rewrite app_nil_r.
  - rewrite IH, groups_append_keys. fold (key_of t).
    cbn [List.filter].
    destruct (str_mem (key_of t) (map fst gs)) eqn:E; cbn [negb].
    + now rewrite filter_filter_absorb.
    + rewrite <- app_assoc. cbn [app]. now rewrite filter_filter_snoc.
Qed.

Lemma groups_append_nonempty (k : string) (t : Task) (gs : list (string * list Task)) :
  List.Forall (fun kv => snd kv <> []) gs ->
  List.Forall (fun kv => snd kv <> []) (groups_append k t gs).
Proof.
  induction 1 as [|[k' items] rest Hne Hrest IH]; cbn [groups_append].
  - constructor; [discriminate | constructor].
  - destruct (Strings.String.eqb k' k).
    + constructor; [| exact Hrest]. cbn. now destruct items.
    + constructor; [exact Hne | exact IH].
Qed.

Lemma group_fold_nonempty (l : list Task) (gs : list (string * list Task)) :
  List.Forall (fun kv => snd kv <> []) gs ->
  List.Forall (fun kv => snd kv <> [])
    (List.fold_left
       (fun task_groups task =>
          groups_append (env_name (setup_info task)) task task_groups)
       l gs).
Proof.
  revert gs. induction l as [|t l IH]; intros gs H; cbn [List.fold_left].
  - exact H.
  - apply IH. now apply groups_append_nonempty.
Qed.

Lemma first_occurrences_length (l : list string) :
  (length (first_occurrences l) <= length l)%nat.
Proof.
  induction l as [|x l IH]; cbn [first_occurrences length]; [lia |].
  pose proof (List.filter_length_le
                (fun y => negb (Strings.String.eqb y x)) (first_occurrences l)).
  lia.
Qed.

(** X14.  The groups come in the order in which their keys first occur among
    the tasks (the order in which the group sizes are printed and in which
    groups of the same size are handed to the pool); no group is empty,
    and there are at most as many groups as tasks. *)
Theorem group_tasks_order (all_tasks : list Task) :
  map fst (group_tasks all_tasks) = first_occurrences (map key_of all_tasks)
  /\ List.Forall (fun kv => snd kv <> []) (group_tasks all_tasks)
  /\ (length (group_tasks all_tasks) <= length all_tasks)%nat.
Proof.
  assert (K : map fst (group_tasks all_tasks)
              = first_occurrences (map key_of all_tasks)).
  { unfold group_tasks. rewrite group_fold_keys. cbn [map app str_mem existsb negb].
    apply filter_all. reflexivity. }
  split; [exact K |]. split.
  - unfold group_tasks. apply group_fold_nonempty. constructor.
  - rewrite <- (length_map fst), K, <- (length_map key_of all_tasks).
    apply first_occurrences_length.
Qed.

Lemma make_tasks_from_labels (sm : gmap string SetupInfo) (tm : gmap string TaskInfo)
    (num_tasks : nat) (ids : list string) (idx : nat) (tasks : list Task) :
  make_tasks_from sm tm num_tasks idx ids = Ok tasks ->
  map task_counter tasks
  = map (counter_label num_tasks) (seq idx (length ids)).
Proof.
  revert idx tasks. induction ids as [|id rest IH]; intros idx tasks;
    cbn [make_tasks_from length seq map].
  - intros [= <-]. reflexivity.
  - unfold make_task.
    destruct (sm !! id) as [s|]; [| discriminate].
    destruct (tm !! id) as [t|]; [| discriminate].
    destruct (make_tasks_from sm tm num_tasks (S idx) rest) as [ts|e] eqn:E;
      [| discriminate].
    intros [= <-]. cbn [map task_counter]. f_equal. now apply IH.
Qed.

(** X15.  Whatever ids are asked for, a task is built for every id that is left
    after the missing ones are dropped: no lookup in the two maps fails.
    The tasks follow the sorted ids, and the task at position [i] (from 0)
    carries the counter [i+1/N], [N] being the number of tasks. *)
Theorem task_counters (sm : gmap string SetupInfo) (tm : gmap string TaskInfo)
    (ids : list string) :
  exists tasks,
    make_tasks sm tm (remaining_task_ids sm tm ids) = Ok tasks
    /\ map task_id tasks = remaining_task_ids sm tm ids
    /\ map task_counter tasks
       = map (counter_label (length tasks)) (seq 0 (length tasks)).
Proof.
  destruct (make_tasks_remaining sm tm ids) as (tasks & E & Hid & _).
  exists tasks. split; [exact E |]. split; [exact Hid |].
  unfold make_tasks in E. apply make_tasks_from_labels in E.
  rewrite E. now rewrite <- Hid, length_map.
Qed.

Lemma append_split_suffix (a b s1 s2 : string) :
  Strings.String.length s1 = Strings.String.length s2 ->
  a +:+ s1 = b +:+ s2 -> a = b /\ s1 = s2.
Proof.
  revert b. induction a as [|c a IH]; intros [|d b] L H.
  - now split.
  - apply (f_equal Strings.String.length) in H.
    rewrite !string_length_append in H. simpl in H. lia.
  - apply (f_equal Strings.String.length) in H.
    rewrite !string_length_append in H. simpl in H. lia.
  - cbn in H. injection H as -> H. destruct (IH b L H) as [-> ->]. now split.
Qed.

Lemma strftime_length (t : datetime) :
  Strings.String.length (strftime t) = 19%nat.
Proof. reflexivity. Qed.

Lemma digit_inj (a b : N) : digit a = digit b -> (a mod 10 = b mod 10)%N.
Proof.
  unfold digit. intros H. apply (f_equal N_of_ascii) in H.
  rewrite !N_ascii_embedding in H.
  - lia.
  - pose proof (N.mod_lt b 10). lia.
  - pose proof (N.mod_lt a 10). lia.
Qed.

Lemma pad2_digits (a : N) :
  (a < 100)%N -> (a = 10 * ((a / 10) mod 10) + a mod 10)%N.
Proof.
  intros Ha. pose proof (N.div_mod a 10 ltac:(discriminate)) as E.
  assert (a / 10 < 10)%N as Q by (apply N.Div0.div_lt_upper_bound; lia).
  rewrite (N.mod_small (a / 10) 10 Q). exact E.
Qed.

Lemma pad2_inj (a b : N) : (a < 100)%N -> (b < 100)%N -> pad2 a = pad2 b -> a = b.
Proof.
  unfold pad2. intros Ha Hb [= H1 H2].
  apply digit_inj in H1, H2.
  rewrite (pad2_digits a Ha), (pad2_digits b Hb), H1, H2. reflexivity.
Qed.

Lemma pad4_digits (a : N) :
  (a < 10000)%N ->
  (a = 1000 * ((a / 1000) mod 10) + 100 * ((a / 100) mod 10)
       + 10 * ((a / 10) mod 10) + a mod 10)%N.
Proof.
  intros Ha.
  change 1000%N with (10 * 10 * 10)%N at 2. change 100%N with (10 * 10)%N at 2.
  rewrite <- !N.Div0.div_div.
  pose proof (N.div_mod a 10 ltac:(discriminate)) as E1.
  pose proof (N.div_mod (a / 10) 10 ltac:(discriminate)) as E2.
  pose proof (N.div_mod (a / 10 / 10) 10 ltac:(discriminate)) as E3.
  assert (a / 10 / 10 / 10 < 10)%N as Q.
  { rewrite !N.Div0.div_div. apply N.Div0.div_lt_upper_bound. lia. }
  rewrite (N.mod_small _ 10 Q). lia.
Qed.

Lemma pad4_inj (a b : N) : (a < 10000)%N -> (b < 10000)%N -> pad4 a = pad4 b -> a = b.
Proof.
  unfold pad4, pad2. intros Ha Hb [= H1 H2 H3 H4].
  apply digit_inj in H1, H2, H3, H4.
  rewrite (pad4_digits a Ha), (pad4_digits b Hb), H1, H2, H3, H4. reflexivity.
Qed.

Lemma strftime_inj (s1 s2 : datetime) :
  valid_datetime s1 -> valid_datetime s2 ->
  strftime s1 = strftime s2 ->
  year s1 = year s2 /\ month s1 = month s2 /\ day s1 = day s2
  /\ hour s1 = hour s2 /\ minute s1 = minute s2 /\ second s1 = second s2.
Proof.
  intros (Y1 & M1 & D1 & H1 & I1 & S1) (Y2 & M2 & D2 & H2 & I2 & S2) E.
  unfold strftime in E.
  assert (P4 : forall n, Strings.String.length (pad4 n) = 4%nat) by reflexivity.
  assert (P2 : forall n, Strings.String.length (pad2 n) = 2%nat) by reflexivity.
  assert (C : forall a b s1 s2 : string,
             Strings.String.length a = Strings.String.length b ->
             a +:+ s1 = b +:+ s2 -> a = b /\ s1 = s2).
  { intros a. induction a as [|c a IH]; intros [|d b] r1 r2 L H;
      try discriminate L.
    - now split.
    - cbn in H. injection H as -> H. injection L as L.
      destruct (IH b r1 r2 L H) as [-> ->]. now split. }
  apply C in E; [| now rewrite !P4]. destruct E as [Ey E].
  apply (C "-") in E; [| reflexivity]. destruct E as [_ E].
  apply C in E; [| now rewrite !P2]. destruct E as [Em E].
  apply (C "-") in E; [| reflexivity]. destruct E as [_ E].
  apply C in E; [| now rewrite !P2]. destruct E as [Ed E].
  apply (C "_") in E; [| reflexivity]. destruct E as [_ E].
  apply C in E; [| now rewrite !P2]. destruct E as [Eh E].
  apply (C "-") in E; [| reflexivity]. destruct E as [_ E].
  apply C in E; [| now rewrite !P2]. destruct E as [Ei E].
  apply (C "-") in E; [| reflexivity]. destruct E as [_ Es].
  apply pad4_inj in Ey; [| lia | lia].
  apply pad2_inj in Em; [| lia | lia].
  apply pad2_inj in Ed; [| lia | lia].
  apply pad2_inj in Eh; [| lia | lia].
  apply pad2_inj in Ei; [| lia | lia].
  apply pad2_inj in Es; [| lia | lia].
  repeat split; assumption.
Qed.

(** X16.  When two runs get the same output directory.  For ids that do not
    start with the path separator, and start times as [datetime.now()]
    gives them: the directories are the same exactly when the ids are the
    same and the start times agree up to the second. *)
Theorem task_output_dir_collision (g : Globals) (id1 id2 : string)
    (s1 s2 : datetime) :
  starts_with_sep id1 = false -> starts_with_sep id2 = false ->
  valid_datetime s1 -> valid_datetime s2 ->
  (task_output_dir_of g id1 s1 = task_output_dir_of g id2 s2
   <-> id1 = id2
       /\ year s1 = year s2 /\ month s1 = month s2 /\ day s1 = day s2
       /\ hour s1 = hour s2 /\ minute s1 = minute s2 /\ second s1 = second s2).
Proof.
  intros S1 S2 V1 V2. split.
  - unfold task_output_dir_of. intros H. apply pjoin_cancel in H.
    + assert (H' : (id1 +:+ "_") +:+ strftime s1 = (id2 +:+ "_") +:+ strftime s2).
      { clear -H. revert H.
        assert (A : forall a b c : string, a +:+ b +:+ c = (a +:+ b) +:+ c).
        { intros a b c. induction a as [|x a IH]; [reflexivity |].
          change (String x (a +:+ b +:+ c) = String x ((a +:+ b) +:+ c)).
          now f_equal. }
        now rewrite !A. }
      apply append_split_suffix in H'; [| now rewrite !strftime_length].
      destruct H' as [Hid Hts]. apply append_cancel_r in Hid.
      split; [exact Hid |]. now apply strftime_inj.
    + now rewrite !starts_with_sep_dir_name, S1, S2.
  - intros (-> & Ey & Em & Ed & Eh & Ei & Es).
    unfold task_output_dir_of.
    now rewrite (strftime_ignores_microsecond s1 s2).
Qed.

Lemma task_output_dir_collision_witness :
  task_output_dir_of (sample_globals false) "t1" sample_time
  = task_output_dir_of (sample_globals false) "t1" sample_time_later
  <-> "t1" = "t1"
      /\ year sample_time = year sample_time_later
      /\ month sample_time = month sample_time_later
      /\ day sample_time = day sample_time_later
      /\ hour sample_time = hour sample_time_later
      /\ minute sample_time = minute sample_time_later
      /\ second sample_time = second sample_time_later.
Proof.
  apply (task_output_dir_collision (sample_globals false) "t1" "t1"
           sample_time sample_time_later).
  - reflexivity.
  - reflexivity.
  - unfold valid_datetime. cbn. lia.
  - unfold valid_datetime. cbn. lia.
Defined.

(* ================================================================== *)
(** * Properties of [parse_task_list_file] *)
(* ================================================================== *)

Lemma space1_newline : space1 newline = true.
Proof. reflexivity. Qed.









Lemma readlines_nil (text : string) : readlines text = [] -> text = "".
Proof.
  destruct text as [|c r]; [reflexivity |]. cbn [readlines].
  destruct (Ascii.eqb c newline); [discriminate |].
  destruct (readlines r); discriminate.
Qed.

(** X18.  With a task-list file and no single task, the entry point refuses to
    run for lack of ids exactly when the file is empty: a file of blank
    lines is accepted, and gives empty ids. *)
Theorem empty_task_list_file (text : string) :
  select_task_ids None (Some (parse_task_list_file text))
  = Raise (ValueError "No task ids to run.")
  <-> text = "".
Proof.
  split.
  - unfold select_task_ids, parse_task_list_file.
    destruct (readlines text) as [|l ls] eqn:E.
    + intros _. now apply readlines_nil.
    + cbn. discriminate.
  - intros ->. reflexivity.
Qed.

(* ================================================================== *)
(** * Properties of [entry_fresh_issue_mode] *)
(* ================================================================== *)

Ltac unfold_fresh :=
  cbv [Fresh.entry_fresh_issue_mode Fresh.construct Fresh.finish
       Fresh.run_inference Fresh.lookup_cost Fresh.bind Fresh.ret Fresh.raise
       Fresh.emit Fresh.call_unit Fresh.call_value Fresh.read Fresh.attempt].

(** Name the result of the call, and go through the answers of the
    environment that lead to it. *)
Ltac fresh_cases :=
  cbn zeta;
  match goal with
  | |- context [Fresh.entry_fresh_issue_mode ?env ?g ?a ?b ?c ?d ?e ?f ?i ?h] =>
      let E := fresh "E" in
      destruct (Fresh.entry_fresh_issue_mode env g a b c d e f i h)
        as [res_value res_trace] eqn:E;
      cbn [fst snd]; revert E; unfold_fresh
  end.

(** X19.  The issue has to come from exactly one place.  With a link and a file,
    or with neither, the call raises [ValueError] before it does anything;
    otherwise it starts by reading the clock and creating the output
    directory of the task, named after the id and the start time. *)
Theorem fresh_issue_source_check (env : Fresh.Env) (g : Globals)
    (task_id clone_link commit : string) (issue_link : option string)
    (setup_dir local_repo : string) (issue_file : option string)
    (h : list Fresh.event) :
  let res := Fresh.entry_fresh_issue_mode env g task_id clone_link commit
               issue_link setup_dir local_repo issue_file h in
  let dir := task_output_dir_of g task_id (Fresh.now env h) in
  match issue_link, issue_file with
  | Some _, None | None, Some _ =>
      exists r rest,
        snd res
        = Fresh.EvNow (Fresh.now env h) :: Fresh.EvCreateDir dir r :: rest
  | _, _ =>
      res = (Raise (ValueError
                      "Exactly one of issue-link or issue-file should be provided."),
             [])
  end.
Proof.
  cbn zeta. destruct issue_link as [link|], issue_file as [file|];
    try reflexivity; unfold_fresh; cbn [negb xorb Fresh.is_none];
    split_answers; eexists; eexists; reflexivity.
Qed.

(** X20.  Where the task comes from.  With an issue link, the task is never
    built from local files, and a call that returns has created the output
    directory and then the setup directory, and has built the task once,
    from this link.  With an issue file, the setup directory is not
    touched and nothing is built from a link; a call that returns has
    built the task once, from this file. *)
Theorem fresh_issue_source (env : Fresh.Env) (g : Globals)
    (task_id clone_link commit : string) (issue_link : option string)
    (setup_dir local_repo : string) (issue_file : option string)
    (h : list Fresh.event) :
  let res := Fresh.entry_fresh_issue_mode env g task_id clone_link commit
               issue_link setup_dir local_repo issue_file h in
  let dir := task_output_dir_of g task_id (Fresh.now env h) in
  (forall link, issue_link = Some link -> issue_file = None ->
     Fresh.local_constructions (snd res) = []
     /\ forall b, fst res = Ok b ->
          Fresh.online_constructions (snd res) = [link]
          /\ Fresh.created_dirs (snd res) = [dir; setup_dir])
  /\ (forall file, issue_link = None -> issue_file = Some file ->
        Fresh.online_constructions (snd res) = []
        /\ Fresh.created_dirs (snd res) = [dir]
        /\ forall b, fst res = Ok b ->
             Fresh.local_constructions (snd res) = [Some file]).
Proof.
  fresh_cases. intros E. split.
  - intros link -> ->. revert E. cbn [negb xorb Fresh.is_none].
    split_answers; intros [= <- <-]; (split; [reflexivity |]); intros b Hb;
      try discriminate Hb; split; reflexivity.
  - intros file -> ->. revert E. cbn [negb xorb Fresh.is_none].
    split_answers; intros [= <- <-]; (split; [reflexivity |]);
      (split; [reflexivity |]); intros b Hb; try discriminate Hb; reflexivity.
Qed.

Lemma fresh_issue_source_witness :
  let res := Fresh.entry_fresh_issue_mode (Fresh.sample_env None (Ok true) None)
               (sample_globals false) "f1" "https://host/repo.git" "c0ffee"
               (Some "https://host/issues/1") "/setup" "/local" None [] in
  Fresh.local_constructions (snd res) = []
  /\ Fresh.online_constructions (snd res) = ["https://host/issues/1"]
  /\ Fresh.created_dirs (snd res) = ["out/f1_2024-05-17_09-30-12"; "/setup"].
Proof.
  cbn zeta.
  destruct (fresh_issue_source (Fresh.sample_env None (Ok true) None)
              (sample_globals false) "f1" "https://host/repo.git" "c0ffee"
              (Some "https://host/issues/1") "/setup" "/local" None [])
    as [H _].
  destruct (H "https://host/issues/1" eq_refl eq_refl) as [L R].
  split; [exact L |]. exact (R true eq_refl).
Defined.

(** X21.  The API manager cannot be constructed: the exception is logged and the
    call returns [False] at once.  Inference is not run, no cost record is
    written, the repository is not reset, and nothing is printed after the
    opening message, neither a status nor a word about the patch. *)
Theorem fresh_issue_init_failure (env : Fresh.Env) (g : Globals)
    (task_id clone_link commit : string) (issue_link : option string)
    (setup_dir local_repo : string) (issue_file : option string)
    (h : list Fresh.event) (e : exn) :
  let res := Fresh.entry_fresh_issue_mode env g task_id clone_link commit
               issue_link setup_dir local_repo issue_file h in
  Fresh.api_manager_inits (snd res) = [Some e] ->
  fst res = Ok false
  /\ (exists pre ev, snd res = pre ++ [ev; Fresh.EvLogException e])
  /\ Fresh.logged (snd res) = [Fresh.MsgRunning task_id]
  /\ Fresh.inference_runs (snd res) = []
  /\ Fresh.cost_writes (snd res) = []
  /\ Fresh.resets (snd res) = [].
Proof.
  fresh_cases.
  destruct (negb (xorb (Fresh.is_none issue_link) (Fresh.is_none issue_file)));
    [intros [= <- <-] H; discriminate H |].
  destruct issue_link as [link|]; split_answers; intros [= <- <-] H;
    try discriminate H; injection H as <-;
    (split; [reflexivity |]);
    (split; [| repeat split; reflexivity]);
    match goal with
    | |- exists pre ev, ?n = _ =>
        exists (removelast (removelast n)),
               (List.last (removelast n) (Fresh.EvLog Fresh.MsgNoPatch));
        reflexivity
    end.
Qed.

Lemma fresh_issue_init_failure_witness :
  let res := Fresh.entry_fresh_issue_mode
               (Fresh.sample_env (Some (RuntimeError "cannot set up the project"))
                                 (Ok true) None)
               (sample_globals false) "f1" "" "" None "" "/local"
               (Some "issue.txt") [] in
  Fresh.api_manager_inits (snd res) = [Some (RuntimeError "cannot set up the project")]
  /\ fst res = Ok false
  /\ Fresh.logged (snd res) = [Fresh.MsgRunning "f1"]
  /\ Fresh.resets (snd res) = [].
Proof.
  cbn zeta.
  assert (I : Fresh.api_manager_inits
                (snd (Fresh.entry_fresh_issue_mode
                        (Fresh.sample_env
                           (Some (RuntimeError "cannot set up the project"))
                           (Ok true) None)
                        (sample_globals false) "f1" "" "" None "" "/local"
                        (Some "issue.txt") []))
              = [Some (RuntimeError "cannot set up the project")])
    by (vm_compute; reflexivity).
  split; [exact I |].
  destruct (fresh_issue_init_failure _ _ _ _ _ _ _ _ _ _ _ I)
    as (F & _ & L & _ & _ & R).
  split; [exact F |]. split; [exact L | exact R].
Defined.



(** X23.  Every cost record of the fresh-issue mode is written to [cost.json] in
    the output directory of the task, names the configured model, and
    carries the model's entry of [MODEL_COST_PER_INPUT] as the cost of an
    input token and as the cost of an output token alike. *)
Theorem fresh_issue_cost_record (env : Fresh.Env) (g : Globals)
    (task_id clone_link commit : string) (issue_link : option string)
    (setup_dir local_repo : string) (issue_file : option string)
    (h : list Fresh.event) (f : string) (c : CostRecord) :
  let res := Fresh.entry_fresh_issue_mode env g task_id clone_link commit
               issue_link setup_dir local_repo issue_file h in
  In (f, c) (Fresh.cost_writes (snd res)) ->
  f = pjoin (task_output_dir_of g task_id (Fresh.now env h)) "cost.json"
  /\ cost_model c = model g
  /\ MODEL_COST_PER_INPUT g !! model g = Some (input_cost_per_token c)
  /\ output_cost_per_token c = input_cost_per_token c.
Proof.
  fresh_cases.
  destruct (negb (xorb (Fresh.is_none issue_link) (Fresh.is_none issue_file)));
    [intros [= <- <-] [] |].
  destruct issue_link as [link|]; split_answers; intros [= <- <-]; cbn;
    intros H; repeat (destruct H as [H | H]; [| try contradiction]);
    try contradiction; injection H as <- <-; repeat split; assumption.
Qed.

Lemma fresh_issue_cost_record_witness :
  let res := Fresh.entry_fresh_issue_mode (Fresh.sample_env None (Ok true) None)
               (sample_globals false) "f1" "" "" None "" "/local"
               (Some "issue.txt") [] in
  let c := {| cost_model := "gpt-4"; cost_commit := "abc123";
              input_cost_per_token := 3 # 100000;
              output_cost_per_token := 3 # 100000;
              total_input_tokens := 1200; total_output_tokens := 300;
              total_tokens := 1500; total_cost := 54 # 1000;
              start_epoch := 0; end_epoch := 0; elapsed_seconds := 0 |} in
  In ("out/f1_2024-05-17_09-30-12/cost.json", c) (Fresh.cost_writes (snd res))
  /\ MODEL_COST_PER_OUTPUT (sample_globals false) !! model (sample_globals false)
     = Some (6 # 100000)%Q
  /\ output_cost_per_token c = input_cost_per_token c.
Proof.
  cbn zeta.
  match goal with |- ?I /\ _ => assert (H : I) by (vm_compute; left; reflexivity) end.
  split; [exact H |]. split; [reflexivity |].
  exact (proj2 (proj2 (proj2 (fresh_issue_cost_record _ _ _ _ _ _ _ _ _ _ _ _ H)))).
Defined.

(** X24.  The call raises in three ways only: with the [ValueError] of
    the check above, having done nothing; with [KeyError] for a model that
    has no entry in [MODEL_COST_PER_INPUT]; or with the exception of an
    operation outside the two [try] blocks, which is then the last thing
    it did.  A call that returns has seen no such operation fail; a
    failure of the API manager or of inference never comes out of the
    call. *)
Theorem fresh_issue_raises (env : Fresh.Env) (g : Globals)
    (task_id clone_link commit : string) (issue_link : option string)
    (setup_dir local_repo : string) (issue_file : option string)
    (h : list Fresh.event) :
  let res := Fresh.entry_fresh_issue_mode env g task_id clone_link commit
               issue_link setup_dir local_repo issue_file h in
  match fst res with
  | Ok b => Fresh.unguarded_failures (snd res) = []
  | Raise e =>
      (e = ValueError "Exactly one of issue-link or issue-file should be provided."
       /\ snd res = [])
      \/ (e = KeyError (model g)
          /\ MODEL_COST_PER_INPUT g !! model g = None
          /\ Fresh.unguarded_failures (snd res) = [])
      \/ exists pre ev,
           snd res = pre ++ [ev]
           /\ Fresh.unguarded_failures pre = []
           /\ Fresh.unguarded_failures [ev] = [e]
  end.
Proof.
  fresh_cases.
  destruct (negb (xorb (Fresh.is_none issue_link) (Fresh.is_none issue_file)));
    [intros [= <- <-]; left; split; reflexivity |].
  destruct issue_link as [link|]; split_answers; intros [= <- <-];
    try reflexivity;
    first
      [ right; left; split; [reflexivity |]; split; reflexivity
      | right; right;
        match goal with
        | |- exists pre ev, ?n = _ /\ _ =>
            exists (removelast n), (List.last n (Fresh.EvLog Fresh.MsgNoPatch));
            repeat split; reflexivity
        end ].
Qed.

(* ================================================================== *)
(** * Properties of [main] *)
(* ================================================================== *)

(** X25.  The two modes that only extract patches.  [--re-extract-patches] goes
    before [--extract-patches] and gets the directory as it was typed,
    where [--extract-patches] gets the absolute path.  Neither mode is
    reached when [--num-processes] is no number; [--save-sbfl-result]
    stops both when [--extract-patches] is given, and does not stop the
    re-extraction when it is not. *)
Theorem main_patch_extraction (convert_dir_to_absolute : string -> string)
    (args : Main.Args) :
  let refused :=
    (Main.save_sbfl_result args
     && bool_decide (is_Some (Main.extract_patches args)))%bool in
  (forall d,
     (exists s, Main.main convert_dir_to_absolute args
                = Ok (s, Main.reextract_organize_and_form_inputs d))
     <-> (exists n, Main.num_processes args = Ok n) /\ refused = false
         /\ Main.re_extract_patches args = Some d)
  /\ (forall p,
        (exists s, Main.main convert_dir_to_absolute args
                   = Ok (s, Main.extract_organize_and_form_input p))
        <-> (exists n, Main.num_processes args = Ok n)
            /\ Main.save_sbfl_result args = false
            /\ Main.re_extract_patches args = None
            /\ exists d, Main.extract_patches args = Some d
                         /\ p = convert_dir_to_absolute d)
  /\ (forall e,
        Main.main convert_dir_to_absolute args = Raise e
        <-> Main.num_processes args = Raise e
            \/ ((exists n, Main.num_processes args = Ok n) /\ refused = true
                /\ e = ValueError
                         "Cannot save SBFL result and extract patches at the same time.")).
Proof.
  cbn zeta. unfold Main.main.
  destruct (Main.num_processes args) as [n|x];
    destruct (Main.save_sbfl_result args);
    destruct (Main.extract_patches args) as [d0|];
    destruct (Main.re_extract_patches args) as [r0|];
    destruct (Main.mode args); cbn;
    (split; [| split]); intros y; split;
    try (intros [s H]; try discriminate H; injection H as _ H;
         repeat split; eauto; congruence);
    try (intros H; try discriminate H; injection H as H; subst;
         first [now left | right; repeat split; eauto]);
    try (intros [H | ([n' H1] & H2 & H3)]; congruence);
    try (intros ([n' H1] & H2 & H3); try discriminate; try congruence;
         try (destruct H3 as (H3 & d' & H4 & H5)); try discriminate;
         try (injection H3 as <-); try (injection H4 as <-); subst;
         eexists; reflexivity).
Qed.

(** X26.  The ways to an entry point, when no patch extraction is asked
    for.  Dependencies are installed only in the SWE-bench mode, and there
    exactly when [--enable-sbfl], [--enable-validation] or
    [--save-sbfl-result] is given; the SWE-bench mode gets its arguments
    as they were typed, with the number of processes as a number; the
    fresh-issue mode gets the absolute paths of the setup directory, the
    local repository and the issue file, and the links and the ids as
    they were typed. *)
Theorem main_entry (convert_dir_to_absolute : string -> string)
    (args : Main.Args) (s : Main.Settings) (c : Main.call) :
  Main.main convert_dir_to_absolute args = Ok (s, c) ->
  Main.extract_patches args = None ->
  Main.re_extract_patches args = None ->
  s = Main.settings convert_dir_to_absolute args (Main.globals_do_install s)
  /\ match Main.mode args with
     | Main.swe_bench =>
         Main.globals_do_install s
         = Some (Main.enable_sbfl args || Main.enable_validation args
                 || Main.save_sbfl_result args)%bool
         /\ exists n, Main.num_processes args = Ok n
            /\ c = Main.entry_swe_bench_mode (Main.task args)
                     (Main.task_list_file args) (Main.setup_map args)
                     (Main.tasks_map args) n
     | Main.fresh_issue =>
         Main.globals_do_install s = Some false
         /\ c = Main.entry_fresh_issue_mode (Main.fresh_task_id args)
                  (Main.clone_link args) (Main.commit_hash args)
                  (Main.issue_link args)
                  (option_map convert_dir_to_absolute (Main.setup_dir args))
                  (option_map convert_dir_to_absolute (Main.local_repo args))
                  (option_map convert_dir_to_absolute (Main.issue_file args))
     end.
Proof.
  unfold Main.main. intros H He Hr. rewrite He, Hr in H.
  rewrite andb_false_r in H.
  destruct (Main.num_processes args) as [n|x]; [| discriminate H].
  destruct (Main.mode args); injection H as <- <-; cbn.
  - split; [reflexivity |]. split; [reflexivity |]. now exists n.
  - split; [reflexivity |]. split; reflexivity.
Qed.

Lemma main_entry_witness :
  exists s c,
    Main.main Main.sample_absolute (Main.sample_args None None true) = Ok (s, c)
    /\ Main.globals_do_install s = Some true
    /\ Main.globals_output_dir s = Some "/work/out"
    /\ c = Main.entry_swe_bench_mode None None None None 1.
Proof.
  eexists. eexists. split; [reflexivity |].
  destruct (main_entry Main.sample_absolute (Main.sample_args None None true)
              _ _ eq_refl eq_refl eq_refl) as (_ & D & n & Hn & C).
  split; [exact D |]. split; reflexivity.
Defined.
